(** * plant_mon.py: watering schedule, plant CRUD and watering log

    A shallow embedding of the Flask application [plant_mon.py]: the two
    SQLite tables as lists of rows, the request handlers as functions from
    a store to a response and a store, and the date helpers on top of a
    model of Python's [datetime].

    Conventions.
    - Text is [string]; a character stands for the code point of the same
      number (below 256).  SQLite compares TEXT by the UTF-8 bytes, which
      orders strings exactly as their code points do.
    - The handlers are given twice.  The first part has them over the
      integers of [Z], every identifier and interval taken as a value
      that SQLite holds.  The part on the routes adds what lies between
      a request and the tables: the 64-bit binding of [sqlite3], the
      exhaustion of rowids, and the methods that a route lists.  The
      stores that the routes reach are among those the handlers reach.
    - Form fields and the members of a JSON body are text (or absent);
      [water_interval_days] of a JSON body may also be an integer.
    - The clock is an input: a handler receives the value that
      [datetime.now(timezone.utc)] returns, read once per request.
    - An exception that a handler does not catch is the [Raise] of its
      result; Flask answers it with status 500 and nothing is committed. *)

From Stdlib Require Import ZArith List Bool Ascii String Lia Sorted.
From Stdlib Require Import Numbers.DecimalString.
Import ListNotations.

Open Scope string_scope.
Open Scope Z_scope.

(** ** Python text primitives *)

Module PyStr.

(** [str.isspace] on one character, restricted to code points below 256:
    TAB..CR, FS..US, SPACE, NEL and NBSP. *)
Definition is_space (c : ascii) : bool :=
  let n := Z.of_N (N_of_ascii c) in
  ((9 <=? n) && (n <=? 13)) || ((28 <=? n) && (n <=? 32))
  || (n =? 133) || (n =? 160).

Fixpoint lstrip (s : string) : string :=
  match s with
  | EmptyString => EmptyString
  | String c r => if is_space c then lstrip r else s
  end.

Fixpoint rstrip (s : string) : string :=
  match s with
  | EmptyString => EmptyString
  | String c r =>
      match rstrip r with
      | EmptyString => if is_space c then EmptyString else String c EmptyString
      | r' => String c r'
      end
  end.

(** [s.strip()] *)
Definition strip (s : string) : string := lstrip (rstrip s).

(** Truth value of a string: [bool(s)]. *)
Definition truthy (s : string) : bool :=
  match s with EmptyString => false | _ => true end.

(** [x or d] where [x] is [None] or a string. *)
Definition or_else (x : option string) (d : string) : string :=
  match x with
  | Some s => if truthy s then s else d
  | None => d
  end.

(** The character of a decimal digit [0..9]. *)
Definition digit_char (d : Z) : ascii := ascii_of_N (Z.to_N (48 + d)).

(** The value of an ASCII decimal digit. *)
Definition digit_val (c : ascii) : option Z :=
  let n := Z.of_N (N_of_ascii c) in
  if (48 <=? n) && (n <=? 57) then Some (n - 48) else None.

(** ["%0wd" % n] for [0 <= n < 10^w]: exactly [w] digits, most
    significant first. *)
Fixpoint zpad (w : nat) (n : Z) : string :=
  match w with
  | O => EmptyString
  | S w' => String (digit_char ((n / 10 ^ Z.of_nat w') mod 10)) (zpad w' n)
  end.

(** Reads exactly [w] decimal digits from the front of [s]. *)
Fixpoint read_digits (w : nat) (acc : Z) (s : string) : option (Z * string) :=
  match w with
  | O => Some (acc, s)
  | S w' =>
      match s with
      | EmptyString => None
      | String c r =>
          match digit_val c with
          | Some d => read_digits w' (10 * acc + d) r
          | None => None
          end
      end
  end.

(** [str(n)] for an integer. *)
Definition str_of_int (n : Z) : string := NilZero.string_of_int (Z.to_int n).

(** Position-wise split: [(s[:n], s[n:])]. *)
Fixpoint split_at (n : nat) (s : string) : string * string :=
  match n, s with
  | O, _ => (EmptyString, s)
  | S _, EmptyString => (EmptyString, EmptyString)
  | S n', String c r => let (a, b) := split_at n' r in (String c a, b)
  end.

(** Splits at the first character satisfying [p]:
    [Some (before, that character, after)]. *)
Fixpoint break_at (p : ascii -> bool) (s : string)
  : option (string * ascii * string) :=
  match s with
  | EmptyString => None
  | String c r =>
      if p c then Some (EmptyString, c, r)
      else match break_at p r with
           | Some (a, x, b) => Some (String c a, x, b)
           | None => None
           end
  end.

End PyStr.

(** ** Python results *)

Inductive exn : Type :=
| TypeError
| ValueError
| OverflowError
| AttributeError
| OperationalError.

Inductive result (A : Type) : Type :=
| Ok (a : A)
| Raise (e : exn).

Arguments Ok {A} a.
Arguments Raise {A} e.

(** ** The [datetime] module *)

Module PyDatetime.
Import PyStr.

(** An aware or naive [datetime].  [tzinfo] is the UTC offset of a
    fixed-offset [timezone] in microseconds, [None] for a naive value. *)
Record datetime : Type := mkdatetime {
  year : Z;
  month : Z;
  day : Z;
  hour : Z;
  minute : Z;
  second : Z;
  microsecond : Z;
  tzinfo : option Z
}.

Definition MAXORDINAL : Z := 3652059.
Definition US_PER_SECOND : Z := 1000000.
Definition US_PER_DAY : Z := 86400000000.

Definition DAYS_IN_MONTH : list Z :=
  [-1; 31; 28; 31; 30; 31; 30; 31; 31; 30; 31; 30; 31].

Definition DAYS_BEFORE_MONTH : list Z :=
  [-1; 0; 31; 59; 90; 120; 151; 181; 212; 243; 273; 304; 334].

Definition is_leap (y : Z) : bool :=
  (y mod 4 =? 0) && (negb (y mod 100 =? 0) || (y mod 400 =? 0)).

Definition days_before_year (y : Z) : Z :=
  let y := y - 1 in y * 365 + y / 4 - y / 100 + y / 400.

Definition days_in_month (y m : Z) : Z :=
  if (m =? 2) && is_leap y then 29 else nth (Z.to_nat m) DAYS_IN_MONTH 0.

Definition days_before_month (y m : Z) : Z :=
  nth (Z.to_nat m) DAYS_BEFORE_MONTH 0
  + (if (2 <? m) && is_leap y then 1 else 0).

Definition ymd2ord (y m d : Z) : Z :=
  days_before_year y + days_before_month y m + d.

Definition DI400Y : Z := Eval cbv in days_before_year 401.
Definition DI100Y : Z := Eval cbv in days_before_year 101.
Definition DI4Y : Z := Eval cbv in days_before_year 5.

(** [_ord2ymd]: the date of a proleptic Gregorian ordinal. *)
Definition ord2ymd (n : Z) : Z * Z * Z :=
  let n := n - 1 in
  let n400 := n / DI400Y in
  let n := n mod DI400Y in
  let y := n400 * 400 + 1 in
  let n100 := n / DI100Y in
  let n := n mod DI100Y in
  let n4 := n / DI4Y in
  let n := n mod DI4Y in
  let n1 := n / 365 in
  let n := n mod 365 in
  let y := y + n100 * 100 + n4 * 4 + n1 in
  if (n1 =? 4) || (n100 =? 4) then (y - 1, 12, 31)
  else
    let leapyear := (n1 =? 3) && (negb (n4 =? 24) || (n100 =? 3)) in
    let m := Z.shiftr (n + 50) 5 in
    let preceding :=
      nth (Z.to_nat m) DAYS_BEFORE_MONTH 0
      + (if (2 <? m) && leapyear then 1 else 0) in
    if n <? preceding then
      let m := m - 1 in
      let preceding :=
        preceding
        - (nth (Z.to_nat m) DAYS_IN_MONTH 0
           + (if (m =? 2) && leapyear then 1 else 0)) in
      (y, m, n - preceding + 1)
    else (y, m, n - preceding + 1).

(** The range checks of the [datetime] constructor
    ([_check_date_fields], [_check_time_fields]) and of [timezone]. *)
Definition check_date_fields (y m d : Z) : bool :=
  (1 <=? y) && (y <=? 9999) && (1 <=? m) && (m <=? 12)
  && (1 <=? d) && (d <=? days_in_month y m).

Definition check_time_fields (h mi s us : Z) : bool :=
  (0 <=? h) && (h <=? 23) && (0 <=? mi) && (mi <=? 59)
  && (0 <=? s) && (s <=? 59) && (0 <=? us) && (us <=? 999999).

Definition check_offset (tz : option Z) : bool :=
  match tz with
  | None => true
  | Some off => (- US_PER_DAY <? off) && (off <? US_PER_DAY)
  end.

Definition valid (d : datetime) : bool :=
  check_date_fields (year d) (month d) (day d)
  && check_time_fields (hour d) (minute d) (second d) (microsecond d)
  && check_offset (tzinfo d).

(** [datetime(y, m, d, h, mi, s, us, tz)]; [None] is the ValueError of
    an out-of-range field. *)
Definition new_datetime (y m d h mi s us : Z) (tz : option Z)
  : option datetime :=
  let r := mkdatetime y m d h mi s us tz in
  if valid r then Some r else None.

Definition toordinal (d : datetime) : Z := ymd2ord (year d) (month d) (day d).

(** Wall-clock microseconds since the start of ordinal day 0. *)
Definition naive_us (d : datetime) : Z :=
  (((toordinal d * 24 + hour d) * 60 + minute d) * 60 + second d)
  * US_PER_SECOND + microsecond d.

(** The instant of an aware value on the UTC time line. *)
Definition instant (d : datetime) : option Z :=
  match tzinfo d with
  | Some off => Some (naive_us d - off)
  | None => None
  end.

(** A [timedelta] is its length in microseconds. *)
Definition timedelta : Type := Z.

(** [timedelta(days=n)] *)
Definition timedelta_days (n : Z) : result timedelta :=
  if Z.abs n <=? 999999999 then Ok (n * US_PER_DAY) else Raise OverflowError.

(** [td.days] *)
Definition td_days (td : timedelta) : Z := td / US_PER_DAY.

(** [datetime.__add__] *)
Definition datetime_add (d : datetime) (td : timedelta) : result datetime :=
  let total := naive_us d + td in
  let days := total / US_PER_DAY in
  let rest := total mod US_PER_DAY in
  let secs := rest / US_PER_SECOND in
  let us := rest mod US_PER_SECOND in
  let h := secs / 3600 in
  let rem := secs mod 3600 in
  let mi := rem / 60 in
  let s := rem mod 60 in
  if (0 <? days) && (days <=? MAXORDINAL) then
    let '(y, m, dd) := ord2ymd days in
    Ok (mkdatetime y m dd h mi s us (tzinfo d))
  else Raise OverflowError.

(** [datetime.__sub__] on two datetimes. *)
Definition datetime_sub (a b : datetime) : result timedelta :=
  let base := naive_us a - naive_us b in
  match tzinfo a, tzinfo b with
  | None, None => Ok base
  | Some oa, Some ob => Ok (base + ob - oa)
  | _, _ => Raise TypeError
  end.

(** [dt.replace(tzinfo=timezone.utc)] *)
Definition replace_tzinfo_utc (d : datetime) : datetime :=
  mkdatetime (year d) (month d) (day d) (hour d) (minute d) (second d)
             (microsecond d) (Some 0).

(** [_format_time] with [timespec='auto']. *)
Definition format_time (h mi s us : Z) : string :=
  zpad 2 h ++ ":" ++ zpad 2 mi ++ ":" ++ zpad 2 s
  ++ (if us =? 0 then "" else "." ++ zpad 6 us).

(** [_format_offset] *)
Definition format_offset (tz : option Z) : string :=
  match tz with
  | None => ""
  | Some off =>
      let sign := if off <? 0 then "-" else "+" in
      let a := Z.abs off in
      let hh := a / (3600 * US_PER_SECOND) in
      let r := a mod (3600 * US_PER_SECOND) in
      let mm := r / (60 * US_PER_SECOND) in
      let ss := r mod (60 * US_PER_SECOND) in
      sign ++ zpad 2 hh ++ ":" ++ zpad 2 mm
      ++ (if ss =? 0 then ""
          else ":" ++ zpad 2 (ss / US_PER_SECOND)
               ++ (if ss mod US_PER_SECOND =? 0 then ""
                   else "." ++ zpad 6 (ss mod US_PER_SECOND)))
  end.

(** [dt.isoformat()] *)
Definition isoformat (d : datetime) : string :=
  zpad 4 (year d) ++ "-" ++ zpad 2 (month d) ++ "-" ++ zpad 2 (day d) ++ "T"
  ++ format_time (hour d) (minute d) (second d) (microsecond d)
  ++ format_offset (tzinfo d).

(** [_parse_isoformat_date]: [YYYY-MM-DD], exactly ten characters. *)
Definition parse_isoformat_date (s : string) : option (Z * Z * Z) :=
  match read_digits 4 0 s with
  | Some (y, String "-" r1) =>
      match read_digits 2 0 r1 with
      | Some (m, String "-" r2) =>
          match read_digits 2 0 r2 with
          | Some (d, EmptyString) => Some (y, m, d)
          | _ => None
          end
      | _ => None
      end
  | _ => None
  end.

(** The fraction [.fff] or [.ffffff] that ends a time. *)
Definition parse_fraction (s : string) : option Z :=
  match String.length s with
  | 3%nat =>
      match read_digits 3 0 s with
      | Some (f, _) => Some (f * 1000)
      | None => None
      end
  | 6%nat =>
      match read_digits 6 0 s with
      | Some (f, _) => Some f
      | None => None
      end
  | _ => None
  end.

(** [_parse_hh_mm_ss_ff]: [HH[:MM[:SS[.fff[fff]]]]]. *)
Definition parse_hh_mm_ss_ff (s : string) : option (Z * Z * Z * Z) :=
  match read_digits 2 0 s with
  | Some (h, EmptyString) => Some (h, 0, 0, 0)
  | Some (h, String ":" r1) =>
      match read_digits 2 0 r1 with
      | Some (mi, EmptyString) => Some (h, mi, 0, 0)
      | Some (mi, String ":" r2) =>
          match read_digits 2 0 r2 with
          | Some (sec, EmptyString) => Some (h, mi, sec, 0)
          | Some (sec, String "." r3) =>
              match parse_fraction r3 with
              | Some us => Some (h, mi, sec, us)
              | None => None
              end
          | _ => None
          end
      | _ => None
      end
  | _ => None
  end.

Definition is_sign (c : ascii) : bool :=
  Ascii.eqb c "+" || Ascii.eqb c "-".

(** [_parse_isoformat_time]: a time followed by an optional offset
    [+HH:MM[:SS[.ffffff]]].  An all-zero offset is [timezone.utc]. *)
Definition parse_isoformat_time (s : string)
  : option (Z * Z * Z * Z * option Z) :=
  match break_at is_sign s with
  | None =>
      match parse_hh_mm_ss_ff s with
      | Some (h, mi, sec, us) => Some (h, mi, sec, us, None)
      | None => None
      end
  | Some (timestr, sign, tzstr) =>
      match parse_hh_mm_ss_ff timestr with
      | None => None
      | Some (h, mi, sec, us) =>
          let n := String.length tzstr in
          if (Nat.eqb n 5 || Nat.eqb n 8 || Nat.eqb n 15)%bool then
            match parse_hh_mm_ss_ff tzstr with
            | None => None
            | Some (th, tm, ts, tus) =>
                let mag := (th * 3600 + tm * 60 + ts) * US_PER_SECOND + tus in
                let off := if Ascii.eqb sign "-" then - mag else mag in
                Some (h, mi, sec, us, Some off)
            end
          else None
      end
  end.

(** [datetime.fromisoformat]: the grammar
    [YYYY-MM-DD[*HH[:MM[:SS[.fff[fff]]]][+HH:MM[:SS[.ffffff]]]]], where [*]
    is any one character; [None] is the ValueError of a string outside
    the grammar or of a field out of range.  This is the grammar every
    Python version from 3.7 on accepts, and the one [isoformat] writes;
    what a later version accepts beyond it is rejected here. *)
Definition fromisoformat (s : string) : option datetime :=
  let (dstr, rest) := split_at 10 s in
  match parse_isoformat_date dstr with
  | None => None
  | Some (y, m, d) =>
      match rest with
      | EmptyString => new_datetime y m d 0 0 0 0 None
      | String _ tstr =>
          match parse_isoformat_time tstr with
          | None => None
          | Some (h, mi, sec, us, tz) => new_datetime y m d h mi sec us tz
          end
      end
  end.

End PyDatetime.

Definition bind {A B : Type} (r : result A) (k : A -> result B) : result B :=
  match r with
  | Ok a => k a
  | Raise e => Raise e
  end.

Notation "x <- r ;; k" := (bind r (fun x => k))
  (at level 61, r at next level, right associativity).

(** [try: x = body; k(x)  except Exception: handler] *)
Definition try_except {A B : Type} (body : result A) (k : A -> B)
  (handler : exn -> B) : B :=
  match body with
  | Ok a => k a
  | Raise e => handler e
  end.

(** ** The SQLite store *)

(** Table [plants].  The nullable TEXT columns are options; the handlers
    always bind an integer to [water_interval_days]. *)
Module Plants.
Record row : Type := mkrow {
  id : Z;
  name : string;
  species : option string;
  location : option string;
  water_interval_days : Z;
  notes : option string;
  created_at : string;
  updated_at : string
}.
End Plants.

(** Table [water_logs]. *)
Module WaterLogs.
Record row : Type := mkrow {
  id : Z;
  plant_id : Z;
  watered_at : string;
  note : string
}.
End WaterLogs.

(** The database: both tables in rowid order, and the AUTOINCREMENT
    counters of [sqlite_sequence] (the largest rowid ever handed out). *)
Record store : Type := mkstore {
  plants : list Plants.row;
  water_logs : list WaterLogs.row;
  plants_seq : Z;
  water_logs_seq : Z
}.

(** The store after [init_db] on a fresh file. *)
Definition empty_store : store := mkstore [] [] 0 0.

Module Sql.

(** ORDER BY: a stable sort for the order [le].  SQLite leaves the order
    of rows with equal keys open; no property below depends on it. *)
Section OrderBy.
Context {A : Type} (le : A -> A -> bool).

Fixpoint insert_row (x : A) (l : list A) : list A :=
  match l with
  | [] => [x]
  | y :: r => if le x y then x :: l else y :: insert_row x r
  end.

Fixpoint order_by (l : list A) : list A :=
  match l with
  | [] => []
  | x :: r => insert_row x (order_by r)
  end.
End OrderBy.

(** The BINARY collation on TEXT. *)
Definition text_le (a b : string) : bool := String.leb a b.

(** The NOCASE collation: the 26 upper case ASCII letters are folded to
    lower case before the comparison. *)
Definition fold_ascii (c : ascii) : ascii :=
  let n := N_of_ascii c in
  if ((65 <=? n) && (n <=? 90))%N then ascii_of_N (n + 32) else c.

Fixpoint fold_case (s : string) : string :=
  match s with
  | EmptyString => EmptyString
  | String c r => String (fold_ascii c) (fold_case r)
  end.

Definition nocase_le (a b : string) : bool :=
  String.leb (fold_case a) (fold_case b).

(** [SELECT * FROM plants WHERE id = ?] with [fetchone]. *)
Definition select_plant (db : store) (pid : Z) : option Plants.row :=
  find (fun r => Plants.id r =? pid) (plants db).

(** [SELECT * FROM water_logs WHERE plant_id = ?] *)
Definition logs_of (db : store) (pid : Z) : list WaterLogs.row :=
  filter (fun w => WaterLogs.plant_id w =? pid) (water_logs db).

(** [INSERT INTO plants (...)]: the new rowid is one past the counter. *)
Definition insert_plant (db : store)
  (name : string) (species location : option string) (interval : Z)
  (notes : option string) (created updated : string) : Z * store :=
  let pid := plants_seq db + 1 in
  (pid,
   mkstore
     (plants db ++ [Plants.mkrow pid name species location interval notes
                      created updated])%list
     (water_logs db) pid (water_logs_seq db)).

(** [UPDATE plants SET name=?,...,updated_at=? WHERE id=?] *)
Definition update_plant_row (db : store) (pid : Z)
  (name : string) (species location : option string) (interval : Z)
  (notes : option string) (updated : string) : store :=
  mkstore
    (map (fun r =>
            if Plants.id r =? pid
            then Plants.mkrow pid name species location interval notes
                   (Plants.created_at r) updated
            else r) (plants db))
    (water_logs db) (plants_seq db) (water_logs_seq db).

(** [DELETE FROM plants WHERE id = ?] *)
Definition delete_plants_where_id (db : store) (pid : Z) : store :=
  mkstore (filter (fun r => negb (Plants.id r =? pid)) (plants db))
    (water_logs db) (plants_seq db) (water_logs_seq db).

(** [DELETE FROM water_logs WHERE plant_id = ?] *)
Definition delete_logs_where_plant (db : store) (pid : Z) : store :=
  mkstore (plants db)
    (filter (fun w => negb (WaterLogs.plant_id w =? pid)) (water_logs db))
    (plants_seq db) (water_logs_seq db).

(** [INSERT INTO water_logs (plant_id,watered_at,note)] *)
Definition insert_log (db : store) (pid : Z) (watered_at note : string)
  : store :=
  let lid := water_logs_seq db + 1 in
  mkstore (plants db)
    (water_logs db ++ [WaterLogs.mkrow lid pid watered_at note])%list
    (plants_seq db) lid.

End Sql.

(** ** Date helpers of the application *)

Import PyStr PyDatetime.

(** [now_iso], for the clock reading [now]. *)
Definition now_iso (now : datetime) : string := isoformat now.

(** [parse_iso]: every exception of [fromisoformat] becomes [None]. *)
Definition parse_iso (s : string) : option datetime :=
  match fromisoformat s with
  | Some d => Some d
  | None => None
  end.

(** [human_delta], for the clock reading [now]. *)
Definition human_delta (now future_dt : datetime) : string :=
  try_except (datetime_sub future_dt now)
    (fun diff =>
       let days := td_days diff in
       if Z.abs days <? 1 then "today"
       else if 0 <? days then "in " ++ str_of_int days ++ "d"
       else str_of_int (Z.abs days) ++ "d ago")
    (fun _ => "").

(** [get_last_watered] *)
Definition get_last_watered (db : store) (plant_id : Z) : option string :=
  match
    Sql.order_by
      (fun a b => Sql.text_le (WaterLogs.watered_at b) (WaterLogs.watered_at a))
      (Sql.logs_of db plant_id)
  with
  | r :: _ => Some (WaterLogs.watered_at r)
  | [] => None
  end.

(** [compute_next_watering] *)
Definition compute_next_watering (db : store) (plant_row : Plants.row)
  : result (option string) :=
  let last_iso := get_last_watered db (Plants.id plant_row) in
  let last :=
    match last_iso with
    | Some s =>
        if truthy s then parse_iso s
        else parse_iso (Plants.created_at plant_row)
    | None => parse_iso (Plants.created_at plant_row)
    end in
  match last with
  | None => Ok None
  | Some last =>
      let interval :=
        if Plants.water_interval_days plant_row =? 0 then 7
        else Plants.water_interval_days plant_row in
      td <- timedelta_days interval ;;
      next_dt <- datetime_add last td ;;
      Ok (Some (isoformat next_dt))
  end.

(** ** Requests and responses *)

#[warnings="-register-all"]
Inductive json : Type :=
| JNull
| JBool (b : bool)
| JNum (n : Z)
| JStr (s : string)
| JList (l : list json)
| JDict (l : list (string * json)).

(** A plant as the dashboard holds it: the row as a dict, with
    [created_at] rewritten for display, and the computed fields. *)
Record dashboard_plant : Type := mkdashboard_plant {
  dp_row : Plants.row;
  dp_last_watered_display : option string;
  dp_next_watering : option string;
  dp_next_watering_dt : option datetime;
  dp_next_due_human : string
}.

(** The template context of the dashboard that depends on the store. *)
Record dashboard : Type := mkdashboard {
  ctx_plants : list dashboard_plant;
  ctx_total : nat;
  ctx_plant_count : nat;
  ctx_q : string;
  ctx_show : string
}.

Inductive response : Type :=
| Redirect (endpoint : string) (detail : option Z)
| Abort (status : Z)
| Jsonify (body : json) (status : Z)
| Render (page : dashboard).

(** The fields of the plant forms; [None] is a field that was not sent. *)
Record plant_form : Type := mkplant_form {
  form_name : option string;
  form_species : option string;
  form_location : option string;
  form_water_interval_days : option string;
  form_notes : option string
}.

(** A text member of a JSON body: absent, [null], or a string. *)
Inductive jfield : Type :=
| Absent
| Null
| Text (s : string).

(** The member [water_interval_days] of a JSON body. *)
Inductive jinterval : Type :=
| NoInterval
| IntervalText (s : string)
| IntervalNum (n : Z).

Record plant_json : Type := mkplant_json {
  json_name : jfield;
  json_species : jfield;
  json_location : jfield;
  json_water_interval_days : jinterval;
  json_notes : jfield
}.

(** [data.get(k)] *)
Definition jget (f : jfield) : option string :=
  match f with
  | Text s => Some s
  | _ => None
  end.

(** [data.get(k, default)] *)
Definition jget_default (f : jfield) (d : option string) : option string :=
  match f with
  | Absent => d
  | Null => None
  | Text s => Some s
  end.

Inductive method : Type := GET | POST | PUT | DELETE.

Definition json_of_text (x : option string) : json :=
  match x with
  | Some s => JStr s
  | None => JNull
  end.

(** [dict(row)] extended with the two computed members. *)
Definition plant_dict (r : Plants.row) (last next : option string) : json :=
  JDict [("id", JNum (Plants.id r));
         ("name", JStr (Plants.name r));
         ("species", json_of_text (Plants.species r));
         ("location", json_of_text (Plants.location r));
         ("water_interval_days", JNum (Plants.water_interval_days r));
         ("notes", json_of_text (Plants.notes r));
         ("created_at", JStr (Plants.created_at r));
         ("updated_at", JStr (Plants.updated_at r));
         ("last_watered", json_of_text last);
         ("next_watering", json_of_text next)].

(** [str.lower] on one character (code points below 256). *)
Definition lower_char (c : ascii) : ascii :=
  let n := N_of_ascii c in
  if (((65 <=? n) && (n <=? 90))
      || ((192 <=? n) && (n <=? 222) && negb (n =? 215)))%N
  then ascii_of_N (n + 32) else c.

Fixpoint lower (s : string) : string :=
  match s with
  | EmptyString => EmptyString
  | String c r => String (lower_char c) (lower r)
  end.

(** [a in b] on strings. *)
Fixpoint contains (a b : string) : bool :=
  if String.prefix a b then true
  else match b with
       | EmptyString => false
       | String _ r => contains a r
       end.

Fixpoint map_result {A B : Type} (f : A -> result B) (l : list A)
  : result (list B) :=
  match l with
  | [] => Ok []
  | x :: r => y <- f x ;; ys <- map_result f r ;; Ok (y :: ys)
  end.

Fixpoint filter_result {A : Type} (f : A -> result bool) (l : list A)
  : result (list A) :=
  match l with
  | [] => Ok []
  | x :: r =>
      b <- f x ;; ys <- filter_result f r ;; Ok (if b then x :: ys else ys)
  end.

(** [a > b] on datetimes. *)
Definition datetime_gt (a b : datetime) : result bool :=
  match tzinfo a, tzinfo b with
  | None, None => Ok (naive_us b <? naive_us a)
  | Some oa, Some ob => Ok (naive_us b - ob <? naive_us a - oa)
  | _, _ => Raise TypeError
  end.

(** ** Request handlers

    The handlers over the integers of [Z]: an identifier or an interval
    is any integer, as if SQLite held every one.  The binding of
    [sqlite3], the exhaustion of rowids and the methods of the routes
    are added in the part on the routes, whose handlers end as these do
    or change nothing. *)

Section Handlers.

(** [int(s)] on a string; [None] is its ValueError. *)
Variable py_int : string -> option Z.

(** [dt.astimezone().strftime(fmt)], which depends on the time zone and
    the locale of the host. *)
Variable strftime_local : string -> datetime -> result string.

(** The clock reading of the request. *)
Variable now : datetime.

(** [int(x or d)] followed by [max(1, _)], inside the handlers' [try]. *)
Definition form_interval (x : option string) : result Z :=
  match x with
  | Some s =>
      if truthy s then
        match py_int s with
        | Some n => Ok (Z.max 1 n)
        | None => Raise ValueError
        end
      else Ok (Z.max 1 7)
  | None => Ok (Z.max 1 7)
  end.

Definition json_interval (x : jinterval) (d : Z) : result Z :=
  match x with
  | IntervalText s =>
      if truthy s then
        match py_int s with
        | Some n => Ok (Z.max 1 n)
        | None => Raise ValueError
        end
      else Ok (Z.max 1 d)
  | IntervalNum n => if n =? 0 then Ok (Z.max 1 d) else Ok (Z.max 1 n)
  | NoInterval => Ok (Z.max 1 d)
  end.

(** [GET /]: the dashboard, without the detail panel; the result is the
    context handed to the template, whose own comparisons are not part
    of it. *)
Definition decorate (db : store) (r : Plants.row) : result dashboard_plant :=
  let last_iso := get_last_watered db (Plants.id r) in
  let last_dt :=
    match last_iso with
    | Some s => if truthy s then parse_iso s else None
    | None => None
    end in
  last_display <-
    match last_dt with
    | Some d => x <- strftime_local "%b %d, %Y %H:%M" d ;; Ok (Some x)
    | None => Ok None
    end ;;
  created <-
    (if truthy (Plants.created_at r) then
       match parse_iso (Plants.created_at r) with
       | Some d => strftime_local "%b %d, %Y" d
       | None => Raise AttributeError
       end
     else Ok "") ;;
  let p :=
    Plants.mkrow (Plants.id r) (Plants.name r) (Plants.species r)
      (Plants.location r) (Plants.water_interval_days r) (Plants.notes r)
      created (Plants.updated_at r) in
  next_iso <- compute_next_watering db p ;;
  let next_dt :=
    match next_iso with
    | Some s => if truthy s then parse_iso s else None
    | None => None
    end in
  let human :=
    match next_dt with
    | Some d => human_delta now d
    | None => ""
    end in
  Ok (mkdashboard_plant p last_display next_iso next_dt human).

Definition matches (q show : string) (p : dashboard_plant) : result bool :=
  let text_ok :=
    if truthy q then
      let ql := lower q in
      contains ql (lower (Plants.name (dp_row p)))
      || contains ql (lower (or_else (Plants.species (dp_row p)) ""))
      || contains ql (lower (or_else (Plants.location (dp_row p)) ""))
    else true in
  if negb text_ok then Ok false
  else if String.eqb show "due" then
    match dp_next_watering_dt p with
    | None => Ok false
    | Some d => late <- datetime_gt d now ;; Ok (negb late)
    end
  else Ok true.

Definition index (q_arg show_arg : option string) (db : store)
  : result response :=
  let q := strip (or_else q_arg "") in
  let show := or_else show_arg "all" in
  let rows :=
    Sql.order_by (fun a b => Sql.nocase_le (Plants.name a) (Plants.name b))
      (plants db) in
  all <- map_result (decorate db) rows ;;
  filtered <- filter_result (matches q show) all ;;
  Ok (Render (mkdashboard filtered (List.length all) (List.length filtered)
                q show)).

(** [POST /plants/create] *)
Definition create_plant (form : plant_form) (db : store) : response * store :=
  let name := strip (or_else (form_name form) "") in
  if negb (truthy name) then (Redirect "index" None, db)
  else
    let species := strip (or_else (form_species form) "") in
    let location := strip (or_else (form_location form) "") in
    let interval :=
      try_except (form_interval (form_water_interval_days form))
        (fun i => i) (fun _ => 7) in
    let notes := or_else (form_notes form) "" in
    let (_, db') :=
      Sql.insert_plant db name (Some species) (Some location) interval
        (Some notes) (now_iso now) (now_iso now) in
    (Redirect "index" None, db').

(** [POST /plants/<plant_id>/update] *)
Definition update_plant (plant_id : Z) (form : plant_form) (db : store)
  : response * store :=
  match Sql.select_plant db plant_id with
  | None => (Abort 404, db)
  | Some _ =>
      let name := strip (or_else (form_name form) "") in
      let species := strip (or_else (form_species form) "") in
      let location := strip (or_else (form_location form) "") in
      let interval :=
        try_except (form_interval (form_water_interval_days form))
          (fun i => i) (fun _ => 7) in
      let notes := or_else (form_notes form) "" in
      (Redirect "index" (Some plant_id),
       Sql.update_plant_row db plant_id name (Some species) (Some location)
         interval (Some notes) (now_iso now))
  end.

(** [POST /plants/<plant_id>/delete] *)
Definition delete_plant (plant_id : Z) (db : store) : response * store :=
  let db := Sql.delete_plants_where_id db plant_id in
  let db := Sql.delete_logs_where_plant db plant_id in
  (Redirect "index" None, db).

(** [POST /plants/<plant_id>/water] *)
Definition log_water (plant_id : Z) (form_watered_at form_note : option string)
  (db : store) : response * store :=
  match Sql.select_plant db plant_id with
  | None => (Abort 404, db)
  | Some _ =>
      let watered_at := or_else form_watered_at (now_iso now) in
      let note := or_else form_note "" in
      let watered_at :=
        try_except (Ok (parse_iso watered_at))
          (fun _ => watered_at) (fun _ => now_iso now) in
      (Redirect "index" (Some plant_id),
       Sql.insert_log db plant_id watered_at note)
  end.

(** [datetime.fromisoformat(x)] on a form value that may be missing. *)
Definition fromisoformat_arg (x : option string) : result datetime :=
  match x with
  | None => Raise TypeError
  | Some s =>
      match fromisoformat s with
      | Some d => Ok d
      | None => Raise ValueError
      end
  end.

(** [POST /plants/<plant_id>/water/date] *)
Definition log_water_backdate (plant_id : Z)
  (form_date form_note : option string) (db : store) : response * store :=
  match Sql.select_plant db plant_id with
  | None => (Abort 404, db)
  | Some _ =>
      let watered_at :=
        try_except (fromisoformat_arg form_date)
          (fun dt => isoformat (replace_tzinfo_utc dt))
          (fun _ => now_iso now) in
      let note := or_else form_note "backdated" in
      (Redirect "index" (Some plant_id),
       Sql.insert_log db plant_id watered_at note)
  end.

(** The rows of [GET /api/plants] before [jsonify]. *)
Definition api_plants_rows (db : store)
  : result (list (Plants.row * option string * option string)) :=
  let rows :=
    Sql.order_by (fun a b => Sql.text_le (Plants.name a) (Plants.name b))
      (plants db) in
  map_result
    (fun r =>
       let last := get_last_watered db (Plants.id r) in
       next <- compute_next_watering db r ;;
       Ok (r, last, next))
    rows.

(** [/api/plants], GET and POST *)
Definition api_plants (m : method) (data : plant_json) (db : store)
  : result (response * store) :=
  match m with
  | GET =>
      out <- api_plants_rows db ;;
      Ok (Jsonify
            (JList (map (fun '(r, last, next) => plant_dict r last next) out))
            200, db)
  | _ =>
      let name := strip (or_else (jget (json_name data)) "") in
      if negb (truthy name) then
        Ok (Jsonify (JDict [("error", JStr "name required")]) 400, db)
      else
        let species := jget (json_species data) in
        let location := jget (json_location data) in
        let interval :=
          try_except (json_interval (json_water_interval_days data) 7)
            (fun i => i) (fun _ => 7) in
        let notes := or_else (jget (json_notes data)) "" in
        let (pid, db') :=
          Sql.insert_plant db name species location interval (Some notes)
            (now_iso now) (now_iso now) in
        Ok (Jsonify (JDict [("id", JNum pid)]) 201, db')
  end.

(** [/api/plants/<plant_id>], GET, PUT and DELETE *)
Definition api_plant (m : method) (plant_id : Z) (data : plant_json)
  (db : store) : result (response * store) :=
  match Sql.select_plant db plant_id with
  | None => Ok (Jsonify (JDict [("error", JStr "not found")]) 404, db)
  | Some row =>
      match m with
      | GET =>
          let last := get_last_watered db plant_id in
          next <- compute_next_watering db row ;;
          Ok (Jsonify (plant_dict row last next) 200, db)
      | DELETE =>
          let db := Sql.delete_plants_where_id db plant_id in
          let db := Sql.delete_logs_where_plant db plant_id in
          Ok (Jsonify (JDict [("ok", JBool true)]) 200, db)
      | _ =>
          let name :=
            strip (or_else (jget (json_name data)) (Plants.name row)) in
          let species := jget_default (json_species data) (Plants.species row) in
          let location :=
            jget_default (json_location data) (Plants.location row) in
          let interval :=
            try_except
              (json_interval (json_water_interval_days data)
                 (Plants.water_interval_days row))
              (fun i => i) (fun _ => Plants.water_interval_days row) in
          let notes := jget_default (json_notes data) (Plants.notes row) in
          Ok (Jsonify (JDict [("ok", JBool true)]) 200,
              Sql.update_plant_row db plant_id name species location interval
                notes (now_iso now))
      end
  end.

(** [POST /api/plants/<plant_id>/water] *)
Definition api_log_water (plant_id : Z)
  (payload_watered_at payload_note : option string) (db : store)
  : response * store :=
  match Sql.select_plant db plant_id with
  | None => (Jsonify (JDict [("error", JStr "not found")]) 404, db)
  | Some _ =>
      let watered_at := or_else payload_watered_at (now_iso now) in
      let note := or_else payload_note "" in
      let watered_at :=
        try_except (Ok (parse_iso watered_at))
          (fun _ => watered_at) (fun _ => now_iso now) in
      (Jsonify (JDict [("ok", JBool true)]) 200,
       Sql.insert_log db plant_id watered_at note)
  end.

(** [POST /api/clear] *)
Definition api_clear (db : store) : response * store :=
  let deleted_logs := Z.of_nat (List.length (water_logs db)) in
  let deleted_plants := Z.of_nat (List.length (plants db)) in
  (Jsonify (JDict [("status", JStr "ok");
                   ("deleted_plants", JNum deleted_plants);
                   ("deleted_logs", JNum deleted_logs)]) 200,
   mkstore [] [] (plants_seq db) (water_logs_seq db)).

End Handlers.

(** ** Page handlers that only read, and the CSV export *)

(** [GET /plants/<plant_id>] *)
Definition view_plant (plant_id : Z) (db : store) : response :=
  match Sql.select_plant db plant_id with
  | None => Abort 404
  | Some _ => Redirect "index" (Some plant_id)
  end.

(** What [edit_plant] answers: a not-found abort, or the edit page
    rendered from the dict [p]. *)
Inductive edit_response : Type :=
| EditAbort (status : Z)
| EditPage (p : Plants.row).

(** [GET /plants/<plant_id>/edit] *)
Definition edit_plant (strftime_local : string -> datetime -> result string)
  (plant_id : Z) (db : store) : result edit_response :=
  match Sql.select_plant db plant_id with
  | None => Ok (EditAbort 404)
  | Some row =>
      created <-
        match parse_iso (Plants.created_at row) with
        | Some d => strftime_local "%b %d, %Y %H:%M" d
        | None => Raise AttributeError
        end ;;
      Ok (EditPage
            (Plants.mkrow (Plants.id row) (Plants.name row)
               (Plants.species row) (Plants.location row)
               (Plants.water_interval_days row) (Plants.notes row)
               created (Plants.updated_at row)))
  end.

(** A value handed to [csv.writer]: an integer, a string, or [None]
    (written as the empty field). *)
Inductive cell : Type :=
| CellInt (n : Z)
| CellText (s : string)
| CellNone.

Definition cell_of_text (x : option string) : cell :=
  match x with
  | Some s => CellText s
  | None => CellNone
  end.

Definition CSV_HEADER : list cell :=
  map CellText
    ["id"; "name"; "species"; "location"; "water_interval_days";
     "created_at"; "updated_at"; "last_watered"; "next_watering"].

(** [GET /export.csv]: the rows written with [writer.writerow], the
    header first. *)
Definition export_csv (db : store) : result (list (list cell)) :=
  let rows :=
    Sql.order_by (fun a b => Sql.text_le (Plants.name a) (Plants.name b))
      (plants db) in
  lines <-
    map_result
      (fun p =>
         let last_iso := get_last_watered db (Plants.id p) in
         next_iso <- compute_next_watering db p ;;
         Ok [CellInt (Plants.id p); CellText (Plants.name p);
             cell_of_text (Plants.species p);
             cell_of_text (Plants.location p);
             CellInt (Plants.water_interval_days p);
             CellText (Plants.created_at p); CellText (Plants.updated_at p);
             CellText (or_else last_iso ""); CellText (or_else next_iso "")])
      rows ;;
  Ok (CSV_HEADER :: lines).

(** ** Stores reached through the handlers *)

(** A clock reading: a valid datetime carrying [timezone.utc]. *)
Definition utc_clock (now : datetime) : Prop :=
  valid now = true /\ tzinfo now = Some 0.

(** The requests that can change the store. *)
Inductive request : Type :=
| ReqCreatePlant (form : plant_form)
| ReqUpdatePlant (plant_id : Z) (form : plant_form)
| ReqDeletePlant (plant_id : Z)
| ReqLogWater (plant_id : Z) (watered_at note : option string)
| ReqLogWaterBackdate (plant_id : Z) (date note : option string)
| ReqApiPlants (m : method) (data : plant_json)
| ReqApiPlant (m : method) (plant_id : Z) (data : plant_json)
| ReqApiLogWater (plant_id : Z) (watered_at note : option string)
| ReqApiClear.

(** The store a handler commits; a request that raises commits nothing. *)
Definition committed (r : result (response * store)) (db : store) : store :=
  match r with
  | Ok (_, db') => db'
  | Raise _ => db
  end.

Definition serve (py_int : string -> option Z) (now : datetime)
  (req : request) (db : store) : store :=
  match req with
  | ReqCreatePlant form => snd (create_plant py_int now form db)
  | ReqUpdatePlant pid form => snd (update_plant py_int now pid form db)
  | ReqDeletePlant pid => snd (delete_plant pid db)
  | ReqLogWater pid w n => snd (log_water now pid w n db)
  | ReqLogWaterBackdate pid d n => snd (log_water_backdate now pid d n db)
  | ReqApiPlants m data => committed (api_plants py_int now m data db) db
  | ReqApiPlant m pid data => committed (api_plant py_int now m pid data db) db
  | ReqApiLogWater pid w n => snd (api_log_water now pid w n db)
  | ReqApiClear => snd (api_clear db)
  end.

Inductive reachable (py_int : string -> option Z) : store -> Prop :=
| reach_empty : reachable py_int empty_store
| reach_serve (db : store) (now : datetime) (req : request) :
    reachable py_int db -> utc_clock now ->
    reachable py_int (serve py_int now req db).

(** ** Notions of the specification *)

(** The stored timestamps of a plant's watering events. *)
Definition event_texts (db : store) (plant_id : Z) : list string :=
  map WaterLogs.watered_at (Sql.logs_of db plant_id).

(** The instant a stored timestamp denotes, when it denotes one. *)
Definition instant_of_text (s : string) : option Z :=
  match parse_iso s with
  | Some d => instant d
  | None => None
  end.

(** [s] is an event of the plant that no event of the plant is later than. *)
Definition most_recent_event (db : store) (plant_id : Z) (s : string) : Prop :=
  In s (event_texts db plant_id)
  /\ exists t, instant_of_text s = Some t
     /\ forall e, In e (event_texts db plant_id) ->
          exists u, instant_of_text e = Some u /\ u <= t.

(** [s] is an event of the plant that is greatest in text order. *)
Definition greatest_event_text (db : store) (plant_id : Z) (s : string)
  : Prop :=
  In s (event_texts db plant_id)
  /\ forall e, In e (event_texts db plant_id) -> String.leb e s = true.

(** The uniform representation: the text [isoformat] writes for a value
    that carries [timezone.utc]. *)
Definition uniform_utc_text (s : string) : Prop :=
  exists d, parse_iso s = Some d /\ tzinfo d = Some 0 /\ isoformat d = s.

(** The timestamp [s] moved forward by [n] days: absent when [s] does not
    parse. *)
Definition plus_days (s : string) (n : Z) : result (option string) :=
  match parse_iso s with
  | None => Ok None
  | Some d =>
      td <- timedelta_days n ;;
      next_dt <- datetime_add d td ;;
      Ok (Some (isoformat next_dt))
  end.

(** What an HTML date input submits for a calendar date. *)
Definition date_text (y m d : Z) : string :=
  zpad 4 y ++ "-" ++ zpad 2 m ++ "-" ++ zpad 2 d.

(** The instant at UTC midnight of a calendar date. *)
Definition utc_midnight (y m d : Z) : datetime :=
  mkdatetime y m d 0 0 0 0 (Some 0).

(** ** Instances used by the examples *)

(** [int(s)] on a plain decimal numeral, digits after an optional minus
    sign.  The other spellings that [int] reads (a plus sign, white
    space around the numeral, underscores between digits) are [None]
    here; the handlers take [int] as a parameter, and no example uses
    such a spelling. *)
Definition int_of_numeral (s : string) : option Z :=
  match s with
  | EmptyString => None
  | _ => option_map Z.of_int (NilZero.int_of_string s)
  end.

Definition MONTH_ABBR : list string :=
  [""; "Jan"; "Feb"; "Mar"; "Apr"; "May"; "Jun";
   "Jul"; "Aug"; "Sep"; "Oct"; "Nov"; "Dec"].

(** [dt.astimezone().strftime(fmt)] on a host whose zone is UTC and whose
    locale is C, for the two formats of the dashboard and a year of four
    digits.  The handlers take the function as a parameter. *)
Definition strftime_utc_host (fmt : string) (d : datetime) : result string :=
  local <-
    match tzinfo d with
    | None => Ok d
    | Some off => datetime_add (replace_tzinfo_utc d) (- off)
    end ;;
  let date :=
    nth (Z.to_nat (month local)) MONTH_ABBR "" ++ " " ++ zpad 2 (day local)
    ++ ", " ++ zpad 4 (year local) in
  if String.eqb fmt "%b %d, %Y" then Ok date
  else Ok (date ++ " " ++ zpad 2 (hour local) ++ ":" ++ zpad 2 (minute local)).

(** A clock reading: 2024-01-01 09:00 UTC. *)
Definition clock0 : datetime := mkdatetime 2024 1 1 9 0 0 0 (Some 0).

Definition form_named (name : string) : plant_form :=
  mkplant_form (Some name) None None None None.

Definition json_named (name : string) : plant_json :=
  mkplant_json (Text name) Absent Absent NoInterval Absent.

(** The store after a plant named Fern is created at [clock0]. *)
Definition fern_store : store :=
  serve int_of_numeral clock0 (ReqCreatePlant (form_named "Fern")) empty_store.

(** The store after two plants, apple and Banana, are created. *)
Definition fruit_store : store :=
  serve int_of_numeral clock0 (ReqCreatePlant (form_named "Banana"))
    (serve int_of_numeral clock0 (ReqCreatePlant (form_named "apple"))
       empty_store).

(** The row of the plant Fern. *)
Definition fern_row : Plants.row :=
  Plants.mkrow 1 "Fern" (Some "") (Some "") 7 (Some "")
    "2024-01-01T09:00:00+00:00" "2024-01-01T09:00:00+00:00".

(** The store after the plant Fern was watered twice, with timestamps
    sent by the client in two UTC offsets: midnight UTC of 5 January,
    then 23:00 of 4 January at offset -05:00, four hours later. *)
Definition mixed_store : store :=
  serve int_of_numeral clock0
    (ReqLogWater 1 (Some "2024-01-04T23:00:00-05:00") None)
    (serve int_of_numeral clock0
       (ReqLogWater 1 (Some "2024-01-05T00:00:00+00:00") None) fern_store).

(** The store after the plant Fern was watered at [clock0] and a watering
    was backdated to 24 December 2023. *)
Definition watered_store : store :=
  serve int_of_numeral clock0
    (ReqLogWaterBackdate 1 (Some "2023-12-24") None)
    (serve int_of_numeral clock0 (ReqLogWater 1 None None) fern_store).

(** The names of a list of the API, in its order. *)
Definition row_names (l : list (Plants.row * option string * option string))
  : list string :=
  map (fun x => Plants.name (fst (fst x))) l.

(** The names of the plants of a rendered dashboard, in its order. *)
Definition dashboard_names (r : result response) : list string :=
  match r with
  | Ok (Render page) => map (fun p => Plants.name (dp_row p)) (ctx_plants page)
  | _ => []
  end.

(** ** Auxiliary notions of the proofs *)

(** Every watering event belongs to a plant of the store, every interval
    is at least one day, and no event has an empty timestamp. *)
Record store_inv (db : store) : Prop := mkstore_inv {
  inv_owner : forall w, In w (water_logs db) ->
    exists r, In r (plants db) /\ Plants.id r = WaterLogs.plant_id w;
  inv_interval : forall r, In r (plants db) ->
    1 <= Plants.water_interval_days r;
  inv_timestamp : forall w, In w (water_logs db) ->
    WaterLogs.watered_at w <> ""
}.

(** Every creation timestamp is in the uniform representation. *)
Definition created_uniform (db : store) : Prop :=
  forall r, In r (plants db) -> uniform_utc_text (Plants.created_at r).

(** The order of [get_last_watered]: [watered_at] descending. *)
Definition by_watered_at_desc (a b : WaterLogs.row) : bool :=
  Sql.text_le (WaterLogs.watered_at b) (WaterLogs.watered_at a).

(** The first row is below every row. *)
Definition first_is_least {A : Type} (le : A -> A -> bool) (l : list A)
  : Prop :=
  match l with
  | [] => True
  | h :: _ => forall y, In y l -> le h y = true
  end.

(** Lexicographic combination of two comparisons. *)
Definition lexc (c1 c2 : comparison) : comparison :=
  match c1 with
  | Eq => c2
  | _ => c1
  end.

(** The comparison of two datetimes field by field, year first. *)
Definition fields_compare (d1 d2 : datetime) : comparison :=
  lexc (year d1 ?= year d2)
    (lexc (month d1 ?= month d2)
       (lexc (day d1 ?= day d2)
          (lexc (hour d1 ?= hour d2)
             (lexc (minute d1 ?= minute d2)
                (lexc (second d1 ?= second d2)
                   (microsecond d1 ?= microsecond d2)))))).

(** The fraction of [_format_time]: empty for a whole second. *)
Definition fraction_text (us : Z) : string :=
  if us =? 0 then "" else "." ++ zpad 6 us.

(** The time of day as [isoformat] writes it, without the offset. *)
Definition clock_text (d : datetime) : string :=
  zpad 2 (hour d) ++ ":" ++ zpad 2 (minute d) ++ ":" ++ zpad 2 (second d)
  ++ fraction_text (microsecond d).

(** No character of the text is a sign. *)
Fixpoint no_sign (s : string) : bool :=
  match s with
  | EmptyString => true
  | String c r => negb (is_sign c) && no_sign r
  end.

(** The extra day of a leap year. *)
Definition leap_day (y : Z) : Z := if is_leap y then 1 else 0.

(** The second half of [ord2ymd]: month and day of the [n]-th day of a
    year, counted from 0. *)
Definition month_day (leapyear : bool) (n : Z) : Z * Z :=
  let m := Z.shiftr (n + 50) 5 in
  let preceding :=
    nth (Z.to_nat m) DAYS_BEFORE_MONTH 0
    + (if (2 <? m) && leapyear then 1 else 0) in
  if n <? preceding then
    let m := m - 1 in
    let preceding :=
      preceding
      - (nth (Z.to_nat m) DAYS_IN_MONTH 0
         + (if (m =? 2) && leapyear then 1 else 0)) in
    (m, n - preceding + 1)
  else (m, n - preceding + 1).

(** [month_day] yields a date of the year that is [n] days after
    1 January. *)
Definition month_day_ok (leapyear : bool) (n : Z) : bool :=
  let (m, d) := month_day leapyear n in
  (1 <=? m) && (m <=? 12) && (1 <=? d)
  && (d <=? (if (m =? 2) && leapyear then 29
             else nth (Z.to_nat m) DAYS_IN_MONTH 0))
  && (nth (Z.to_nat m) DAYS_BEFORE_MONTH 0
      + (if (2 <? m) && leapyear then 1 else 0) + d =? n + 1).

(** ** Further notions *)

(** The rows of both tables are in strictly increasing order of their
    rowids, which lie between 1 and the AUTOINCREMENT counters. *)
Record ids_inv (db : store) : Prop := mkids_inv {
  ids_plants_sorted :
    StronglySorted (fun a b => Plants.id a < Plants.id b) (plants db);
  ids_plants_bound :
    forall r, In r (plants db) -> 1 <= Plants.id r <= plants_seq db;
  ids_logs_sorted :
    StronglySorted (fun a b => WaterLogs.id a < WaterLogs.id b) (water_logs db);
  ids_logs_bound :
    forall w, In w (water_logs db) -> 1 <= WaterLogs.id w <= water_logs_seq db;
  ids_counters : 0 <= plants_seq db /\ 0 <= water_logs_seq db
}.

(** The request deletes the events of the plant [pid]. *)
Definition removes_events_of (req : request) (pid : Z) : Prop :=
  match req with
  | ReqDeletePlant p => p = pid
  | ReqApiPlant DELETE p _ => p = pid
  | ReqApiClear => True
  | _ => False
  end.

(** The request carries no timestamp of its own for a log-now handler. *)
Definition server_stamped (req : request) : Prop :=
  match req with
  | ReqLogWater _ w _ => or_else w "" = ""
  | ReqApiLogWater _ w _ => or_else w "" = ""
  | _ => True
  end.

(** The stores reached through requests that leave the timestamp of a
    watering to the server. *)
Inductive reachable_stamped (py_int : string -> option Z) : store -> Prop :=
| stamped_empty : reachable_stamped py_int empty_store
| stamped_serve (db : store) (now : datetime) (req : request) :
    reachable_stamped py_int db -> utc_clock now -> server_stamped req ->
    reachable_stamped py_int (serve py_int now req db).

(** The line of the CSV export for an entry of the API list. *)
Definition csv_line (x : Plants.row * option string * option string)
  : list cell :=
  let '(p, last, next) := x in
  [CellInt (Plants.id p); CellText (Plants.name p);
   cell_of_text (Plants.species p); cell_of_text (Plants.location p);
   CellInt (Plants.water_interval_days p);
   CellText (Plants.created_at p); CellText (Plants.updated_at p);
   CellText (or_else last ""); CellText (or_else next "")].

(** The row a create handler inserts. *)
Definition inserted_row (db : store) (now : datetime) (r : Plants.row)
  : Prop :=
  exists text species location interval notes,
    r = Plants.mkrow (plants_seq db + 1) (strip text) species location
          interval notes (now_iso now) (now_iso now)
    /\ strip text <> "" /\ 1 <= interval.

(** A row an update handler rewrote. *)
Definition rewritten_row (db : store) (now : datetime) (r : Plants.row)
  : Prop :=
  exists r0 text species location interval notes,
    In r0 (plants db)
    /\ r = Plants.mkrow (Plants.id r0) (strip text) species location
             interval notes (Plants.created_at r0) (now_iso now)
    /\ (1 <= interval
        \/ exists r1, In r1 (plants db)
                      /\ interval = Plants.water_interval_days r1).

(** The dict of a dashboard entry: the row with [created_at] replaced by
    its display text. *)
Definition displayed_row (r : Plants.row) (created : string) : Plants.row :=
  Plants.mkrow (Plants.id r) (Plants.name r) (Plants.species r)
    (Plants.location r) (Plants.water_interval_days r) (Plants.notes r)
    created (Plants.updated_at r).

(** The value [parse_iso(x) if x else None] of the dashboard. *)
Definition parse_if_set (x : option string) : option datetime :=
  match x with
  | Some s => if truthy s then parse_iso s else None
  | None => None
  end.

(** The store after the plant Fern was watered with a timestamp sent
    without a UTC offset. *)
Definition naive_store : store :=
  serve int_of_numeral clock0
    (ReqLogWater 1 (Some "2024-01-05T00:00:00") None) fern_store.

(** The store after a plant is created through the API with an interval
    of three million days. *)
Definition oak_store : store :=
  serve int_of_numeral clock0
    (ReqApiPlants POST
       (mkplant_json (Text "Oak") Absent Absent (IntervalNum 3000000) Absent))
    empty_store.

(** * The handlers behind their routes

    The handlers above compute with the integers of [Z].  Between a
    request and the tables the program passes three checks that they
    leave out, and that the definitions of this part add, each at the
    place of the statement that makes it:
    - [sqlite3] passes a Python [int] parameter to SQLite as a 64-bit
      signed integer, and raises OverflowError when it does not fit;
    - a table declared AUTOINCREMENT refuses a new row once the largest
      rowid has been used (SQLITE_FULL), which [sqlite3] raises as
      OperationalError;
    - Flask answers 405 to a method that the route does not list, as
      [abort(405)] does, without calling the handler.
    The converter [<int:plant_id>] of the routes reads any string of
    decimal digits, so an identifier is any natural number. *)

Definition INT64_MAX : Z := 9223372036854775807.
Definition INT64_MIN : Z := -9223372036854775808.

Definition fits_int64 (n : Z) : bool := (INT64_MIN <=? n) && (n <=? INT64_MAX).

(** ** Statements with their parameters bound *)

Module Sqlite3.

(** The binding of a Python [int]. *)
Definition bind_int (n : Z) : result Z :=
  if fits_int64 n then Ok n else Raise OverflowError.

(** The rowid that an AUTOINCREMENT table whose largest rowid so far is
    [seq] gives its next row. *)
Definition next_rowid (seq : Z) : result Z :=
  if seq <? INT64_MAX then Ok (seq + 1) else Raise OperationalError.

(** [SELECT * FROM plants WHERE id = ?] with [fetchone] *)
Definition select_plant (db : store) (plant_id : Z)
  : result (option Plants.row) :=
  pid <- bind_int plant_id ;;
  Ok (Sql.select_plant db pid).

(** [INSERT INTO plants (...) VALUES (?,?,?,?,?,?,?)]: the parameters are
    bound before the statement runs. *)
Definition insert_plant (db : store) (name : string)
  (species location : option string) (interval : Z) (notes : option string)
  (created_at updated_at : string) : result (Z * store) :=
  interval <- bind_int interval ;;
  _ <- next_rowid (plants_seq db) ;;
  Ok (Sql.insert_plant db name species location interval notes created_at
        updated_at).

(** [UPDATE plants SET ... WHERE id=?] *)
Definition update_plant_row (db : store) (plant_id : Z) (name : string)
  (species location : option string) (interval : Z) (notes : option string)
  (updated_at : string) : result store :=
  interval <- bind_int interval ;;
  pid <- bind_int plant_id ;;
  Ok (Sql.update_plant_row db pid name species location interval notes
        updated_at).

(** [DELETE FROM plants WHERE id = ?] *)
Definition delete_plants_where_id (db : store) (plant_id : Z) : result store :=
  pid <- bind_int plant_id ;;
  Ok (Sql.delete_plants_where_id db pid).

(** [DELETE FROM water_logs WHERE plant_id = ?] *)
Definition delete_logs_where_plant (db : store) (plant_id : Z)
  : result store :=
  pid <- bind_int plant_id ;;
  Ok (Sql.delete_logs_where_plant db pid).

(** [INSERT INTO water_logs (plant_id,watered_at,note) VALUES (?,?,?)] *)
Definition insert_log (db : store) (plant_id : Z) (watered_at note : string)
  : result store :=
  pid <- bind_int plant_id ;;
  _ <- next_rowid (water_logs_seq db) ;;
  Ok (Sql.insert_log db pid watered_at note).

End Sqlite3.

(** ** The handlers with the three checks *)

Module Route.

Section Handlers.

Variable py_int : string -> option Z.
Variable strftime_local : string -> datetime -> result string.
Variable now : datetime.

(** [POST /plants/create] *)
Definition create_plant (form : plant_form) (db : store)
  : result (response * store) :=
  let name := strip (or_else (form_name form) "") in
  if negb (truthy name) then Ok (Redirect "index" None, db)
  else
    let species := strip (or_else (form_species form) "") in
    let location := strip (or_else (form_location form) "") in
    let interval :=
      try_except (form_interval py_int (form_water_interval_days form))
        (fun i => i) (fun _ => 7) in
    let notes := or_else (form_notes form) "" in
    r <- Sqlite3.insert_plant db name (Some species) (Some location) interval
           (Some notes) (now_iso now) (now_iso now) ;;
    Ok (Redirect "index" None, snd r).

(** [GET /plants/<plant_id>] *)
Definition view_plant (plant_id : Z) (db : store) : result response :=
  row <- Sqlite3.select_plant db plant_id ;;
  match row with
  | None => Ok (Abort 404)
  | Some _ => Ok (Redirect "index" (Some plant_id))
  end.

(** [GET /plants/<plant_id>/edit] *)
Definition edit_plant (plant_id : Z) (db : store) : result edit_response :=
  row <- Sqlite3.select_plant db plant_id ;;
  match row with
  | None => Ok (EditAbort 404)
  | Some row =>
      created <-
        match parse_iso (Plants.created_at row) with
        | Some d => strftime_local "%b %d, %Y %H:%M" d
        | None => Raise AttributeError
        end ;;
      Ok (EditPage (displayed_row row created))
  end.

(** [POST /plants/<plant_id>/update] *)
Definition update_plant (plant_id : Z) (form : plant_form) (db : store)
  : result (response * store) :=
  row <- Sqlite3.select_plant db plant_id ;;
  match row with
  | None => Ok (Abort 404, db)
  | Some _ =>
      let name := strip (or_else (form_name form) "") in
      let species := strip (or_else (form_species form) "") in
      let location := strip (or_else (form_location form) "") in
      let interval :=
        try_except (form_interval py_int (form_water_interval_days form))
          (fun i => i) (fun _ => 7) in
      let notes := or_else (form_notes form) "" in
      db' <- Sqlite3.update_plant_row db plant_id name (Some species)
               (Some location) interval (Some notes) (now_iso now) ;;
      Ok (Redirect "index" (Some plant_id), db')
  end.

(** [POST /plants/<plant_id>/delete] *)
Definition delete_plant (plant_id : Z) (db : store)
  : result (response * store) :=
  db <- Sqlite3.delete_plants_where_id db plant_id ;;
  db <- Sqlite3.delete_logs_where_plant db plant_id ;;
  Ok (Redirect "index" None, db).

(** [POST /plants/<plant_id>/water] *)
Definition log_water (plant_id : Z) (form_watered_at form_note : option string)
  (db : store) : result (response * store) :=
  row <- Sqlite3.select_plant db plant_id ;;
  match row with
  | None => Ok (Abort 404, db)
  | Some _ =>
      let watered_at := or_else form_watered_at (now_iso now) in
      let note := or_else form_note "" in
      let watered_at :=
        try_except (Ok (parse_iso watered_at))
          (fun _ => watered_at) (fun _ => now_iso now) in
      db' <- Sqlite3.insert_log db plant_id watered_at note ;;
      Ok (Redirect "index" (Some plant_id), db')
  end.

(** [POST /plants/<plant_id>/water/date] *)
Definition log_water_backdate (plant_id : Z)
  (form_date form_note : option string) (db : store)
  : result (response * store) :=
  row <- Sqlite3.select_plant db plant_id ;;
  match row with
  | None => Ok (Abort 404, db)
  | Some _ =>
      let watered_at :=
        try_except (fromisoformat_arg form_date)
          (fun dt => isoformat (replace_tzinfo_utc dt))
          (fun _ => now_iso now) in
      let note := or_else form_note "backdated" in
      db' <- Sqlite3.insert_log db plant_id watered_at note ;;
      Ok (Redirect "index" (Some plant_id), db')
  end.

(** [/api/plants], [methods=["GET", "POST"]].  The identifiers that the
    list passes to [get_last_watered] are read from the table. *)
Definition api_plants (m : method) (data : plant_json) (db : store)
  : result (response * store) :=
  match m with
  | GET =>
      out <- api_plants_rows db ;;
      Ok (Jsonify
            (JList (map (fun '(r, last, next) => plant_dict r last next) out))
            200, db)
  | POST =>
      let name := strip (or_else (jget (json_name data)) "") in
      if negb (truthy name) then
        Ok (Jsonify (JDict [("error", JStr "name required")]) 400, db)
      else
        let species := jget (json_species data) in
        let location := jget (json_location data) in
        let interval :=
          try_except (json_interval py_int (json_water_interval_days data) 7)
            (fun i => i) (fun _ => 7) in
        let notes := or_else (jget (json_notes data)) "" in
        r <- Sqlite3.insert_plant db name species location interval
               (Some notes) (now_iso now) (now_iso now) ;;
        Ok (Jsonify (JDict [("id", JNum (fst r))]) 201, snd r)
  | _ => Ok (Abort 405, db)
  end.

(** [/api/plants/<plant_id>], [methods=["GET", "PUT", "DELETE"]] *)
Definition api_plant (m : method) (plant_id : Z) (data : plant_json)
  (db : store) : result (response * store) :=
  match m with
  | POST => Ok (Abort 405, db)
  | _ =>
      row <- Sqlite3.select_plant db plant_id ;;
      match row with
      | None => Ok (Jsonify (JDict [("error", JStr "not found")]) 404, db)
      | Some row =>
          match m with
          | GET =>
              let last := get_last_watered db plant_id in
              next <- compute_next_watering db row ;;
              Ok (Jsonify (plant_dict row last next) 200, db)
          | DELETE =>
              db <- Sqlite3.delete_plants_where_id db plant_id ;;
              db <- Sqlite3.delete_logs_where_plant db plant_id ;;
              Ok (Jsonify (JDict [("ok", JBool true)]) 200, db)
          | _ =>
              let name :=
                strip (or_else (jget (json_name data)) (Plants.name row)) in
              let species :=
                jget_default (json_species data) (Plants.species row) in
              let location :=
                jget_default (json_location data) (Plants.location row) in
              let interval :=
                try_except
                  (json_interval py_int (json_water_interval_days data)
                     (Plants.water_interval_days row))
                  (fun i => i) (fun _ => Plants.water_interval_days row) in
              let notes := jget_default (json_notes data) (Plants.notes row) in
              db' <- Sqlite3.update_plant_row db plant_id name species
                       location interval notes (now_iso now) ;;
              Ok (Jsonify (JDict [("ok", JBool true)]) 200, db')
          end
      end
  end.

(** [POST /api/plants/<plant_id>/water] *)
Definition api_log_water (plant_id : Z)
  (payload_watered_at payload_note : option string) (db : store)
  : result (response * store) :=
  row <- Sqlite3.select_plant db plant_id ;;
  match row with
  | None => Ok (Jsonify (JDict [("error", JStr "not found")]) 404, db)
  | Some _ =>
      let watered_at := or_else payload_watered_at (now_iso now) in
      let note := or_else payload_note "" in
      let watered_at :=
        try_except (Ok (parse_iso watered_at))
          (fun _ => watered_at) (fun _ => now_iso now) in
      db' <- Sqlite3.insert_log db plant_id watered_at note ;;
      Ok (Jsonify (JDict [("ok", JBool true)]) 200, db')
  end.

(** [POST /api/clear]: no parameter is bound. *)
Definition api_clear (db : store) : result (response * store) :=
  let deleted_logs := Z.of_nat (List.length (water_logs db)) in
  let deleted_plants := Z.of_nat (List.length (plants db)) in
  Ok (Jsonify (JDict [("status", JStr "ok");
                      ("deleted_plants", JNum deleted_plants);
                      ("deleted_logs", JNum deleted_logs)]) 200,
      mkstore [] [] (plants_seq db) (water_logs_seq db)).

(** The store after a request: what the handler commits, and the store
    as it was when the handler raises. *)
Definition serve (req : request) (db : store) : store :=
  match req with
  | ReqCreatePlant form => committed (create_plant form db) db
  | ReqUpdatePlant pid form => committed (update_plant pid form db) db
  | ReqDeletePlant pid => committed (delete_plant pid db) db
  | ReqLogWater pid w n => committed (log_water pid w n db) db
  | ReqLogWaterBackdate pid d n => committed (log_water_backdate pid d n db) db
  | ReqApiPlants m data => committed (api_plants m data db) db
  | ReqApiPlant m pid data => committed (api_plant m pid data db) db
  | ReqApiLogWater pid w n => committed (api_log_water pid w n db) db
  | ReqApiClear => committed (api_clear db) db
  end.

End Handlers.

(** The stores that the routes reach from the empty store. *)
Inductive reachable (py_int : string -> option Z) : store -> Prop :=
| reach_empty : reachable py_int empty_store
| reach_serve (db : store) (now : datetime) (req : request) :
    reachable py_int db -> utc_clock now ->
    reachable py_int (serve py_int now req db).

End Route.

(** The rows of a store, and its counters, fit SQLite's integers. *)
Record fits_inv (db : store) : Prop := mkfits_inv {
  fits_plants : forall r, In r (plants db) ->
    Plants.id r <= INT64_MAX /\ Plants.water_interval_days r <= INT64_MAX;
  fits_logs : forall w, In w (water_logs db) ->
    WaterLogs.id w <= INT64_MAX /\ WaterLogs.plant_id w <= INT64_MAX;
  fits_counters : plants_seq db <= INT64_MAX /\ water_logs_seq db <= INT64_MAX
}.

(** The watering interval that the API stores for a new plant. *)
Definition api_interval (py_int : string -> option Z) (data : plant_json) : Z :=
  try_except (json_interval py_int (json_water_interval_days data) 7)
    (fun i => i) (fun _ => 7).

(** The store [db'] is [db] with the one event [w] appended. *)
Definition appends_event (db db' : store) (w : WaterLogs.row) : Prop :=
  plants db' = plants db
  /\ water_logs db' = (water_logs db ++ [w])%list
  /\ plants_seq db' = plants_seq db
  /\ water_logs_seq db' = WaterLogs.id w.

(** The store [db'] is [db] with the one plant [r] appended. *)
Definition appends_plant (db db' : store) (r : Plants.row) : Prop :=
  plants db' = (plants db ++ [r])%list
  /\ water_logs db' = water_logs db
  /\ plants_seq db' = Plants.id r
  /\ water_logs_seq db' = water_logs_seq db.

(** An identifier above every 64-bit integer. *)
Definition HUGE_ID : Z := 9223372036854775808.

(** The store after the routes created the plant Fern at [clock0]. *)
Definition served_fern_store : store :=
  Route.serve int_of_numeral clock0 (ReqCreatePlant (form_named "Fern"))
    empty_store.

(** The request addresses the plant [pid] by its identifier. *)
Definition addresses (req : request) (pid : Z) : Prop :=
  match req with
  | ReqUpdatePlant p _ => p = pid
  | ReqDeletePlant p => p = pid
  | ReqLogWater p _ _ => p = pid
  | ReqLogWaterBackdate p _ _ => p = pid
  | ReqApiPlant m p _ => p = pid /\ m <> POST
  | ReqApiLogWater p _ _ => p = pid
  | _ => False
  end.

(** The body of the not-found answer of the API. *)
Definition NOT_FOUND : response :=
  Jsonify (JDict [("error", JStr "not found")]) 404.

(** * Properties *)

(** ** Text order *)

Lemma compare_cons (x y : ascii) (a b : string) :
  String.compare (String x a) (String y b)
  = lexc (N.compare (N_of_ascii x) (N_of_ascii y)) (String.compare a b).
Proof.
  cbn [String.compare]. unfold Ascii.compare.
  now destruct (N.compare (N_of_ascii x) (N_of_ascii y)).
Qed.

Lemma string_compare_refl (a : string) : String.compare a a = Eq.
Proof.
  induction a as [|x a IH]; [reflexivity|].
  rewrite compare_cons, N.compare_refl. exact IH.
Qed.

Lemma string_leb_trans (a b c : string) :
  String.leb a b = true -> String.leb b c = true -> String.leb a c = true.
Proof.
  unfold String.leb. revert b c.
  induction a as [|x a IH]; intros [|y b] [|z c]; simpl; try congruence.
  change (Ascii.compare x y) with (N.compare (N_of_ascii x) (N_of_ascii y)).
  change (Ascii.compare y z) with (N.compare (N_of_ascii y) (N_of_ascii z)).
  change (Ascii.compare x z) with (N.compare (N_of_ascii x) (N_of_ascii z)).
  destruct (N.compare_spec (N_of_ascii x) (N_of_ascii y)) as [E1|L1|G1];
    destruct (N.compare_spec (N_of_ascii y) (N_of_ascii z)) as [E2|L2|G2];
    destruct (N.compare_spec (N_of_ascii x) (N_of_ascii z)) as [E3|L3|G3];
    try congruence; try lia.
  apply IH.
Qed.

Lemma string_leb_refl (a : string) : String.leb a a = true.
Proof. unfold String.leb. now rewrite string_compare_refl. Qed.

(** ** Decimal fields *)

Lemma append_nil_r (s : string) : s ++ "" = s.
Proof. induction s as [|c s IH]; simpl; [reflexivity|now rewrite IH]. Qed.

Lemma append_assoc (a b c : string) : (a ++ b) ++ c = a ++ (b ++ c).
Proof. induction a as [|x a IH]; simpl; [reflexivity|now rewrite IH]. Qed.

Lemma digit_val_char (d : Z) :
  0 <= d < 10 -> digit_val (digit_char d) = Some d.
Proof.
  intros H.
  assert (E : d = 0 \/ d = 1 \/ d = 2 \/ d = 3 \/ d = 4 \/ d = 5 \/ d = 6
              \/ d = 7 \/ d = 8 \/ d = 9) by lia.
  repeat (destruct E as [->|E]; [reflexivity|]). subst d. reflexivity.
Qed.

Lemma pow10_pos (w : nat) : 0 < 10 ^ Z.of_nat w.
Proof. apply Z.pow_pos_nonneg; lia. Qed.

Lemma pow10_succ (w : nat) : 10 ^ Z.of_nat (S w) = 10 ^ Z.of_nat w * 10.
Proof. rewrite Nat2Z.inj_succ, Z.pow_succ_r by lia. ring. Qed.

Lemma digit_at_range (n : Z) (w : nat) : 0 <= (n / 10 ^ Z.of_nat w) mod 10 < 10.
Proof. apply Z.mod_pos_bound. lia. Qed.

Lemma mod_pow10_succ (n : Z) (w : nat) :
  n mod 10 ^ Z.of_nat (S w)
  = n mod 10 ^ Z.of_nat w + 10 ^ Z.of_nat w * ((n / 10 ^ Z.of_nat w) mod 10).
Proof.
  rewrite pow10_succ. apply Z.rem_mul_r; [|lia].
  pose proof (pow10_pos w). lia.
Qed.

(** Reading back a zero-padded field yields its value. *)
Lemma read_digits_zpad (w : nat) :
  forall (n acc : Z) (r : string),
    read_digits w acc (zpad w n ++ r)
    = Some (acc * 10 ^ Z.of_nat w + n mod 10 ^ Z.of_nat w, r).
Proof.
  induction w as [|w IH]; intros n acc r.
  - cbn [zpad read_digits append]. rewrite Z.mod_1_r. f_equal. f_equal.
    change (10 ^ Z.of_nat 0) with 1. lia.
  - cbn [zpad read_digits append].
    rewrite digit_val_char by apply digit_at_range.
    rewrite IH, mod_pow10_succ, pow10_succ. f_equal. f_equal. ring.
Qed.

Lemma read_digits_zpad_small (w : nat) (n : Z) (r : string) :
  0 <= n < 10 ^ Z.of_nat w ->
  read_digits w 0 (zpad w n ++ r) = Some (n, r).
Proof.
  intros H. rewrite read_digits_zpad, Z.mod_small by exact H. reflexivity.
Qed.

(** ** Zero-padded fields in text order *)

Lemma lexc_assoc (a b c : comparison) : lexc a (lexc b c) = lexc (lexc a b) c.
Proof. now destruct a. Qed.

Lemma lexc_eq_r (a : comparison) : lexc a Eq = a.
Proof. now destruct a. Qed.

Lemma digit_char_compare (x y : Z) :
  0 <= x < 10 -> 0 <= y < 10 ->
  N.compare (N_of_ascii (digit_char x)) (N_of_ascii (digit_char y)) = (x ?= y).
Proof.
  intros Hx Hy. unfold digit_char.
  rewrite !N_ascii_embedding.
  - rewrite Z2N.inj_compare by lia. apply Z.add_compare_mono_l.
  - lia.
  - lia.
Qed.

Lemma lexc_radix (p q1 q2 r1 r2 : Z) :
  0 <= r1 < p -> 0 <= r2 < p ->
  (r1 + p * q1 ?= r2 + p * q2) = lexc (q1 ?= q2) (r1 ?= r2).
Proof.
  intros H1 H2.
  destruct (Z.compare_spec q1 q2) as [E|L|G]; simpl.
  - subst. rewrite !(Z.add_comm _ (p * q2)). apply Z.add_compare_mono_l.
  - apply Z.compare_lt_iff. nia.
  - apply Z.compare_gt_iff. nia.
Qed.

Lemma compare_zpad (w : nat) :
  forall (a b : Z) (s t : string),
    String.compare (zpad w a ++ s) (zpad w b ++ t)
    = lexc (a mod 10 ^ Z.of_nat w ?= b mod 10 ^ Z.of_nat w) (String.compare s t).
Proof.
  induction w as [|w IH]; intros a b s t.
  - cbn [zpad append]. change (10 ^ Z.of_nat 0) with 1.
    now rewrite !Z.mod_1_r.
  - cbn [zpad append].
    rewrite compare_cons, digit_char_compare, IH by apply digit_at_range.
    rewrite !mod_pow10_succ.
    rewrite lexc_radix by (apply Z.mod_pos_bound, pow10_pos).
    apply lexc_assoc.
Qed.

Lemma compare_zpad_small (w : nat) (a b : Z) (s t : string) :
  0 <= a < 10 ^ Z.of_nat w -> 0 <= b < 10 ^ Z.of_nat w ->
  String.compare (zpad w a ++ s) (zpad w b ++ t)
  = lexc (a ?= b) (String.compare s t).
Proof.
  intros Ha Hb. now rewrite compare_zpad, !Z.mod_small.
Qed.

Lemma compare_sep (c : ascii) (s t : string) :
  String.compare (String c "" ++ s) (String c "" ++ t) = String.compare s t.
Proof. cbn [append]. now rewrite compare_cons, N.compare_refl. Qed.

(** ** Calendar dates as text *)

Lemma days_in_month_le_31 (y m : Z) : days_in_month y m <= 31.
Proof.
  unfold days_in_month.
  destruct ((m =? 2) && is_leap y); [lia|].
  destruct (Z.to_nat m) as [|[|[|[|[|[|[|[|[|[|[|[|[|k]]]]]]]]]]]]];
    simpl; try lia.
  destruct k; simpl; lia.
Qed.

Lemma check_date_fields_bounds (y m d : Z) :
  check_date_fields y m d = true ->
  1 <= y <= 9999 /\ 1 <= m <= 12 /\ 1 <= d <= days_in_month y m.
Proof.
  unfold check_date_fields. rewrite !andb_true_iff, !Z.leb_le. tauto.
Qed.

Lemma parse_date_text (y m d : Z) :
  0 <= y < 10000 -> 0 <= m < 100 -> 0 <= d < 100 ->
  parse_isoformat_date (date_text y m d) = Some (y, m, d).
Proof.
  intros Hy Hm Hd. unfold parse_isoformat_date, date_text.
  rewrite read_digits_zpad_small by (change (10 ^ Z.of_nat 4) with 10000; lia).
  cbn [append].
  rewrite read_digits_zpad_small by (change (10 ^ Z.of_nat 2) with 100; lia).
  cbn [append].
  rewrite <- (append_nil_r (zpad 2 d)).
  rewrite read_digits_zpad_small by (change (10 ^ Z.of_nat 2) with 100; lia).
  reflexivity.
Qed.

Lemma split_date_text (y m d : Z) (rest : string) :
  split_at 10 (date_text y m d ++ rest) = (date_text y m d, rest).
Proof. reflexivity. Qed.


Lemma isoformat_utc_midnight (y m d : Z) :
  isoformat (utc_midnight y m d) = date_text y m d ++ "T00:00:00+00:00".
Proof. reflexivity. Qed.

(** The stored text of a backdated event denotes UTC midnight of the date. *)
Lemma parse_utc_midnight (y m d : Z) :
  check_date_fields y m d = true ->
  parse_iso (isoformat (utc_midnight y m d)) = Some (utc_midnight y m d).
Proof.
  intros Hc. pose proof (check_date_fields_bounds y m d Hc) as [Hy [Hm Hd]].
  pose proof (days_in_month_le_31 y m).
  unfold parse_iso, fromisoformat.
  rewrite isoformat_utc_midnight, split_date_text.
  rewrite parse_date_text by lia.
  change (parse_isoformat_time "00:00:00+00:00")
    with (Some (0, 0, 0, 0, Some 0)).
  unfold new_datetime, valid. cbn [year month day hour minute second
                                    microsecond tzinfo].
  rewrite Hc. reflexivity.
Qed.

(** ** Calendar order *)

Lemma month_cases (m : Z) :
  1 <= m <= 12 ->
  m = 1 \/ m = 2 \/ m = 3 \/ m = 4 \/ m = 5 \/ m = 6 \/ m = 7 \/ m = 8
  \/ m = 9 \/ m = 10 \/ m = 11 \/ m = 12.
Proof. lia. Qed.

Ltac each_month H :=
  apply month_cases in H;
  repeat (destruct H as [->|H]); [..|subst].

Ltac month_tables :=
  cbv [days_before_month days_in_month nth Z.to_nat Pos.to_nat Pos.iter_op
       Nat.add DAYS_BEFORE_MONTH DAYS_IN_MONTH Z.ltb Z.eqb Z.compare
       Pos.compare Pos.compare_cont Pos.eqb andb] in *.

Lemma days_before_year_succ (y : Z) :
  days_before_year (y + 1) = days_before_year y + 365 + leap_day y.
Proof.
  unfold days_before_year, leap_day, is_leap.
  replace (y + 1 - 1) with y by lia.
  destruct (y mod 4 =? 0) eqn:E4; destruct (y mod 100 =? 0) eqn:E100;
    destruct (y mod 400 =? 0) eqn:E400; simpl;
    rewrite ?Z.eqb_eq, ?Z.eqb_neq in *;
    Z.div_mod_to_equations; lia.
Qed.

Lemma days_before_year_mono (y1 y2 : Z) :
  y1 <= y2 -> days_before_year y1 <= days_before_year y2.
Proof.
  intros H. unfold days_before_year. Z.div_mod_to_equations. lia.
Qed.

Lemma day_of_year_bounds (y m d : Z) :
  1 <= m <= 12 -> 1 <= d <= days_in_month y m ->
  1 <= days_before_month y m + d <= 365 + leap_day y.
Proof.
  intros Hm Hd. unfold leap_day.
  each_month Hm; month_tables; destruct (is_leap y); lia.
Qed.

Lemma day_of_year_compare (y m1 d1 m2 d2 : Z) :
  1 <= m1 <= 12 -> 1 <= d1 <= days_in_month y m1 ->
  1 <= m2 <= 12 -> 1 <= d2 <= days_in_month y m2 ->
  (days_before_month y m1 + d1 ?= days_before_month y m2 + d2)
  = lexc (m1 ?= m2) (d1 ?= d2).
Proof.
  intros Hm1 Hd1 Hm2 Hd2.
  each_month Hm1; each_month Hm2; month_tables; destruct (is_leap y);
    unfold lexc;
    first [ apply Z.add_compare_mono_l
          | apply Z.compare_lt_iff; lia
          | apply Z.compare_gt_iff; lia ].
Qed.

Lemma ymd2ord_compare (y1 m1 d1 y2 m2 d2 : Z) :
  1 <= m1 <= 12 -> 1 <= d1 <= days_in_month y1 m1 ->
  1 <= m2 <= 12 -> 1 <= d2 <= days_in_month y2 m2 ->
  (ymd2ord y1 m1 d1 ?= ymd2ord y2 m2 d2)
  = lexc (y1 ?= y2) (lexc (m1 ?= m2) (d1 ?= d2)).
Proof.
  intros Hm1 Hd1 Hm2 Hd2. unfold ymd2ord.
  pose proof (day_of_year_bounds y1 m1 d1 Hm1 Hd1) as B1.
  pose proof (day_of_year_bounds y2 m2 d2 Hm2 Hd2) as B2.
  destruct (Z.compare_spec y1 y2) as [E|L|G]; simpl.
  - subst y2. rewrite <- !Z.add_assoc, Z.add_compare_mono_l.
    now apply day_of_year_compare.
  - apply Z.compare_lt_iff.
    pose proof (days_before_year_succ y1).
    pose proof (days_before_year_mono (y1 + 1) y2 ltac:(lia)). lia.
  - apply Z.compare_gt_iff.
    pose proof (days_before_year_succ y2).
    pose proof (days_before_year_mono (y2 + 1) y1 ltac:(lia)). lia.
Qed.

Lemma check_time_fields_bounds (h mi s us : Z) :
  check_time_fields h mi s us = true ->
  0 <= h <= 23 /\ 0 <= mi <= 59 /\ 0 <= s <= 59 /\ 0 <= us <= 999999.
Proof.
  unfold check_time_fields. rewrite !andb_true_iff, !Z.leb_le. tauto.
Qed.

Lemma valid_fields (d : datetime) :
  valid d = true ->
  check_date_fields (year d) (month d) (day d) = true
  /\ check_time_fields (hour d) (minute d) (second d) (microsecond d) = true
  /\ check_offset (tzinfo d) = true.
Proof. unfold valid. rewrite !andb_true_iff. tauto. Qed.

Lemma naive_us_compare (d1 d2 : datetime) :
  valid d1 = true -> valid d2 = true ->
  (naive_us d1 ?= naive_us d2) = fields_compare d1 d2.
Proof.
  intros V1 V2.
  destruct (valid_fields d1 V1) as [D1 [T1 _]].
  destruct (valid_fields d2 V2) as [D2 [T2 _]].
  apply check_date_fields_bounds in D1, D2.
  apply check_time_fields_bounds in T1, T2.
  unfold naive_us, toordinal, US_PER_SECOND, fields_compare.
  replace ((((ymd2ord (year d1) (month d1) (day d1) * 24 + hour d1) * 60
             + minute d1) * 60 + second d1) * 1000000 + microsecond d1)
    with (microsecond d1
          + 1000000
            * (second d1
               + 60 * (minute d1
                       + 60 * (hour d1
                               + 24 * ymd2ord (year d1) (month d1) (day d1)))))
    by ring.
  replace ((((ymd2ord (year d2) (month d2) (day d2) * 24 + hour d2) * 60
             + minute d2) * 60 + second d2) * 1000000 + microsecond d2)
    with (microsecond d2
          + 1000000
            * (second d2
               + 60 * (minute d2
                       + 60 * (hour d2
                               + 24 * ymd2ord (year d2) (month d2) (day d2)))))
    by ring.
  rewrite !lexc_radix by lia.
  rewrite ymd2ord_compare by tauto.
  now rewrite <- !lexc_assoc.
Qed.

Lemma isoformat_utc (d : datetime) :
  tzinfo d = Some 0 ->
  isoformat d
  = zpad 4 (year d) ++ "-" ++ zpad 2 (month d) ++ "-" ++ zpad 2 (day d) ++ "T"
    ++ zpad 2 (hour d) ++ ":" ++ zpad 2 (minute d) ++ ":" ++ zpad 2 (second d)
    ++ fraction_text (microsecond d) ++ "+00:00".
Proof.
  intros H. unfold isoformat, format_time. rewrite H.
  change (format_offset (Some 0)) with "+00:00".
  fold (fraction_text (microsecond d)).
  now rewrite !append_assoc.
Qed.

Lemma compare_fraction (u1 u2 : Z) :
  0 <= u1 <= 999999 -> 0 <= u2 <= 999999 ->
  String.compare (fraction_text u1 ++ "+00:00") (fraction_text u2 ++ "+00:00")
  = (u1 ?= u2).
Proof.
  intros H1 H2. unfold fraction_text.
  destruct (Z.eqb_spec u1 0) as [->|N1]; destruct (Z.eqb_spec u2 0) as [->|N2].
  - reflexivity.
  - replace (0 ?= u2) with Lt by (symmetry; apply Z.compare_lt_iff; lia).
    reflexivity.
  - replace (u1 ?= 0) with Gt by (symmetry; apply Z.compare_gt_iff; lia).
    reflexivity.
  - rewrite !append_assoc, compare_sep.
    rewrite compare_zpad_small by (change (10 ^ Z.of_nat 6) with 1000000; lia).
    apply lexc_eq_r.
Qed.

(** On valid UTC values, the text order of [isoformat] is the order of
    time. *)
Lemma isoformat_utc_compare (d1 d2 : datetime) :
  valid d1 = true -> valid d2 = true ->
  tzinfo d1 = Some 0 -> tzinfo d2 = Some 0 ->
  String.compare (isoformat d1) (isoformat d2)
  = (naive_us d1 ?= naive_us d2).
Proof.
  intros V1 V2 U1 U2.
  rewrite naive_us_compare by assumption.
  destruct (valid_fields d1 V1) as [D1 [T1 _]].
  destruct (valid_fields d2 V2) as [D2 [T2 _]].
  pose proof (days_in_month_le_31 (year d1) (month d1)).
  pose proof (days_in_month_le_31 (year d2) (month d2)).
  apply check_date_fields_bounds in D1, D2.
  apply check_time_fields_bounds in T1, T2.
  rewrite !isoformat_utc by assumption. unfold fields_compare.
  rewrite compare_zpad_small by (change (10 ^ Z.of_nat 4) with 10000; lia).
  rewrite compare_sep.
  rewrite compare_zpad_small by (change (10 ^ Z.of_nat 2) with 100; lia).
  rewrite compare_sep.
  rewrite compare_zpad_small by (change (10 ^ Z.of_nat 2) with 100; lia).
  rewrite compare_sep.
  rewrite compare_zpad_small by (change (10 ^ Z.of_nat 2) with 100; lia).
  rewrite compare_sep.
  rewrite compare_zpad_small by (change (10 ^ Z.of_nat 2) with 100; lia).
  rewrite compare_sep.
  rewrite compare_zpad_small by (change (10 ^ Z.of_nat 2) with 100; lia).
  now rewrite compare_fraction by lia.
Qed.

(** ** Ordinals and dates *)

Lemma days_before_year_decomp (n400 n100 n4 n1 : Z) :
  0 <= n400 -> 0 <= n100 <= 3 -> 0 <= n4 <= 24 -> 0 <= n1 <= 3 ->
  days_before_year (n400 * 400 + 1 + n100 * 100 + n4 * 4 + n1)
  = 146097 * n400 + 36524 * n100 + 1461 * n4 + 365 * n1.
Proof.
  intros H400 H100 H4 H1. unfold days_before_year.
  Z.div_mod_to_equations. lia.
Qed.

Lemma is_leap_decomp (n400 n100 n4 n1 : Z) :
  0 <= n400 -> 0 <= n100 <= 3 -> 0 <= n4 <= 24 -> 0 <= n1 <= 3 ->
  is_leap (n400 * 400 + 1 + n100 * 100 + n4 * 4 + n1)
  = (n1 =? 3) && (negb (n4 =? 24) || (n100 =? 3)).
Proof.
  intros H400 H100 H4 H1. unfold is_leap.
  destruct (Z.eqb_spec n1 3) as [E1|E1];
    destruct (Z.eqb_spec n4 24) as [E4|E4];
    destruct (Z.eqb_spec n100 3) as [E100|E100]; simpl;
    repeat match goal with
           | |- context [?a mod ?b =? 0] =>
               let E := fresh "E" in
               destruct (Z.eqb_spec (a mod b) 0) as [E|E]
           end; simpl; try reflexivity; exfalso;
    Z.div_mod_to_equations; lia.
Qed.

Lemma month_day_ok_all (leapyear : bool) (n : Z) :
  0 <= n < 365 + (if leapyear then 1 else 0) ->
  month_day_ok leapyear n = true.
Proof.
  intros H.
  assert (T : forallb (fun k => month_day_ok true (Z.of_nat k)) (seq 0 366)
              && forallb (fun k => month_day_ok false (Z.of_nat k)) (seq 0 365)
              = true) by (vm_compute; reflexivity).
  apply andb_true_iff in T. destruct T as [T1 T2].
  rewrite forallb_forall in T1, T2.
  rewrite <- (Z2Nat.id n) by lia.
  destruct leapyear; [apply T1|apply T2]; apply in_seq; lia.
Qed.

Lemma month_day_spec (y : Z) (n : Z) :
  0 <= n < 365 + (if is_leap y then 1 else 0) ->
  let (m, d) := month_day (is_leap y) n in
  1 <= m <= 12 /\ 1 <= d <= days_in_month y m
  /\ days_before_month y m + d = n + 1.
Proof.
  intros H. pose proof (month_day_ok_all (is_leap y) n H) as K.
  unfold month_day_ok in K. destruct (month_day (is_leap y) n) as [m d].
  rewrite !andb_true_iff, !Z.leb_le, Z.eqb_eq in K.
  unfold days_in_month, days_before_month. tauto.
Qed.

Lemma ord2ymd_spec (o : Z) :
  1 <= o <= MAXORDINAL ->
  let '(y, m, d) := ord2ymd o in
  check_date_fields y m d = true /\ ymd2ord y m d = o.
Proof.
  intros Ho. unfold MAXORDINAL in Ho. unfold ord2ymd.
  unfold DI400Y, DI100Y, DI4Y.
  pose proof (Z.div_mod (o - 1) 146097 ltac:(lia)) as E400.
  pose proof (Z.mod_pos_bound (o - 1) 146097 ltac:(lia)) as B400.
  set (n400 := (o - 1) / 146097) in *.
  set (r1 := (o - 1) mod 146097) in *.
  pose proof (Z.div_mod r1 36524 ltac:(lia)) as E100.
  pose proof (Z.mod_pos_bound r1 36524 ltac:(lia)) as B100.
  set (n100 := r1 / 36524) in *.
  set (r2 := r1 mod 36524) in *.
  pose proof (Z.div_mod r2 1461 ltac:(lia)) as E4.
  pose proof (Z.mod_pos_bound r2 1461 ltac:(lia)) as B4.
  set (n4 := r2 / 1461) in *.
  set (r3 := r2 mod 1461) in *.
  pose proof (Z.div_mod r3 365 ltac:(lia)) as E1.
  pose proof (Z.mod_pos_bound r3 365 ltac:(lia)) as B1.
  set (n1 := r3 / 365) in *.
  set (r4 := r3 mod 365) in *.
  clearbody n400 r1 n100 r2 n4 r3 n1 r4.
  assert (H400 : 0 <= n400 <= 24) by lia.
  assert (H100 : 0 <= n100 <= 4) by lia.
  assert (H4 : 0 <= n4 <= 24) by lia.
  assert (H1 : 0 <= n1 <= 4) by lia.
  destruct ((n1 =? 4) || (n100 =? 4)) eqn:Elast.
  - (* the last day of a leap year *)
    apply orb_true_iff in Elast. rewrite !Z.eqb_eq in Elast.
    assert (Hy : n400 * 400 + 1 + n100 * 100 + n4 * 4 + n1 - 1
                 = (n400 * 400 + 1 + (if n100 =? 4 then 3 else n100) * 100
                    + (if n100 =? 4 then 24 else n4) * 4 + 3)).
    { destruct (Z.eqb_spec n100 4); lia. }
    rewrite Hy.
    set (m100 := if n100 =? 4 then 3 else n100) in *.
    set (m4 := if n100 =? 4 then 24 else n4) in *.
    assert (M100 : 0 <= m100 <= 3) by (subst m100; destruct (Z.eqb_spec n100 4); lia).
    assert (M4 : 0 <= m4 <= 24) by (subst m4; destruct (Z.eqb_spec n100 4); lia).
    assert (L : is_leap (n400 * 400 + 1 + m100 * 100 + m4 * 4 + 3) = true).
    { rewrite is_leap_decomp by lia. subst m100 m4.
      destruct (Z.eqb_spec n100 4) as [->|N]; [reflexivity|].
      simpl. apply orb_true_iff. left. apply negb_true_iff, Z.eqb_neq. lia. }
    split.
    + unfold check_date_fields, days_in_month. rewrite L.
      change ((12 =? 2) && true) with false. cbv iota.
      change (nth (Z.to_nat 12) DAYS_IN_MONTH 0) with 31.
      rewrite !andb_true_iff, !Z.leb_le.
      subst m100 m4. destruct (Z.eqb_spec n100 4); lia.
    + unfold ymd2ord, days_before_month. rewrite L.
      rewrite days_before_year_decomp by lia.
      change (nth (Z.to_nat 12) DAYS_BEFORE_MONTH 0) with 334.
      change ((2 <? 12) && true) with true. cbv iota.
      subst m100 m4. destruct (Z.eqb_spec n100 4); lia.
  - apply orb_false_iff in Elast. rewrite !Z.eqb_neq in Elast.
    assert (H100' : 0 <= n100 <= 3) by lia.
    assert (H1' : 0 <= n1 <= 3) by lia.
    rewrite <- (is_leap_decomp n400 n100 n4 n1) by lia.
    set (y := n400 * 400 + 1 + n100 * 100 + n4 * 4 + n1) in *.
    assert (Hr4 : 0 <= r4 < 365 + (if is_leap y then 1 else 0)).
    { subst y. rewrite is_leap_decomp by lia.
      destruct (Z.eqb_spec n1 3); destruct (Z.eqb_spec n4 24);
        destruct (Z.eqb_spec n100 3); simpl; lia. }
    pose proof (month_day_spec y r4 Hr4) as S.
    unfold month_day in S.
    assert (Hdby : days_before_year y = o - 1 - r4).
    { subst y. rewrite days_before_year_decomp by lia. lia. }
    assert (Hy : 1 <= y <= 9999) by (subst y; lia).
    match goal with
    | |- context [if ?c then _ else _] => destruct c
    end; cbv zeta in S |- *;
      destruct S as [Sm [Sd So]]; (split;
        [ unfold check_date_fields;
          rewrite !andb_true_iff, !Z.leb_le; lia
        | unfold ymd2ord; rewrite Hdby; lia ]).
Qed.

(** ** Adding whole days *)

Lemma datetime_add_days (d : datetime) (n : Z) :
  valid d = true ->
  1 <= toordinal d + n <= MAXORDINAL ->
  exists d',
    datetime_add d (n * US_PER_DAY) = Ok d'
    /\ valid d' = true
    /\ tzinfo d' = tzinfo d
    /\ toordinal d' = toordinal d + n
    /\ naive_us d' = naive_us d + n * US_PER_DAY.
Proof.
  intros V Hr.
  destruct (valid_fields d V) as [_ [T O]].
  apply check_time_fields_bounds in T.
  unfold datetime_add, naive_us, US_PER_DAY, US_PER_SECOND in *.
  set (o := toordinal d) in *.
  set (total := (((o * 24 + hour d) * 60 + minute d) * 60 + second d)
                * 1000000 + microsecond d + n * 86400000000).
  assert (Hdays : total / 86400000000 = o + n)
    by (subst total; Z.div_mod_to_equations; lia).
  assert (Hrest : total mod 86400000000
                  = ((hour d * 60 + minute d) * 60 + second d) * 1000000
                    + microsecond d)
    by (subst total; Z.div_mod_to_equations; lia).
  rewrite Hdays, Hrest.
  set (rest := ((hour d * 60 + minute d) * 60 + second d) * 1000000
               + microsecond d).
  assert (Hsecs : rest / 1000000 = (hour d * 60 + minute d) * 60 + second d)
    by (subst rest; Z.div_mod_to_equations; lia).
  assert (Hus : rest mod 1000000 = microsecond d)
    by (subst rest; Z.div_mod_to_equations; lia).
  rewrite Hsecs, Hus.
  set (secs := (hour d * 60 + minute d) * 60 + second d).
  assert (Hh : secs / 3600 = hour d)
    by (subst secs; Z.div_mod_to_equations; lia).
  assert (Hrem : secs mod 3600 = minute d * 60 + second d)
    by (subst secs; Z.div_mod_to_equations; lia).
  rewrite Hh, Hrem.
  assert (Hmi : (minute d * 60 + second d) / 60 = minute d)
    by (Z.div_mod_to_equations; lia).
  assert (Hs : (minute d * 60 + second d) mod 60 = second d)
    by (Z.div_mod_to_equations; lia).
  rewrite Hmi, Hs.
  replace ((0 <? o + n) && (o + n <=? MAXORDINAL)) with true
    by (symmetry; apply andb_true_iff; rewrite Z.ltb_lt, Z.leb_le; lia).
  pose proof (ord2ymd_spec (o + n) Hr) as S.
  destruct (ord2ymd (o + n)) as [[y m] dd]. destruct S as [Sc So].
  eexists. split; [reflexivity|].
  unfold valid, toordinal.
  cbn [year month day hour minute second microsecond tzinfo].
  rewrite Sc, O, So.
  replace (check_time_fields (hour d) (minute d) (second d) (microsecond d))
    with true
    by (symmetry; unfold check_time_fields;
        rewrite !andb_true_iff, !Z.leb_le; lia).
  repeat split. subst total. lia.
Qed.

Lemma datetime_add_days_overflow (d : datetime) (n : Z) :
  valid d = true ->
  ~ (1 <= toordinal d + n <= MAXORDINAL) ->
  datetime_add d (n * US_PER_DAY) = Raise OverflowError.
Proof.
  intros V Hr.
  destruct (valid_fields d V) as [_ [T O]].
  apply check_time_fields_bounds in T.
  unfold datetime_add, naive_us, US_PER_DAY, US_PER_SECOND in *.
  set (o := toordinal d) in *.
  set (total := (((o * 24 + hour d) * 60 + minute d) * 60 + second d)
                * 1000000 + microsecond d + n * 86400000000).
  assert (Hdays : total / 86400000000 = o + n)
    by (subst total; Z.div_mod_to_equations; lia).
  rewrite Hdays.
  replace ((0 <? o + n) && (o + n <=? MAXORDINAL)) with false; [reflexivity|].
  symmetry. apply andb_false_iff. rewrite Z.ltb_ge, Z.leb_gt. lia.
Qed.

Lemma fromisoformat_valid (s : string) (d : datetime) :
  fromisoformat s = Some d -> valid d = true.
Proof.
  unfold fromisoformat.
  destruct (split_at 10 s) as [dstr rest].
  destruct (parse_isoformat_date dstr) as [[[y m] dd]|]; [|discriminate].
  assert (N : forall h mi sec us tz,
             new_datetime y m dd h mi sec us tz = Some d -> valid d = true).
  { intros h mi sec us tz. unfold new_datetime.
    destruct (valid (mkdatetime y m dd h mi sec us tz)) eqn:V; [|discriminate].
    now intros [= <-]. }
  destruct rest as [|c tstr]; [apply N|].
  destruct (parse_isoformat_time tstr) as [[[[[h mi] sec] us] tz]|];
    [apply N|discriminate].
Qed.

Lemma parse_iso_valid (s : string) (d : datetime) :
  parse_iso s = Some d -> valid d = true.
Proof.
  unfold parse_iso. destruct (fromisoformat s) eqn:E; [|discriminate].
  intros [= <-]. now apply fromisoformat_valid with s.
Qed.

(** ** Reading back what [isoformat] writes *)

Lemma no_sign_app (a b : string) :
  no_sign (a ++ b) = no_sign a && no_sign b.
Proof.
  induction a as [|c a IH]; simpl; [reflexivity|].
  now rewrite IH, andb_assoc.
Qed.

Lemma is_sign_digit (x : Z) : 0 <= x < 10 -> is_sign (digit_char x) = false.
Proof.
  intros H.
  assert (E : x = 0 \/ x = 1 \/ x = 2 \/ x = 3 \/ x = 4 \/ x = 5 \/ x = 6
              \/ x = 7 \/ x = 8 \/ x = 9) by lia.
  repeat (destruct E as [->|E]; [reflexivity|]). subst x. reflexivity.
Qed.

Lemma no_sign_zpad (w : nat) (n : Z) : no_sign (zpad w n) = true.
Proof.
  induction w as [|w IH]; [reflexivity|].
  cbn [zpad no_sign]. now rewrite is_sign_digit, IH by apply digit_at_range.
Qed.

Lemma no_sign_clock_text (d : datetime) : no_sign (clock_text d) = true.
Proof.
  unfold clock_text, fraction_text.
  rewrite !no_sign_app, !no_sign_zpad.
  destruct (microsecond d =? 0); [reflexivity|].
  now rewrite no_sign_app, no_sign_zpad.
Qed.

Lemma break_at_sign (a : string) (x : ascii) (b : string) :
  no_sign a = true -> is_sign x = true ->
  break_at is_sign (a ++ String x b) = Some (a, x, b).
Proof.
  intros Ha Hx. induction a as [|c a IH]; cbn [append break_at].
  - now rewrite Hx.
  - cbn [no_sign] in Ha. apply andb_true_iff in Ha. destruct Ha as [Hc Ha].
    apply negb_true_iff in Hc. now rewrite Hc, IH.
Qed.

Lemma zpad_length (w : nat) (n : Z) : String.length (zpad w n) = w.
Proof. induction w as [|w IH]; cbn [zpad String.length]; congruence. Qed.

Lemma parse_fraction_zpad (us : Z) :
  0 <= us <= 999999 -> parse_fraction (zpad 6 us) = Some us.
Proof.
  intros H. unfold parse_fraction. rewrite zpad_length.
  rewrite <- (append_nil_r (zpad 6 us)).
  rewrite read_digits_zpad_small by (change (10 ^ Z.of_nat 6) with 1000000; lia).
  reflexivity.
Qed.

Lemma parse_clock_text (d : datetime) :
  check_time_fields (hour d) (minute d) (second d) (microsecond d) = true ->
  parse_hh_mm_ss_ff (clock_text d)
  = Some (hour d, minute d, second d, microsecond d).
Proof.
  intros T. apply check_time_fields_bounds in T.
  unfold parse_hh_mm_ss_ff, clock_text.
  rewrite read_digits_zpad_small by (change (10 ^ Z.of_nat 2) with 100; lia).
  cbn [append].
  rewrite read_digits_zpad_small by (change (10 ^ Z.of_nat 2) with 100; lia).
  cbn [append].
  rewrite read_digits_zpad_small by (change (10 ^ Z.of_nat 2) with 100; lia).
  unfold fraction_text.
  destruct (Z.eqb_spec (microsecond d) 0) as [E|E]; [now rewrite E|].
  cbn [append]. now rewrite parse_fraction_zpad by lia.
Qed.

Lemma isoformat_utc_parts (d : datetime) :
  tzinfo d = Some 0 ->
  isoformat d
  = date_text (year d) (month d) (day d)
    ++ String "T" (clock_text d ++ String "+" "00:00").
Proof.
  intros H. rewrite isoformat_utc by exact H.
  unfold date_text, clock_text. now rewrite !append_assoc.
Qed.

(** A valid value carrying [timezone.utc] is read back from its text. *)
Lemma parse_isoformat_utc (d : datetime) :
  valid d = true -> tzinfo d = Some 0 ->
  parse_iso (isoformat d) = Some d.
Proof.
  intros V U.
  destruct (valid_fields d V) as [D [T O]].
  pose proof (days_in_month_le_31 (year d) (month d)).
  pose proof (check_date_fields_bounds _ _ _ D) as [Hy [Hm Hd]].
  unfold parse_iso, fromisoformat.
  rewrite isoformat_utc_parts, split_date_text by exact U.
  rewrite parse_date_text by lia.
  unfold parse_isoformat_time.
  rewrite break_at_sign by (reflexivity || apply no_sign_clock_text).
  rewrite parse_clock_text by exact T.
  change (String.length "00:00") with 5%nat.
  change ((5 =? 5)%nat || (5 =? 8)%nat || (5 =? 15)%nat) with true.
  cbv iota beta.
  change (parse_hh_mm_ss_ff "00:00") with (Some (0, 0, 0, 0)).
  cbv iota beta.
  change (Some (if ("+" =? "-")%char
                then - ((0 * 3600 + 0 * 60 + 0) * US_PER_SECOND + 0)
                else (0 * 3600 + 0 * 60 + 0) * US_PER_SECOND + 0))
    with (Some 0).
  unfold new_datetime. rewrite <- U. cbv zeta.
  replace (mkdatetime (year d) (month d) (day d) (hour d) (minute d)
             (second d) (microsecond d) (tzinfo d)) with d by now destruct d.
  now rewrite V.
Qed.

(** The timestamps the handlers write on their own are uniform. *)
Lemma now_iso_uniform (now : datetime) :
  utc_clock now -> uniform_utc_text (now_iso now).
Proof.
  intros [V U]. exists now. unfold now_iso.
  now rewrite parse_isoformat_utc.
Qed.

Lemma backdated_text_uniform (y m d : Z) :
  check_date_fields y m d = true ->
  uniform_utc_text (isoformat (utc_midnight y m d)).
Proof.
  intros H. exists (utc_midnight y m d).
  now rewrite parse_utc_midnight.
Qed.

(** ** Moving a timestamp by whole days *)

Lemma plus_days_absent (s : string) (n : Z) :
  plus_days s n = Ok None <-> parse_iso s = None.
Proof.
  unfold plus_days. destruct (parse_iso s) as [d|]; [|tauto].
  split; [|discriminate].
  destruct (timedelta_days n); simpl; [|discriminate].
  destruct (datetime_add d a); simpl; discriminate.
Qed.

Lemma plus_days_value (s : string) (n : Z) (d : datetime) :
  parse_iso s = Some d -> 1 <= n -> toordinal d + n <= MAXORDINAL ->
  exists d',
    plus_days s n = Ok (Some (isoformat d'))
    /\ valid d' = true
    /\ tzinfo d' = tzinfo d
    /\ naive_us d' = naive_us d + n * US_PER_DAY.
Proof.
  intros Hp Hn Hr. pose proof (parse_iso_valid s d Hp) as V.
  assert (Ho : 1 <= toordinal d).
  { destruct (valid_fields d V) as [D _].
    apply check_date_fields_bounds in D.
    unfold toordinal, ymd2ord.
    pose proof (day_of_year_bounds (year d) (month d) (day d)
                  ltac:(tauto) ltac:(tauto)).
    pose proof (days_before_year_mono 1 (year d) ltac:(lia)) as M.
    change (days_before_year 1) with 0 in M. lia. }
  destruct (datetime_add_days d n V ltac:(lia)) as [d' [Ha [V' [Tz [_ Hn']]]]].
  exists d'. unfold plus_days. rewrite Hp. unfold timedelta_days.
  replace (Z.abs n <=? 999999999) with true
    by (symmetry; apply Z.leb_le; unfold MAXORDINAL in Hr; lia).
  simpl. rewrite Ha. simpl. auto.
Qed.

Lemma plus_days_overflow (s : string) (n : Z) (d : datetime) :
  parse_iso s = Some d -> 1 <= n -> MAXORDINAL < toordinal d + n ->
  plus_days s n = Raise OverflowError.
Proof.
  intros Hp Hn Hr. pose proof (parse_iso_valid s d Hp) as V.
  unfold plus_days. rewrite Hp. unfold timedelta_days.
  destruct (Z.abs n <=? 999999999); simpl; [|reflexivity].
  rewrite datetime_add_days_overflow; [reflexivity|exact V|lia].
Qed.

(** ** Lists and filters *)

Lemma filter_none {A : Type} (f : A -> bool) (l : list A) :
  (forall x, In x l -> f x = false) -> filter f l = [].
Proof.
  induction l as [|a l IH]; intros H; simpl; [reflexivity|].
  rewrite (H a (or_introl eq_refl)). apply IH.
  intros x Hx. apply H. now right.
Qed.

Lemma filter_all {A : Type} (f : A -> bool) (l : list A) :
  (forall x, In x l -> f x = true) -> filter f l = l.
Proof.
  induction l as [|a l IH]; intros H; simpl; [reflexivity|].
  rewrite (H a (or_introl eq_refl)). f_equal. apply IH.
  intros x Hx. apply H. now right.
Qed.

Lemma filter_filter {A : Type} (f g : A -> bool) (l : list A) :
  filter f (filter g l) = filter (fun x => g x && f x) l.
Proof.
  induction l as [|a l IH]; simpl; [reflexivity|].
  destruct (g a); simpl; [destruct (f a)|]; now rewrite IH.
Qed.

Lemma find_none_id (l : list Plants.row) (pid : Z) :
  find (fun r => Plants.id r =? pid) l = None ->
  forall r, In r l -> Plants.id r <> pid.
Proof.
  intros H r Hr E.
  pose proof (find_none _ _ H r Hr) as F. simpl in F.
  apply Z.eqb_neq in F. contradiction.
Qed.

(** ** ORDER BY *)

Section OrderByFacts.
Context {A : Type} (le : A -> A -> bool).
Hypothesis le_total : forall x y, le x y = true \/ le y x = true.
Hypothesis le_trans :
  forall x y z, le x y = true -> le y z = true -> le x z = true.

Lemma insert_row_in (x y : A) (l : list A) :
  In y (Sql.insert_row le x l) <-> y = x \/ In y l.
Proof.
  induction l as [|h t IH]; simpl; [intuition congruence|].
  destruct (le x h); simpl; [intuition congruence|].
  rewrite IH. intuition congruence.
Qed.

Lemma order_by_in (y : A) (l : list A) :
  In y (Sql.order_by le l) <-> In y l.
Proof.
  induction l as [|h t IH]; simpl; [tauto|].
  rewrite insert_row_in, IH. intuition congruence.
Qed.

Lemma order_by_nil (l : list A) : Sql.order_by le l = [] <-> l = [].
Proof.
  split; [|now intros ->].
  destruct l as [|h t]; [reflexivity|]. simpl. intros H.
  assert (F : In h (Sql.insert_row le h (Sql.order_by le t)))
    by (apply insert_row_in; now left).
  rewrite H in F. destruct F.
Qed.

Lemma order_refl (x : A) : le x x = true.
Proof. destruct (le_total x x); assumption. Qed.

Lemma insert_row_first (x : A) (l : list A) :
  first_is_least le l -> first_is_least le (Sql.insert_row le x l).
Proof.
  destruct l as [|h t]; simpl.
  - intros _ y [<-|[]]. apply order_refl.
  - intros Hl. destruct (le x h) eqn:E; simpl.
    + intros y [<-|Hy]; [apply order_refl|].
      apply le_trans with h; [exact E|now apply Hl].
    + intros y [<-|Hy]; [apply order_refl|].
      apply insert_row_in in Hy. destruct Hy as [->|Hy].
      * destruct (le_total x h); congruence.
      * apply Hl. now right.
Qed.

Lemma order_by_first (l : list A) :
first_is_least le (Sql.order_by le l).
Proof.
  induction l as [|h t IH]; simpl; [exact I|].
  now apply insert_row_first.
Qed.
End OrderByFacts.

(** ** Sorted results *)

Section OrderBySorted.
Context {A : Type} (le : A -> A -> bool).
Hypothesis le_total : forall x y, le x y = true \/ le y x = true.
Hypothesis le_trans :
  forall x y z, le x y = true -> le y z = true -> le x z = true.

Lemma insert_row_sorted (x : A) (l : list A) :
  StronglySorted (fun a b => le a b = true) l ->
  StronglySorted (fun a b => le a b = true) (Sql.insert_row le x l).
Proof.
  induction 1 as [|h t Ht IH Hh]; simpl.
  - repeat constructor.
  - destruct (le x h) eqn:E.
    + constructor; [now constructor|].
      constructor; [exact E|].
      apply Forall_forall. intros y Hy.
      apply le_trans with h; [exact E|].
      now apply (proj1 (Forall_forall _ _) Hh).
    + constructor; [exact IH|].
      apply Forall_forall. intros y Hy.
      apply (insert_row_in le) in Hy. destruct Hy as [->|Hy].
      * destruct (le_total x h); congruence.
      * now apply (proj1 (Forall_forall _ _) Hh).
Qed.

Lemma order_by_sorted (l : list A) :
  StronglySorted (fun a b => le a b = true) (Sql.order_by le l).
Proof.
  induction l as [|h t IH]; simpl; [constructor|].
  now apply insert_row_sorted.
Qed.

Lemma insert_row_length (x : A) (l : list A) :
  List.length (Sql.insert_row le x l) = S (List.length l).
Proof.
  induction l as [|h t IH]; simpl; [reflexivity|].
  destruct (le x h); simpl; congruence.
Qed.

Lemma order_by_length (l : list A) :
  List.length (Sql.order_by le l) = List.length l.
Proof.
  induction l as [|h t IH]; simpl; [reflexivity|].
  now rewrite insert_row_length, IH.
Qed.
End OrderBySorted.

Lemma sorted_filter {A : Type} (R : A -> A -> Prop) (g : A -> bool)
  (l : list A) :
  StronglySorted R l -> StronglySorted R (filter g l).
Proof.
  induction 1 as [|h t Ht IH Hh]; simpl; [constructor|].
  destruct (g h); [|exact IH].
  constructor; [exact IH|].
  apply Forall_forall. intros y Hy. apply filter_In in Hy.
  now apply (proj1 (Forall_forall _ _) Hh).
Qed.

Lemma sorted_map {A B : Type} (R : B -> B -> Prop) (k : A -> B) (l : list A) :
  StronglySorted (fun a b => R (k a) (k b)) l -> StronglySorted R (map k l).
Proof.
  induction 1 as [|h t Ht IH Hh]; simpl; constructor; [exact IH|].
  apply Forall_forall. intros y Hy. apply in_map_iff in Hy.
  destruct Hy as [x [<- Hx]]. now apply (proj1 (Forall_forall _ _) Hh).
Qed.

Lemma map_result_ok {A B : Type} (f : A -> result B) (l : list A) :
  forall l', map_result f l = Ok l' -> Forall2 (fun x y => f x = Ok y) l l'.
Proof.
  induction l as [|x r IH]; simpl; intros l' H.
  - injection H as <-. constructor.
  - destruct (f x) as [y|] eqn:E; simpl in H; [|discriminate].
    destruct (map_result f r) as [ys|]; simpl in H; [|discriminate].
    injection H as <-. constructor; [exact E|now apply IH].
Qed.

Lemma filter_result_ok {A : Type} (f : A -> result bool) (l : list A) :
  forall l', filter_result f l = Ok l' ->
  l' = filter (fun x => match f x with Ok b => b | Raise _ => false end) l.
Proof.
  induction l as [|x r IH]; simpl; intros l' H.
  - now injection H as <-.
  - destruct (f x) as [b|]; simpl in H; [|discriminate].
    destruct (filter_result f r) as [ys|]; simpl in H; [|discriminate].
    injection H as <-. rewrite (IH ys eq_refl). reflexivity.
Qed.

Lemma forall2_map_eq {A B C : Type} (P : A -> B -> Prop) (k : A -> C)
  (k' : B -> C) (l : list A) (l' : list B) :
  (forall x y, P x y -> k' y = k x) -> Forall2 P l l' -> map k' l' = map k l.
Proof.
  intros H. induction 1 as [|x y l l' Hxy _ IH]; simpl; [reflexivity|].
  now rewrite (H x y Hxy), IH.
Qed.

Lemma nocase_le_total (a b : string) :
  Sql.nocase_le a b = true \/ Sql.nocase_le b a = true.
Proof. apply String.leb_total. Qed.

Lemma nocase_le_trans (a b c : string) :
  Sql.nocase_le a b = true -> Sql.nocase_le b c = true ->
  Sql.nocase_le a c = true.
Proof. apply string_leb_trans. Qed.

(** ** Invariants of the reachable stores *)

Lemma isoformat_not_empty (d : datetime) : isoformat d <> "".
Proof. unfold isoformat. simpl. discriminate. Qed.

Lemma or_else_not_empty (x : option string) (d : string) :
  d <> "" -> or_else x d <> "".
Proof.
  intros Hd. destruct x as [s|]; simpl; [|exact Hd].
  destruct s; simpl; [exact Hd|discriminate].
Qed.

Lemma select_plant_in (db : store) (pid : Z) (row : Plants.row) :
  Sql.select_plant db pid = Some row ->
  In row (plants db) /\ Plants.id row = pid.
Proof.
  intros H. apply find_some in H. destruct H as [H1 H2].
  split; [exact H1|]. now apply Z.eqb_eq.
Qed.

Lemma inv_empty : store_inv empty_store.
Proof. split; simpl; intros ? []. Qed.

Lemma inv_insert_plant (db : store) (name : string)
  (species location : option string) (interval : Z) (notes : option string)
  (c u : string) :
  store_inv db -> 1 <= interval ->
  store_inv (snd (Sql.insert_plant db name species location interval notes c u)).
Proof.
  intros [Ho Hi Ht] Hint. split; simpl.
  - intros w Hw. destruct (Ho w Hw) as [r [Hr E]].
    exists r. split; [|exact E]. apply in_or_app. now left.
  - intros r Hr. apply in_app_or in Hr. destruct Hr as [Hr|[<-|[]]]; auto.
  - exact Ht.
Qed.

Lemma inv_update_plant_row (db : store) (pid : Z) (name : string)
  (species location : option string) (interval : Z) (notes : option string)
  (u : string) :
  store_inv db -> 1 <= interval ->
  store_inv (Sql.update_plant_row db pid name species location interval notes u).
Proof.
  intros [Ho Hi Ht] Hint. split; simpl.
  - intros w Hw. destruct (Ho w Hw) as [r [Hr E]].
    eexists. split; [apply in_map; exact Hr|].
    simpl. destruct (Plants.id r =? pid) eqn:Eid; simpl; [|exact E].
    apply Z.eqb_eq in Eid. congruence.
  - intros r Hr. apply in_map_iff in Hr. destruct Hr as [r0 [<- Hr0]].
    destruct (Plants.id r0 =? pid); simpl; auto.
  - exact Ht.
Qed.

Lemma inv_delete (db : store) (pid : Z) :
  store_inv db ->
  store_inv (Sql.delete_logs_where_plant (Sql.delete_plants_where_id db pid) pid).
Proof.
  intros [Ho Hi Ht]. split; simpl.
  - intros w Hw. apply filter_In in Hw. destruct Hw as [Hw Hne].
    destruct (Ho w Hw) as [r [Hr E]].
    exists r. split; [|exact E]. apply filter_In. split; [exact Hr|].
    now rewrite E.
  - intros r Hr. apply filter_In in Hr. now apply Hi.
  - intros w Hw. apply filter_In in Hw. now apply Ht.
Qed.

Lemma inv_insert_log (db : store) (pid : Z) (row : Plants.row)
  (watered_at note : string) :
  store_inv db -> Sql.select_plant db pid = Some row -> watered_at <> "" ->
  store_inv (Sql.insert_log db pid watered_at note).
Proof.
  intros [Ho Hi Ht] Hsel Hw. apply select_plant_in in Hsel.
  destruct Hsel as [Hin Hid]. split; simpl.
  - intros w H. apply in_app_or in H. destruct H as [H|[<-|[]]]; auto.
    exists row. now split.
  - exact Hi.
  - intros w H. apply in_app_or in H. destruct H as [H|[<-|[]]]; auto.
Qed.

Lemma form_interval_positive (py_int : string -> option Z) (x : option string) :
  1 <= try_except (form_interval py_int x) (fun i => i) (fun _ => 7).
Proof.
  unfold form_interval. destruct x as [s|]; simpl; [|lia].
  destruct (truthy s); simpl; [|lia].
  destruct (py_int s); simpl; lia.
Qed.

Lemma json_interval_positive (py_int : string -> option Z) (x : jinterval)
  (d fallback : Z) :
  1 <= fallback ->
  1 <= try_except (json_interval py_int x d) (fun i => i) (fun _ => fallback).
Proof.
  intros Hf. unfold json_interval. destruct x as [|s|n]; simpl; try lia.
  - destruct (truthy s); simpl; [|lia]. destruct (py_int s); simpl; lia.
  - destruct (n =? 0); simpl; lia.
Qed.

Lemma inv_serve (py_int : string -> option Z) (now : datetime)
  (req : request) (db : store) :
  store_inv db -> store_inv (serve py_int now req db).
Proof.
  intros Hinv.
  assert (Hnow : now_iso now <> "") by apply isoformat_not_empty.
  destruct req as [form|pid form|pid|pid w n|pid d n|m data|m pid data
                  |pid w n|]; simpl.
  - unfold create_plant.
    destruct (negb (truthy (strip (or_else (form_name form) ""))));
      [exact Hinv|].
    apply inv_insert_plant; [exact Hinv|apply form_interval_positive].
  - unfold update_plant.
    destruct (Sql.select_plant db pid); [|exact Hinv].
    apply inv_update_plant_row; [exact Hinv|apply form_interval_positive].
  - now apply inv_delete.
  - unfold log_water.
    destruct (Sql.select_plant db pid) as [row|] eqn:Hsel; [|exact Hinv].
    simpl. eapply inv_insert_log; eauto. now apply or_else_not_empty.
  - unfold log_water_backdate.
    destruct (Sql.select_plant db pid) as [row|] eqn:Hsel; [|exact Hinv].
    simpl. eapply inv_insert_log; eauto.
    destruct (fromisoformat_arg d); simpl;
      [apply isoformat_not_empty|exact Hnow].
  - unfold api_plants. destruct m;
      try (destruct (negb (truthy (strip (or_else (jget (json_name data)) ""))));
           [exact Hinv|];
           apply inv_insert_plant;
           [exact Hinv|apply json_interval_positive; lia]).
    destruct (api_plants_rows db); exact Hinv.
  - unfold api_plant.
    destruct (Sql.select_plant db pid) as [row|] eqn:Hsel; [|exact Hinv].
    pose proof (inv_interval db Hinv row
                  (proj1 (select_plant_in db pid row Hsel))) as Hrow.
    destruct m;
      try (apply inv_update_plant_row;
           [exact Hinv|now apply json_interval_positive]).
    + destruct (compute_next_watering db row); exact Hinv.
    + now apply inv_delete.
  - unfold api_log_water.
    destruct (Sql.select_plant db pid) as [row|] eqn:Hsel; [|exact Hinv].
    simpl. eapply inv_insert_log; eauto. now apply or_else_not_empty.
  - split; simpl; intros ? [].
Qed.

Lemma reachable_inv (py_int : string -> option Z) (db : store) :
  reachable py_int db -> store_inv db.
Proof.
  induction 1 as [|db now req _ IH _]; [apply inv_empty|].
  now apply inv_serve.
Qed.

Lemma fern_store_reachable : reachable int_of_numeral fern_store.
Proof. apply reach_serve; [apply reach_empty|]. split; reflexivity. Qed.

(** ** Creation timestamps *)

Lemma created_uniform_insert_plant (db : store) (name : string)
  (species location : option string) (interval : Z) (notes : option string)
  (c u : string) :
  created_uniform db -> uniform_utc_text c ->
  created_uniform
    (snd (Sql.insert_plant db name species location interval notes c u)).
Proof.
  intros H Hc r Hr. simpl in Hr. apply in_app_or in Hr.
  destruct Hr as [Hr|[<-|[]]]; [now apply H|exact Hc].
Qed.

Lemma created_uniform_update_plant_row (db : store) (pid : Z) (name : string)
  (species location : option string) (interval : Z) (notes : option string)
  (u : string) :
  created_uniform db ->
  created_uniform
    (Sql.update_plant_row db pid name species location interval notes u).
Proof.
  intros H r Hr. simpl in Hr. apply in_map_iff in Hr.
  destruct Hr as [r0 [<- Hr0]].
  destruct (Plants.id r0 =? pid); simpl; now apply H.
Qed.

Lemma created_uniform_delete (db : store) (pid : Z) :
  created_uniform db ->
  created_uniform
    (Sql.delete_logs_where_plant (Sql.delete_plants_where_id db pid) pid).
Proof.
  intros H r Hr. simpl in Hr. apply filter_In in Hr. now apply H.
Qed.

Lemma created_uniform_serve (py_int : string -> option Z) (now : datetime)
  (req : request) (db : store) :
  utc_clock now -> created_uniform db ->
  created_uniform (serve py_int now req db).
Proof.
  intros Hclock H.
  pose proof (now_iso_uniform now Hclock) as Hnow.
  destruct req as [form|pid form|pid|pid w n|pid d n|m data|m pid data
                  |pid w n|]; simpl.
  - unfold create_plant.
    destruct (negb (truthy (strip (or_else (form_name form) ""))));
      [exact H|].
    now apply created_uniform_insert_plant.
  - unfold update_plant.
    destruct (Sql.select_plant db pid); [|exact H].
    now apply created_uniform_update_plant_row.
  - now apply created_uniform_delete.
  - unfold log_water. destruct (Sql.select_plant db pid); exact H.
  - unfold log_water_backdate. destruct (Sql.select_plant db pid); exact H.
  - unfold api_plants. destruct m;
      try (destruct (negb (truthy (strip (or_else (jget (json_name data)) ""))));
           [exact H|];
           now apply created_uniform_insert_plant).
    destruct (api_plants_rows db); exact H.
  - unfold api_plant.
    destruct (Sql.select_plant db pid) as [row|]; [|exact H].
    destruct m; try now apply created_uniform_update_plant_row.
    + destruct (compute_next_watering db row); exact H.
    + now apply created_uniform_delete.
  - unfold api_log_water. destruct (Sql.select_plant db pid); exact H.
  - intros r [].
Qed.

(** Every creation timestamp of a reachable store is a clock reading in
    the uniform representation. *)
Lemma reachable_created_uniform (py_int : string -> option Z) (db : store) :
  reachable py_int db -> created_uniform db.
Proof.
  induction 1 as [|db now req _ IH Hclock]; [intros r []|].
  now apply created_uniform_serve.
Qed.

(** ** The last watering *)

Lemma by_watered_at_desc_total (x y : WaterLogs.row) :
  by_watered_at_desc x y = true \/ by_watered_at_desc y x = true.
Proof.
  unfold by_watered_at_desc, Sql.text_le.
  destruct (String.leb_total (WaterLogs.watered_at x) (WaterLogs.watered_at y));
    auto.
Qed.

Lemma by_watered_at_desc_trans (x y z : WaterLogs.row) :
  by_watered_at_desc x y = true -> by_watered_at_desc y z = true ->
  by_watered_at_desc x z = true.
Proof.
  unfold by_watered_at_desc, Sql.text_le. intros H1 H2.
  now apply string_leb_trans with (WaterLogs.watered_at y).
Qed.

Lemma get_last_watered_none (db : store) (pid : Z) :
  get_last_watered db pid = None <-> event_texts db pid = [].
Proof.
  unfold get_last_watered, event_texts.
  fold by_watered_at_desc.
  destruct (Sql.order_by by_watered_at_desc (Sql.logs_of db pid)) eqn:E.
  - apply order_by_nil in E. rewrite E. simpl. tauto.
  - split; [discriminate|]. intros H. apply map_eq_nil in H.
    rewrite H in E. discriminate.
Qed.

Lemma get_last_watered_greatest (db : store) (pid : Z) (s : string) :
  get_last_watered db pid = Some s -> greatest_event_text db pid s.
Proof.
  unfold get_last_watered, greatest_event_text, event_texts.
  fold by_watered_at_desc.
  pose proof (order_by_first by_watered_at_desc by_watered_at_desc_total
                by_watered_at_desc_trans (Sql.logs_of db pid)) as F.
  destruct (Sql.order_by by_watered_at_desc (Sql.logs_of db pid))
    as [|r t] eqn:E; [discriminate|].
  intros [= <-]. simpl in F.
  assert (Hr : In r (Sql.logs_of db pid)).
  { apply (order_by_in by_watered_at_desc). rewrite E. now left. }
  split; [now apply in_map|].
  intros e He. apply in_map_iff in He. destruct He as [w [<- Hw]].
  assert (Hs : In w (Sql.order_by by_watered_at_desc (Sql.logs_of db pid)))
    by now apply order_by_in.
  rewrite E in Hs. exact (F w Hs).
Qed.

(** A greatest text is unique, so it is the one the lookup returns. *)
Lemma greatest_event_text_is_last (db : store) (pid : Z) (s : string) :
  greatest_event_text db pid s -> get_last_watered db pid = Some s.
Proof.
  intros [Hin Hmax].
  destruct (get_last_watered db pid) as [s'|] eqn:E.
  - destruct (get_last_watered_greatest db pid s' E) as [Hin' Hmax'].
    f_equal. apply String.leb_antisym; auto.
  - apply get_last_watered_none in E. rewrite E in Hin. destruct Hin.
Qed.

(** ** The last watering and the most recent event *)

Lemma uniform_instant (s : string) :
  uniform_utc_text s ->
  exists d, parse_iso s = Some d /\ valid d = true /\ tzinfo d = Some 0
            /\ isoformat d = s /\ instant_of_text s = Some (naive_us d).
Proof.
  intros [d [Hp [Hz Hi]]]. exists d.
  repeat split; try assumption.
  - now apply parse_iso_valid with s.
  - unfold instant_of_text, instant. rewrite Hp, Hz. f_equal. lia.
Qed.

(** Among uniform texts, text order and time order agree. *)
Lemma uniform_order (e s : string) (u t : Z) :
  uniform_utc_text e -> uniform_utc_text s ->
  instant_of_text e = Some u -> instant_of_text s = Some t ->
  (String.leb e s = true <-> u <= t).
Proof.
  intros He Hs Hu Ht.
  destruct (uniform_instant e He) as [de [_ [Ve [Ze [Ie Ue]]]]].
  destruct (uniform_instant s Hs) as [ds [_ [Vs [Zs [Is Us]]]]].
  rewrite Ue in Hu. rewrite Us in Ht.
  injection Hu as <-. injection Ht as <-.
  unfold String.leb. rewrite <- Ie, <- Is.
  rewrite isoformat_utc_compare by assumption.
  destruct (Z.compare_spec (naive_us de) (naive_us ds)); split;
    try reflexivity; try discriminate; lia.
Qed.

Lemma greatest_uniform_is_most_recent (db : store) (pid : Z) (s : string) :
  (forall e, In e (event_texts db pid) -> uniform_utc_text e) ->
  greatest_event_text db pid s -> most_recent_event db pid s.
Proof.
  intros Hu [Hin Hmax]. split; [exact Hin|].
  destruct (uniform_instant s (Hu s Hin)) as [ds [_ [_ [_ [_ Us]]]]].
  exists (naive_us ds). split; [exact Us|].
  intros e He.
  destruct (uniform_instant e (Hu e He)) as [de [_ [_ [_ [_ Ue]]]]].
  exists (naive_us de). split; [exact Ue|].
  apply (uniform_order e s); auto.
Qed.

Lemma most_recent_uniform_is_greatest (db : store) (pid : Z) (s : string) :
  (forall e, In e (event_texts db pid) -> uniform_utc_text e) ->
  most_recent_event db pid s -> greatest_event_text db pid s.
Proof.
  intros Hu [Hin [t [Ht Hall]]]. split; [exact Hin|].
  intros e He. destruct (Hall e He) as [u [Hue Hle]].
  apply (uniform_order e s u t); auto.
Qed.

(** C10: the last-watered lookup returns nothing exactly for a plant
    without events, and otherwise the stored timestamp that is greatest
    in text order.  When every stored timestamp of the plant is in the
    uniform UTC representation this is the most recent event; with mixed
    representations it need not be, as in [mixed_store]. *)
Theorem last_watered_is_greatest_text (db : store) (pid : Z) :
  (get_last_watered db pid = None <-> event_texts db pid = [])
  /\ (forall s, get_last_watered db pid = Some s
                <-> greatest_event_text db pid s)
  /\ (forall s,
        (forall e, In e (event_texts db pid) -> uniform_utc_text e) ->
        get_last_watered db pid = Some s -> most_recent_event db pid s)
  /\ (get_last_watered mixed_store 1 = Some "2024-01-05T00:00:00+00:00"
      /\ ~ most_recent_event mixed_store 1 "2024-01-05T00:00:00+00:00"
      /\ most_recent_event mixed_store 1 "2024-01-04T23:00:00-05:00").
Proof.
  split; [apply get_last_watered_none|].
  split.
  { intros s. split;
      [apply get_last_watered_greatest|apply greatest_event_text_is_last]. }
  split.
  { intros s Hu Hs. apply greatest_uniform_is_most_recent; [exact Hu|].
    now apply get_last_watered_greatest. }
  split; [reflexivity|]. split.
  - intros [_ [t [Ht Hall]]].
    destruct (Hall "2024-01-04T23:00:00-05:00") as [u [Hu Hle]].
    { vm_compute. auto. }
    vm_compute in Ht, Hu. injection Ht as <-. injection Hu as <-.
    vm_compute in Hle. now apply Hle.
  - split; [vm_compute; auto|].
    eexists. split; [vm_compute; reflexivity|].
    intros e He. vm_compute in He.
    destruct He as [<-|[<-|[]]]; eexists; (split; [vm_compute; reflexivity|]);
      vm_compute; discriminate.
Qed.

Lemma last_watered_is_greatest_text_witness :
  event_texts watered_store 1
  = ["2024-01-01T09:00:00+00:00"; "2023-12-24T00:00:00+00:00"]
  /\ most_recent_event watered_store 1 "2024-01-01T09:00:00+00:00".
Proof.
  split; [reflexivity|].
  apply (proj1 (proj2 (proj2 (last_watered_is_greatest_text watered_store 1)))).
  - intros e He. vm_compute in He. destruct He as [<-|[<-|[]]];
      (eexists; split; [vm_compute; reflexivity|]; split; reflexivity).
  - reflexivity.
Defined.

(** ** The next watering *)

Lemma mixed_store_reachable : reachable int_of_numeral mixed_store.
Proof.
  unfold mixed_store.
  apply reach_serve; [apply reach_serve; [apply fern_store_reachable|]|];
    split; reflexivity.
Qed.

Lemma event_text_not_empty (db : store) (pid : Z) (s : string) :
  store_inv db -> In s (event_texts db pid) -> s <> "".
Proof.
  intros Hinv Hs. unfold event_texts in Hs. apply in_map_iff in Hs.
  destruct Hs as [w [<- Hw]]. apply filter_In in Hw.
  apply (inv_timestamp db Hinv). tauto.
Qed.

Lemma truthy_not_empty (s : string) : s <> "" -> truthy s = true.
Proof. destruct s; [congruence|reflexivity]. Qed.

Lemma next_watering_without_events (db : store) (row : Plants.row) :
  1 <= Plants.water_interval_days row ->
  event_texts db (Plants.id row) = [] ->
  compute_next_watering db row
  = plus_days (Plants.created_at row) (Plants.water_interval_days row).
Proof.
  intros Hn He. apply get_last_watered_none in He.
  unfold compute_next_watering, plus_days. rewrite He.
  replace (Plants.water_interval_days row =? 0) with false
    by (symmetry; apply Z.eqb_neq; lia).
  reflexivity.
Qed.

Lemma next_watering_with_events (db : store) (row : Plants.row) (s : string) :
  store_inv db -> 1 <= Plants.water_interval_days row ->
  greatest_event_text db (Plants.id row) s ->
  compute_next_watering db row
  = plus_days s (Plants.water_interval_days row).
Proof.
  intros Hinv Hn Hs.
  pose proof (event_text_not_empty db _ s Hinv (proj1 Hs)) as Hne.
  apply greatest_event_text_is_last in Hs.
  unfold compute_next_watering, plus_days.
  rewrite Hs, (truthy_not_empty s Hne).
  replace (Plants.water_interval_days row =? 0) with false
    by (symmetry; apply Z.eqb_neq; lia).
  reflexivity.
Qed.

(** C1, as the code has it: for a plant of a store reached through the
    handlers, the next watering is the base timestamp moved forward by
    the plant's interval in days.  The base is the creation timestamp
    when the plant has no events, and otherwise the event timestamp that
    is greatest in text order, whatever the other events are; when the
    plant's timestamps are all in the uniform UTC representation that is
    the most recent event.  The result is absent exactly when the base
    does not parse, which a creation timestamp always does; when the base
    parses and the date stays within the calendar, the result is the text
    of the same wall-clock time and offset, the interval later, and past
    the last day of year 9999 the computation raises OverflowError. *)
Theorem next_watering_from_base
  (py_int : string -> option Z) (db : store) (row : Plants.row) :
  reachable py_int db -> In row (plants db) ->
  let n := Plants.water_interval_days row in
  (event_texts db (Plants.id row) = [] ->
   compute_next_watering db row = plus_days (Plants.created_at row) n
   /\ parse_iso (Plants.created_at row) <> None)
  /\ (forall s, greatest_event_text db (Plants.id row) s ->
        compute_next_watering db row = plus_days s n)
  /\ (forall s,
        (forall e, In e (event_texts db (Plants.id row)) ->
                   uniform_utc_text e) ->
        most_recent_event db (Plants.id row) s ->
        compute_next_watering db row = plus_days s n)
  /\ (forall s, plus_days s n = Ok None <-> parse_iso s = None)
  /\ (forall s d, parse_iso s = Some d ->
        toordinal d + n <= MAXORDINAL ->
        exists d',
          plus_days s n = Ok (Some (isoformat d'))
          /\ valid d' = true
          /\ tzinfo d' = tzinfo d
          /\ naive_us d' = naive_us d + n * US_PER_DAY)
  /\ (forall s d, parse_iso s = Some d ->
        MAXORDINAL < toordinal d + n ->
        plus_days s n = Raise OverflowError).
Proof.
  intros Hreach Hrow n.
  pose proof (reachable_inv py_int db Hreach) as Hinv.
  pose proof (inv_interval db Hinv row Hrow) as Hn. fold n in Hn.
  split.
  { intros He. split; [now apply next_watering_without_events|].
    destruct (reachable_created_uniform py_int db Hreach row Hrow)
      as [d [Hd _]].
    rewrite Hd. discriminate. }
  split; [intros s Hs; now apply next_watering_with_events|].
  split.
  { intros s Hu Hs. apply next_watering_with_events; auto.
    now apply most_recent_uniform_is_greatest. }
  split; [intros s; apply plus_days_absent|].
  split; [intros s d Hp Hr; now apply plus_days_value|].
  intros s d Hp Hr. now apply plus_days_overflow with d.
Qed.

Lemma next_watering_from_base_witness :
  compute_next_watering mixed_store fern_row
  = plus_days "2024-01-05T00:00:00+00:00" 7.
Proof.
  apply (proj1 (proj2 (next_watering_from_base int_of_numeral mixed_store
                         fern_row mixed_store_reachable
                         (or_introl eq_refl)))).
  split; [left; reflexivity|].
  intros e [<-|[<-|[]]]; reflexivity.
Defined.

(** C1 fails where it takes the base from the most recent event: in
    [mixed_store] the most recent event of the plant is the one written
    at offset -05:00, and the next watering is seven days after the
    other event. *)
Lemma next_watering_not_from_most_recent :
  reachable int_of_numeral mixed_store
  /\ In fern_row (plants mixed_store)
  /\ most_recent_event mixed_store 1 "2024-01-04T23:00:00-05:00"
  /\ compute_next_watering mixed_store fern_row
     = Ok (Some "2024-01-12T00:00:00+00:00")
  /\ plus_days "2024-01-04T23:00:00-05:00" 7
     = Ok (Some "2024-01-11T23:00:00-05:00")
  /\ compute_next_watering mixed_store fern_row
     <> plus_days "2024-01-04T23:00:00-05:00"
          (Plants.water_interval_days fern_row).
Proof.
  split; [apply mixed_store_reachable|].
  split; [left; reflexivity|].
  split.
  { split; [vm_compute; auto|].
    eexists. split; [vm_compute; reflexivity|].
    intros e He. vm_compute in He.
    destruct He as [<-|[<-|[]]]; eexists; (split; [vm_compute; reflexivity|]);
      vm_compute; discriminate. }
  split; [vm_compute; reflexivity|].
  split; [vm_compute; reflexivity|].
  vm_compute. discriminate.
Qed.

(** ** The relative label *)

Lemma datetime_sub_instants (a b : datetime) (ia ib : Z) :
  instant a = Some ia -> instant b = Some ib ->
  datetime_sub a b = Ok (ia - ib).
Proof.
  unfold instant, datetime_sub.
  destruct (tzinfo a) as [oa|]; [|discriminate].
  destruct (tzinfo b) as [ob|]; [|discriminate].
  intros [= <-] [= <-]. f_equal. lia.
Qed.

(** C2, as the code has it: for an aware target and an aware clock
    reading the label is decided by the signed floor of the difference in
    days.  It is [today] for a target from the clock reading up to one
    day ahead, [in Nd] from one day ahead on, and [Nd ago] for every
    target in the past, from one microsecond back on; [N] is the
    magnitude of the floor. *)
Theorem human_delta_by_floor (now target : datetime) (a b : Z) :
  instant now = Some a -> instant target = Some b ->
  let days := (b - a) / US_PER_DAY in
  (0 <= b - a < US_PER_DAY -> human_delta now target = "today")
  /\ (US_PER_DAY <= b - a ->
      1 <= days /\ human_delta now target = "in " ++ str_of_int days ++ "d")
  /\ (b - a < 0 ->
      1 <= - days
      /\ human_delta now target = str_of_int (- days) ++ "d ago").
Proof.
  intros Ha Hb days. unfold human_delta.
  rewrite (datetime_sub_instants target now b a Hb Ha).
  unfold try_except, td_days. fold days.
  assert (HD : 0 < US_PER_DAY) by reflexivity.
  split; [|split].
  - intros H. assert (E : days = 0) by (apply Z.div_small; exact H).
    rewrite E. reflexivity.
  - intros H.
    assert (E : 1 <= days).
    { apply Z.div_le_lower_bound; lia. }
    split; [exact E|].
    destruct (Z.abs days <? 1) eqn:A; [apply Z.ltb_lt in A; lia|].
    destruct (0 <? days) eqn:P; [reflexivity|apply Z.ltb_ge in P; lia].
  - intros H.
    assert (E : days < 0).
    { apply Z.div_lt_upper_bound; lia. }
    split; [lia|].
    destruct (Z.abs days <? 1) eqn:A; [apply Z.ltb_lt in A; lia|].
    destruct (0 <? days) eqn:P; [apply Z.ltb_lt in P; lia|].
    replace (Z.abs days) with (- days) by lia. reflexivity.
Qed.

Lemma human_delta_by_floor_witness :
  human_delta clock0 (mkdatetime 2024 1 4 8 0 0 0 (Some 0)) = "in 2d".
Proof.
  exact (proj2 (proj1 (proj2 (human_delta_by_floor clock0
                                (mkdatetime 2024 1 4 8 0 0 0 (Some 0))
                                _ _ eq_refl eq_refl))
                  ltac:(vm_compute; discriminate))).
Defined.

(** C2 fails for a target in the recent past: one hour before the clock
    reading the two instants are less than a day apart and the label is
    [1d ago]. *)
Lemma human_delta_hour_ago_not_today :
  ~ (forall a b,
       instant clock0 = Some a ->
       instant (mkdatetime 2024 1 1 8 0 0 0 (Some 0)) = Some b ->
       Z.abs (b - a) < US_PER_DAY ->
       human_delta clock0 (mkdatetime 2024 1 1 8 0 0 0 (Some 0)) = "today").
Proof.
  intros H.
  specialize (H _ _ eq_refl eq_refl ltac:(vm_compute; reflexivity)).
  vm_compute in H. discriminate.
Qed.

(** A naive target has no label: the subtraction from the aware clock
    reading raises TypeError, which [human_delta] turns into the empty
    string. *)
Lemma human_delta_naive (now target : datetime) :
  tzinfo now <> None -> tzinfo target = None -> human_delta now target = "".
Proof.
  intros Hn Ht. unfold human_delta, datetime_sub. rewrite Ht.
  destruct (tzinfo now); [reflexivity|congruence].
Qed.

(** ** Logging a watering event *)

(** What the two log-now handlers store: the supplied text whenever it is
    not empty, whatever it is, and the clock reading otherwise. *)
Lemma log_water_stored (now : datetime) (db : store) (pid : Z)
  (row : Plants.row) (w n : option string) :
  Sql.select_plant db pid = Some row ->
  snd (log_water now pid w n db)
  = Sql.insert_log db pid (or_else w (now_iso now)) (or_else n "")
  /\ snd (api_log_water now pid w n db)
     = Sql.insert_log db pid (or_else w (now_iso now)) (or_else n "").
Proof.
  intros H. unfold log_water, api_log_water. rewrite H. split; reflexivity.
Qed.

(** C3: the log-now handlers store an unparsable [watered_at] as it was
    sent, where the specification has them store the current instant:
    on the store holding the plant Fern, the text [garbage] does not
    parse and is the timestamp of the inserted event, for the page and
    for the API. *)
Theorem log_water_stores_unparsable_text :
  parse_iso "garbage" = None
  /\ Sql.select_plant fern_store 1 <> None
  /\ water_logs (snd (log_water clock0 1 (Some "garbage") None fern_store))
     = [WaterLogs.mkrow 1 1 "garbage" ""]
  /\ water_logs (snd (api_log_water clock0 1 (Some "garbage") None fern_store))
     = [WaterLogs.mkrow 1 1 "garbage" ""]
  /\ now_iso clock0 = "2024-01-01T09:00:00+00:00".
Proof. repeat split; try reflexivity. discriminate. Qed.

(** ** Names at creation and after an update *)

(** A row that a create handler inserts has a name that is not empty. *)
Lemma create_stores_nonempty_name (py_int : string -> option Z)
  (now : datetime) (form : plant_form) (data : plant_json) (db : store)
  (r : Plants.row) :
  (In r (plants (snd (create_plant py_int now form db)))
   \/ In r (plants (committed (api_plants py_int now POST data db) db))) ->
  In r (plants db) \/ Plants.name r <> "".
Proof.
  unfold create_plant, api_plants.
  intros [H|H].
  - destruct (strip (or_else (form_name form) "")) eqn:E; simpl in H;
      [now left|].
    apply in_app_or in H. destruct H as [H|[<-|[]]]; [now left|right].
    simpl. discriminate.
  - destruct (strip (or_else (jget (json_name data)) "")) eqn:E; simpl in H;
      [now left|].
    apply in_app_or in H. destruct H as [H|[<-|[]]]; [now left|right].
    simpl. discriminate.
Qed.

(** The API update keeps the stored name when the body has no name or an
    empty one. *)
Lemma api_update_without_name (py_int : string -> option Z) (now : datetime)
  (db : store) (pid : Z) (row : Plants.row) (data : plant_json) :
  Sql.select_plant db pid = Some row ->
  or_else (jget (json_name data)) "" = "" ->
  exists db',
    api_plant py_int now PUT pid data db
    = Ok (Jsonify (JDict [("ok", JBool true)]) 200, db')
    /\ forall r, In r (plants db') -> Plants.id r = pid ->
         Plants.name r = strip (Plants.name row).
Proof.
  intros Hsel Hname. unfold api_plant. rewrite Hsel.
  eexists. split; [reflexivity|].
  intros r Hr Hid. simpl in Hr. apply in_map_iff in Hr.
  destruct Hr as [r0 [Hr0 _]].
  assert (E : or_else (jget (json_name data)) (Plants.name row)
              = Plants.name row).
  { destruct (jget (json_name data)) as [s|]; simpl in *; [|reflexivity].
    destruct s; [reflexivity|discriminate]. }
  destruct (Plants.id r0 =? pid) eqn:Eid.
  - subst r. simpl. now rewrite E.
  - subst r. apply Z.eqb_neq in Eid. contradiction.
Qed.

(** C4: an update can leave a plant with an empty name.  On the store
    holding the plant Fern, the page update with an empty name field and
    the API update with a name of blanks both succeed and store the empty
    string as the name. *)
Theorem update_can_store_empty_name :
  reachable int_of_numeral fern_store
  /\ map Plants.name (plants fern_store) = ["Fern"]
  /\ fst (update_plant int_of_numeral clock0 1 (form_named "") fern_store)
     = Redirect "index" (Some 1)
  /\ map Plants.name
       (plants (snd (update_plant int_of_numeral clock0 1 (form_named "")
                       fern_store))) = [""]
  /\ map Plants.name
       (plants (committed (api_plant int_of_numeral clock0 PUT 1
                             (json_named "   ") fern_store) fern_store))
     = [""].
Proof.
  split.
  - apply reach_serve; [apply reach_empty|]. split; reflexivity.
  - repeat split; reflexivity.
Qed.

(** ** Deleting a plant *)

Lemma logs_of_after_delete_same (db : store) (pid : Z) :
  Sql.logs_of (Sql.delete_logs_where_plant db pid) pid = [].
Proof.
  unfold Sql.logs_of, Sql.delete_logs_where_plant; simpl.
  apply filter_none. intros w Hw.
  apply filter_In in Hw. destruct Hw as [_ Hw].
  now apply negb_true_iff in Hw.
Qed.

Lemma logs_of_after_delete_other (db : store) (pid q : Z) :
  q <> pid ->
  Sql.logs_of (Sql.delete_logs_where_plant db pid) q = Sql.logs_of db q.
Proof.
  intros Hq. unfold Sql.logs_of, Sql.delete_logs_where_plant; simpl.
  rewrite filter_filter. apply filter_ext. intros w.
  destruct (WaterLogs.plant_id w =? q) eqn:E; [|now rewrite andb_false_r].
  apply Z.eqb_eq in E. rewrite andb_true_r.
  apply negb_true_iff, Z.eqb_neq. congruence.
Qed.

Lemma logs_of_delete_plants (db : store) (pid q : Z) :
  Sql.logs_of (Sql.delete_plants_where_id db pid) q = Sql.logs_of db q.
Proof. reflexivity. Qed.

(** C5: after the page handler has run for an identifier, and after the
    API handler has deleted a plant, no watering event of the store
    refers to that identifier, and the events of every other plant are
    the ones that were there before, in the same order. *)
Theorem delete_removes_events_of_plant
  (py_int : string -> option Z) (now : datetime) (db : store) (pid : Z)
  (data : plant_json) :
  (let db1 := snd (delete_plant pid db) in
   Sql.logs_of db1 pid = []
   /\ (forall w, In w (water_logs db1) -> WaterLogs.plant_id w <> pid)
   /\ forall q, q <> pid -> Sql.logs_of db1 q = Sql.logs_of db q)
  /\ (forall row, Sql.select_plant db pid = Some row ->
      exists db2,
        api_plant py_int now DELETE pid data db
        = Ok (Jsonify (JDict [("ok", JBool true)]) 200, db2)
        /\ Sql.logs_of db2 pid = []
        /\ (forall w, In w (water_logs db2) -> WaterLogs.plant_id w <> pid)
        /\ forall q, q <> pid -> Sql.logs_of db2 q = Sql.logs_of db q).
Proof.
  assert (Hgone : forall w,
             In w (water_logs
                     (Sql.delete_logs_where_plant
                        (Sql.delete_plants_where_id db pid) pid)) ->
             WaterLogs.plant_id w <> pid).
  { intros w Hw. simpl in Hw. apply filter_In in Hw.
    destruct Hw as [_ Hw]. apply negb_true_iff in Hw.
    now apply Z.eqb_neq. }
  split.
  - cbn zeta. unfold delete_plant; simpl snd.
    split; [apply logs_of_after_delete_same|].
    split; [exact Hgone|].
    intros q Hq. now rewrite logs_of_after_delete_other.
  - intros row Hsel. unfold api_plant. rewrite Hsel.
    eexists. split; [reflexivity|].
    split; [apply logs_of_after_delete_same|].
    split; [exact Hgone|].
    intros q Hq. now rewrite logs_of_after_delete_other.
Qed.

Lemma delete_removes_events_of_plant_witness :
  List.length (Sql.logs_of mixed_store 1) = 2%nat
  /\ Sql.logs_of (snd (delete_plant 1 mixed_store)) 1 = []
  /\ exists db2,
       api_plant int_of_numeral clock0 DELETE 1 (json_named "") mixed_store
       = Ok (Jsonify (JDict [("ok", JBool true)]) 200, db2)
       /\ Sql.logs_of db2 1 = [].
Proof.
  split; [reflexivity|].
  destruct (delete_removes_events_of_plant int_of_numeral clock0 mixed_store
              1 (json_named "")) as [[Hpage _] Hapi].
  split; [exact Hpage|].
  destruct (Hapi fern_row eq_refl) as [db2 [H1 [H2 _]]].
  exists db2. split; assumption.
Defined.

(** Deleting an identifier that names no plant changes nothing in a
    store without orphaned events. *)
Lemma delete_absent_plant (db : store) (pid : Z) :
  store_inv db -> Sql.select_plant db pid = None ->
  Sql.delete_logs_where_plant (Sql.delete_plants_where_id db pid) pid = db.
Proof.
  intros Hinv Hsel.
  pose proof (find_none_id _ _ Hsel) as Hids.
  unfold Sql.delete_logs_where_plant, Sql.delete_plants_where_id; simpl.
  rewrite !filter_all; [now destruct db| |].
  - intros w Hw. destruct (inv_owner db Hinv w Hw) as [r [Hr E]].
    apply negb_true_iff, Z.eqb_neq. rewrite <- E. now apply Hids.
  - intros r Hr. apply negb_true_iff, Z.eqb_neq. now apply Hids.
Qed.

(** Over unbounded integers and on a store reached through the
    handlers, the page handler deletes an identifier that names no plant
    without any change to the store, while the API handler answers 404;
    for an identifier that names a plant, both remove the plant. *)
Lemma delete_absent_and_present
  (py_int : string -> option Z) (now : datetime) (db : store) (pid : Z)
  (data : plant_json) :
  reachable py_int db ->
  (Sql.select_plant db pid = None ->
   delete_plant pid db = (Redirect "index" None, db)
   /\ api_plant py_int now DELETE pid data db
      = Ok (Jsonify (JDict [("error", JStr "not found")]) 404, db))
  /\ (forall row, Sql.select_plant db pid = Some row ->
      exists db',
        delete_plant pid db = (Redirect "index" None, db')
        /\ api_plant py_int now DELETE pid data db
           = Ok (Jsonify (JDict [("ok", JBool true)]) 200, db')
        /\ Sql.select_plant db' pid = None).
Proof.
  intros Hreach. apply reachable_inv in Hreach. split.
  - intros Hsel. unfold delete_plant, api_plant. rewrite Hsel.
    rewrite delete_absent_plant by assumption. split; reflexivity.
  - intros row Hsel. unfold delete_plant, api_plant. rewrite Hsel.
    eexists. split; [reflexivity|]. split; [reflexivity|].
    unfold Sql.select_plant; simpl.
    destruct (find _ _) as [r|] eqn:F; [|reflexivity].
    apply find_some in F. destruct F as [F1 F2].
    apply filter_In in F1. destruct F1 as [_ F1].
    rewrite F2 in F1. discriminate.
Qed.

(** ** Creating a plant without a name *)

(** C7: a create request whose name is empty after trimming inserts no
    row; the form handler answers with the redirect to the dashboard,
    the API handler with status 400 and the body
    [{"error": "name required"}]. *)
Theorem create_with_empty_name
  (py_int : string -> option Z) (now : datetime) (form : plant_form) (data : plant_json) (db : store) :
  strip (or_else (form_name form) "") = "" ->
  strip (or_else (jget (json_name data)) "") = "" ->
  create_plant py_int now form db = (Redirect "index" None, db)
  /\ api_plants py_int now POST data db
     = Ok (Jsonify (JDict [("error", JStr "name required")]) 400, db).
Proof.
  intros Hf Hj. unfold create_plant, api_plants.
  rewrite Hf, Hj. simpl. split; reflexivity.
Qed.

Lemma create_with_empty_name_witness :
  create_plant int_of_numeral clock0 (form_named "   ") fern_store
  = (Redirect "index" None, fern_store).
Proof.
  exact (proj1 (create_with_empty_name int_of_numeral clock0
                  (form_named "   ") (json_named "") fern_store
                  eq_refl eq_refl)).
Defined.

(** ** The two plant lists *)

Lemma decorate_keeps_name (strftime_local : string -> datetime -> result string)
  (now : datetime) (db : store) (r : Plants.row) (p : dashboard_plant) :
  decorate strftime_local now db r = Ok p ->
  Plants.name (dp_row p) = Plants.name r.
Proof.
  unfold decorate, bind. intros H.
  repeat match type of H with
         | match ?x with Ok _ => _ | Raise _ => _ end = _ =>
             destruct x; try discriminate
         end.
  now injection H as <-.
Qed.

Lemma sorted_unmap {A B : Type} (R : B -> B -> Prop) (k : A -> B)
  (l : list A) :
  StronglySorted R (map k l) -> StronglySorted (fun a b => R (k a) (k b)) l.
Proof.
  induction l as [|h t IH]; simpl; intros H; [constructor|].
  inversion H as [|? ? Ht Hh]; subst.
  constructor; [now apply IH|].
  apply Forall_forall. intros y Hy.
  apply (proj1 (Forall_forall _ _) Hh). now apply in_map.
Qed.

(** The dashboard hands the template the plants in NOCASE order of their
    names, whatever the filters, and counts every plant of the store. *)
Lemma dashboard_in_nocase_order
  (strftime_local : string -> datetime -> result string) (now : datetime)
  (q show : option string) (db : store) (page : dashboard) :
  index strftime_local now q show db = Ok (Render page) ->
  StronglySorted (fun a b => Sql.nocase_le a b = true)
    (map (fun p => Plants.name (dp_row p)) (ctx_plants page))
  /\ ctx_total page = List.length (plants db).
Proof.
  unfold index.
  set (le := fun a b => Sql.nocase_le (Plants.name a) (Plants.name b)).
  destruct (map_result (decorate strftime_local now db)
              (Sql.order_by le (plants db))) as [all|] eqn:Eall;
    simpl; [|discriminate].
  destruct (filter_result _ all) as [filtered|] eqn:Ef; simpl; [|discriminate].
  intros [= <-]. simpl.
  apply map_result_ok in Eall. apply filter_result_ok in Ef. subst filtered.
  split.
  - apply (sorted_map (fun a b => Sql.nocase_le a b = true)
             (fun p => Plants.name (dp_row p))).
    apply sorted_filter.
    apply (sorted_unmap (fun a b => Sql.nocase_le a b = true)
             (fun p => Plants.name (dp_row p))).
    rewrite (forall2_map_eq _ Plants.name _ _ _
               (decorate_keeps_name strftime_local now db) Eall).
    apply (sorted_map (fun a b => Sql.nocase_le a b = true) Plants.name).
    apply (order_by_sorted le).
    + intros x y. apply nocase_le_total.
    + intros x y z. apply nocase_le_trans.
  - rewrite <- (order_by_length le (plants db)).
    symmetry. now apply Forall2_length in Eall.
Qed.

(** The API lists every plant of the store, in the BINARY order of the
    names, each with its last watering and its next watering. *)
Lemma api_list_in_text_order (db : store)
  (l : list (Plants.row * option string * option string)) :
  api_plants_rows db = Ok l ->
  map (fun x => fst (fst x)) l
  = Sql.order_by (fun a b => Sql.text_le (Plants.name a) (Plants.name b))
      (plants db)
  /\ StronglySorted (fun a b => Sql.text_le a b = true) (row_names l)
  /\ (forall r, In r (map (fun x => fst (fst x)) l) <-> In r (plants db))
  /\ (forall r last next, In (r, last, next) l ->
        last = get_last_watered db (Plants.id r)
        /\ compute_next_watering db r = Ok next).
Proof.
  unfold api_plants_rows.
  set (le := fun a b => Sql.text_le (Plants.name a) (Plants.name b)).
  intros H. apply map_result_ok in H.
  assert (K : forall (r : Plants.row) (y : Plants.row * option string * option string),
             (next <- compute_next_watering db r ;;
              Ok (r, get_last_watered db (Plants.id r), next)) = Ok y ->
             fst (fst y) = r
             /\ snd (fst y) = get_last_watered db (Plants.id r)
             /\ compute_next_watering db r = Ok (snd y)).
  { intros r y. destruct (compute_next_watering db r); simpl; [|discriminate].
    intros [= <-]. auto. }
  assert (E : map (fun x => fst (fst x)) l = Sql.order_by le (plants db)).
  { rewrite <- (map_id (Sql.order_by le (plants db))).
    apply forall2_map_eq with (2 := H). intros x y Hxy. now apply K. }
  split; [exact E|]. split; [|split].
  - unfold row_names.
    rewrite <- (map_map (fun x => fst (fst x)) Plants.name), E.
    apply (sorted_map (fun a b => Sql.text_le a b = true) Plants.name).
    apply (order_by_sorted le).
    + intros x y. apply String.leb_total.
    + intros x y z. apply string_leb_trans.
  - intros r. rewrite E. apply (order_by_in le).
  - intros r last next Hin.
    assert (F : Forall (fun y => exists x,
                   (next <- compute_next_watering db x ;;
                    Ok (x, get_last_watered db (Plants.id x), next)) = Ok y) l).
    { clear -H. induction H; constructor; eauto. }
    apply (proj1 (Forall_forall _ _) F) in Hin. destruct Hin as [x Hx].
    apply K in Hx. simpl in Hx. destruct Hx as [-> [-> Hn]]. auto.
Qed.

(** C9: the list of the API is not ordered case-insensitively.  With the
    plants apple and Banana in the store, the dashboard lists apple
    before Banana and the API lists Banana before apple, although apple
    precedes Banana when case is ignored; and the dashboard entry of a
    plant that was never watered has no next watering, where the API
    entry has one. *)
Theorem api_list_is_case_sensitive :
  reachable int_of_numeral fruit_store
  /\ dashboard_names (index strftime_utc_host clock0 None None fruit_store)
     = ["apple"; "Banana"]
  /\ option_map row_names
       (match api_plants_rows fruit_store with
        | Ok l => Some l
        | Raise _ => None
        end) = Some ["Banana"; "apple"]
  /\ Sql.nocase_le "apple" "Banana" = true
  /\ Sql.nocase_le "Banana" "apple" = false
  /\ match index strftime_utc_host clock0 None None fruit_store with
     | Ok (Render page) => map dp_next_watering (ctx_plants page)
     | _ => []
     end = [None; None]
  /\ match api_plants_rows fruit_store with
     | Ok l => map snd l
     | Raise _ => []
     end = [Some "2024-01-08T09:00:00+00:00"; Some "2024-01-08T09:00:00+00:00"].
Proof.
  split.
  - unfold fruit_store.
    apply reach_serve; [apply reach_serve; [apply reach_empty|]|];
      split; reflexivity.
  - repeat split; vm_compute; reflexivity.
Qed.

(** ** Row identifiers *)

Lemma sorted_snoc {A : Type} (R : A -> A -> Prop) (l : list A) (x : A) :
  StronglySorted R l -> (forall a, In a l -> R a x) ->
  StronglySorted R (l ++ [x]).
Proof.
  induction 1 as [|h t Ht IH Hh]; intros Hx; simpl.
  - repeat constructor.
  - constructor.
    + apply IH. intros a Ha. apply Hx. now right.
    + apply Forall_forall. intros y Hy. apply in_app_or in Hy.
      destruct Hy as [Hy|[<-|[]]].
      * now apply (proj1 (Forall_forall _ _) Hh).
      * apply Hx. now left.
Qed.

Lemma sorted_map_rel {A : Type} (R : A -> A -> Prop) (f : A -> A)
  (l : list A) :
  (forall a b, R a b -> R (f a) (f b)) ->
  StronglySorted R l -> StronglySorted R (map f l).
Proof.
  intros Hf. induction 1 as [|h t Ht IH Hh]; simpl; constructor; [exact IH|].
  apply Forall_forall. intros y Hy. apply in_map_iff in Hy.
  destruct Hy as [x [<- Hx]]. apply Hf.
  now apply (proj1 (Forall_forall _ _) Hh).
Qed.

Lemma sorted_lt_nodup {A : Type} (k : A -> Z) (l : list A) :
  StronglySorted (fun a b => k a < k b) l -> NoDup (map k l).
Proof.
  induction 1 as [|h t Ht IH Hh]; simpl; constructor; [|exact IH].
  intros Hin. apply in_map_iff in Hin. destruct Hin as [x [E Hx]].
  assert (L : k h < k x) by exact (proj1 (Forall_forall _ _) Hh x Hx). lia.
Qed.

Lemma ids_inv_empty : ids_inv empty_store.
Proof.
  split; simpl; try constructor; try (intros ? []); lia.
Qed.

Lemma ids_inv_insert_plant (db : store) (name : string)
  (species location : option string) (interval : Z) (notes : option string)
  (c u : string) :
  ids_inv db ->
  ids_inv (snd (Sql.insert_plant db name species location interval notes c u)).
Proof.
  intros [Ps Pb Ls Lb [C1 C2]]. split; simpl; auto.
  - apply sorted_snoc; [exact Ps|].
    intros a Ha. simpl. pose proof (Pb a Ha). lia.
  - intros r Hr. apply in_app_or in Hr. destruct Hr as [Hr|[<-|[]]].
    + pose proof (Pb r Hr). lia.
    + simpl. lia.
  - split; lia.
Qed.

Lemma ids_inv_update_plant_row (db : store) (pid : Z) (name : string)
  (species location : option string) (interval : Z) (notes : option string)
  (u : string) :
  ids_inv db ->
  ids_inv (Sql.update_plant_row db pid name species location interval notes u).
Proof.
  intros [Ps Pb Ls Lb C].
  assert (Hid : forall r,
             Plants.id
               (if Plants.id r =? pid
                then Plants.mkrow pid name species location interval notes
                       (Plants.created_at r) u
                else r) = Plants.id r).
  { intros r. destruct (Z.eqb_spec (Plants.id r) pid); simpl; congruence. }
  split; simpl; auto.
  - apply sorted_map_rel; [|exact Ps]. intros a b. now rewrite !Hid.
  - intros r Hr. apply in_map_iff in Hr. destruct Hr as [r0 [<- Hr0]].
    rewrite Hid. now apply Pb.
Qed.

Lemma ids_inv_delete (db : store) (pid : Z) :
  ids_inv db ->
  ids_inv (Sql.delete_logs_where_plant (Sql.delete_plants_where_id db pid) pid).
Proof.
  intros [Ps Pb Ls Lb C]. split; simpl; auto.
  - now apply sorted_filter.
  - intros r Hr. apply filter_In in Hr. now apply Pb.
  - now apply sorted_filter.
  - intros w Hw. apply filter_In in Hw. now apply Lb.
Qed.

Lemma ids_inv_insert_log (db : store) (pid : Z) (watered_at note : string) :
  ids_inv db -> ids_inv (Sql.insert_log db pid watered_at note).
Proof.
  intros [Ps Pb Ls Lb [C1 C2]]. split; simpl; auto.
  - apply sorted_snoc; [exact Ls|].
    intros a Ha. simpl. pose proof (Lb a Ha). lia.
  - intros w Hw. apply in_app_or in Hw. destruct Hw as [Hw|[<-|[]]].
    + pose proof (Lb w Hw). lia.
    + simpl. lia.
  - split; lia.
Qed.

Lemma ids_inv_serve (py_int : string -> option Z) (now : datetime)
  (req : request) (db : store) :
  ids_inv db -> ids_inv (serve py_int now req db).
Proof.
  intros H.
  destruct req as [form|pid form|pid|pid w n|pid d n|m data|m pid data
                  |pid w n|]; simpl.
  - unfold create_plant.
    destruct (negb (truthy (strip (or_else (form_name form) ""))));
      [exact H|].
    now apply ids_inv_insert_plant.
  - unfold update_plant.
    destruct (Sql.select_plant db pid); [|exact H].
    now apply ids_inv_update_plant_row.
  - now apply ids_inv_delete.
  - unfold log_water.
    destruct (Sql.select_plant db pid); [|exact H].
    now apply ids_inv_insert_log.
  - unfold log_water_backdate.
    destruct (Sql.select_plant db pid); [|exact H].
    now apply ids_inv_insert_log.
  - unfold api_plants. destruct m;
      try (destruct (negb (truthy (strip (or_else (jget (json_name data)) ""))));
           [exact H|];
           now apply ids_inv_insert_plant).
    destruct (api_plants_rows db); exact H.
  - unfold api_plant.
    destruct (Sql.select_plant db pid) as [row|]; [|exact H].
    destruct m; try now apply ids_inv_update_plant_row.
    + destruct (compute_next_watering db row); exact H.
    + now apply ids_inv_delete.
  - unfold api_log_water.
    destruct (Sql.select_plant db pid); [|exact H].
    now apply ids_inv_insert_log.
  - destruct H as [Ps Pb Ls Lb C]. split; simpl; auto;
      first [apply SSorted_nil | intros ? []].
Qed.

Lemma reachable_ids (py_int : string -> option Z) (db : store) :
  reachable py_int db -> ids_inv db.
Proof.
  induction 1 as [|db now req _ IH _]; [apply ids_inv_empty|].
  now apply ids_inv_serve.
Qed.

(** With distinct identifiers, the lookup by identifier finds each row. *)
Lemma select_plant_member (db : store) (r : Plants.row) :
  ids_inv db -> In r (plants db) -> Sql.select_plant db (Plants.id r) = Some r.
Proof.
  intros [Ps _ _ _ _]. unfold Sql.select_plant.
  induction Ps as [|h t Ht IH Hh]; intros Hr; [destruct Hr|].
  simpl. destruct Hr as [->|Hr].
  - now rewrite Z.eqb_refl.
  - assert (L : Plants.id h < Plants.id r)
      by exact (proj1 (Forall_forall _ _) Hh r Hr).
    destruct (Z.eqb_spec (Plants.id h) (Plants.id r)); [lia|].
    now apply IH.
Qed.

(** A plant of the next store whose identifier is not above the counter
    was a plant of the store before. *)
Lemma serve_no_old_id_reappears (py_int : string -> option Z)
  (now : datetime) (req : request) (db : store) (r : Plants.row) :
  In r (plants (serve py_int now req db)) ->
  Plants.id r <= plants_seq db ->
  exists r0, In r0 (plants db) /\ Plants.id r0 = Plants.id r.
Proof.
  assert (Hins : forall name species location interval notes c u,
             In r (plants (snd (Sql.insert_plant db name species location
                                  interval notes c u))) ->
             Plants.id r <= plants_seq db ->
             exists r0, In r0 (plants db) /\ Plants.id r0 = Plants.id r).
  { intros name species location interval notes c u Hr Hle. simpl in Hr.
    apply in_app_or in Hr. destruct Hr as [Hr|[<-|[]]]; [exists r; split; [exact Hr|reflexivity]|].
    simpl in Hle. lia. }
  assert (Hupd : forall pid name species location interval notes u,
             In r (plants (Sql.update_plant_row db pid name species location
                             interval notes u)) ->
             exists r0, In r0 (plants db) /\ Plants.id r0 = Plants.id r).
  { intros pid name species location interval notes u Hr. simpl in Hr.
    apply in_map_iff in Hr. destruct Hr as [r0 [<- Hr0]].
    exists r0. split; [exact Hr0|].
    destruct (Z.eqb_spec (Plants.id r0) pid); simpl; congruence. }
  assert (Hdel : forall pid,
             In r (plants (Sql.delete_logs_where_plant
                             (Sql.delete_plants_where_id db pid) pid)) ->
             exists r0, In r0 (plants db) /\ Plants.id r0 = Plants.id r).
  { intros pid Hr. simpl in Hr. apply filter_In in Hr.
    exists r. tauto. }
  destruct req as [form|pid form|pid|pid w n|pid d n|m data|m pid data
                  |pid w n|]; simpl; intros Hr Hle.
  - unfold create_plant in Hr.
    destruct (negb (truthy (strip (or_else (form_name form) ""))));
      [exists r; split; [exact Hr|reflexivity]|]. eapply Hins; [exact Hr|exact Hle].
  - unfold update_plant in Hr.
    destruct (Sql.select_plant db pid); [|exists r; split; [exact Hr|reflexivity]]. eapply Hupd; exact Hr.
  - eapply Hdel; exact Hr.
  - unfold log_water in Hr. destruct (Sql.select_plant db pid);
      exists r; (split; [exact Hr|reflexivity]).
  - unfold log_water_backdate in Hr.
    destruct (Sql.select_plant db pid);
      exists r; (split; [exact Hr|reflexivity]).
  - unfold api_plants in Hr. destruct m;
      try (destruct (negb (truthy (strip (or_else (jget (json_name data)) ""))));
           [exists r; split; [exact Hr|reflexivity]|]; eapply Hins; [exact Hr|exact Hle]).
    destruct (api_plants_rows db); exists r; (split; [exact Hr|reflexivity]).
  - unfold api_plant in Hr.
    destruct (Sql.select_plant db pid) as [row|]; [|exists r; split; [exact Hr|reflexivity]].
    destruct m; try (eapply Hupd; exact Hr).
    + destruct (compute_next_watering db row); exists r;
        (split; [exact Hr|reflexivity]).
    + eapply Hdel; exact Hr.
  - unfold api_log_water in Hr. destruct (Sql.select_plant db pid);
      exists r; (split; [exact Hr|reflexivity]).
  - destruct Hr.
Qed.

(** X1: in every store reached through the handlers the plants carry
    distinct identifiers between 1 and the AUTOINCREMENT counter, so the
    lookup by identifier returns exactly the row of that identifier; the
    events carry distinct identifiers as well; and no request brings an
    identifier back: a plant of the next store whose identifier is not
    above the counter was already a plant of the store. *)
Theorem identifiers_unique_never_reused
  (py_int : string -> option Z) (db : store) :
  reachable py_int db ->
  (forall r, In r (plants db) ->
     Sql.select_plant db (Plants.id r) = Some r
     /\ 1 <= Plants.id r <= plants_seq db)
  /\ NoDup (map Plants.id (plants db))
  /\ NoDup (map WaterLogs.id (water_logs db))
  /\ forall now req r,
       In r (plants (serve py_int now req db)) ->
       Plants.id r <= plants_seq db ->
       exists r0, In r0 (plants db) /\ Plants.id r0 = Plants.id r.
Proof.
  intros Hreach. pose proof (reachable_ids py_int db Hreach) as Hids.
  split; [|split; [|split]].
  - intros r Hr. split; [now apply select_plant_member|].
    now apply (ids_plants_bound db Hids).
  - apply sorted_lt_nodup. apply (ids_plants_sorted db Hids).
  - apply sorted_lt_nodup. apply (ids_logs_sorted db Hids).
  - intros now req r. apply serve_no_old_id_reappears.
Qed.

Lemma identifiers_unique_never_reused_witness :
  Sql.select_plant fruit_store 2
  = Some (Plants.mkrow 2 "Banana" (Some "") (Some "") 7 (Some "")
            "2024-01-01T09:00:00+00:00" "2024-01-01T09:00:00+00:00").
Proof.
  assert (R : reachable int_of_numeral fruit_store).
  { unfold fruit_store.
    apply reach_serve; [apply reach_serve; [apply reach_empty|]|];
      split; reflexivity. }
  exact (proj1 (proj1 (identifiers_unique_never_reused int_of_numeral
                         fruit_store R)
                  (Plants.mkrow 2 "Banana" (Some "") (Some "") 7 (Some "")
                     "2024-01-01T09:00:00+00:00" "2024-01-01T09:00:00+00:00")
                  (or_intror (or_introl eq_refl)))).
Defined.

(** ** Update timestamps *)

Lemma updated_uniform_serve (py_int : string -> option Z) (now : datetime)
  (req : request) (db : store) :
  utc_clock now ->
  (forall r, In r (plants db) -> uniform_utc_text (Plants.updated_at r)) ->
  forall r, In r (plants (serve py_int now req db)) ->
            uniform_utc_text (Plants.updated_at r).
Proof.
  intros Hclock H r.
  pose proof (now_iso_uniform now Hclock) as Hnow.
  assert (Hins : forall name species location interval notes,
             In r (plants (snd (Sql.insert_plant db name species location
                                  interval notes (now_iso now) (now_iso now)))) ->
             uniform_utc_text (Plants.updated_at r)).
  { intros name species location interval notes Hr. simpl in Hr.
    apply in_app_or in Hr. destruct Hr as [Hr|[<-|[]]]; [now apply H|].
    exact Hnow. }
  assert (Hupd : forall pid name species location interval notes,
             In r (plants (Sql.update_plant_row db pid name species location
                             interval notes (now_iso now))) ->
             uniform_utc_text (Plants.updated_at r)).
  { intros pid name species location interval notes Hr. simpl in Hr.
    apply in_map_iff in Hr. destruct Hr as [r0 [<- Hr0]].
    destruct (Plants.id r0 =? pid); simpl; [exact Hnow|now apply H]. }
  assert (Hdel : forall pid,
             In r (plants (Sql.delete_logs_where_plant
                             (Sql.delete_plants_where_id db pid) pid)) ->
             uniform_utc_text (Plants.updated_at r)).
  { intros pid Hr. simpl in Hr. apply filter_In in Hr. now apply H. }
  destruct req as [form|pid form|pid|pid w n|pid d n|m data|m pid data
                  |pid w n|]; simpl; intros Hr.
  - unfold create_plant in Hr.
    destruct (negb (truthy (strip (or_else (form_name form) ""))));
      [exact (H r Hr)|]. eapply Hins; exact Hr.
  - unfold update_plant in Hr.
    destruct (Sql.select_plant db pid); [|exact (H r Hr)].
    eapply Hupd; exact Hr.
  - eapply Hdel; exact Hr.
  - unfold log_water in Hr.
    destruct (Sql.select_plant db pid); exact (H r Hr).
  - unfold log_water_backdate in Hr.
    destruct (Sql.select_plant db pid); exact (H r Hr).
  - unfold api_plants in Hr. destruct m;
      try (destruct (negb (truthy (strip (or_else (jget (json_name data)) ""))));
           [exact (H r Hr)|]; eapply Hins; exact Hr).
    destruct (api_plants_rows db); exact (H r Hr).
  - unfold api_plant in Hr.
    destruct (Sql.select_plant db pid) as [row|]; [|exact (H r Hr)].
    destruct m; try (eapply Hupd; exact Hr).
    + destruct (compute_next_watering db row); exact (H r Hr).
    + eapply Hdel; exact Hr.
  - unfold api_log_water in Hr.
    destruct (Sql.select_plant db pid); exact (H r Hr).
  - destruct Hr.
Qed.

Lemma reachable_updated_uniform (py_int : string -> option Z) (db : store) :
  reachable py_int db ->
  forall r, In r (plants db) -> uniform_utc_text (Plants.updated_at r).
Proof.
  induction 1 as [|db now req _ IH Hclock]; [intros r []|].
  now apply updated_uniform_serve.
Qed.

(** X2: every plant of a store reached through the handlers has a
    watering interval of at least one day, and its creation and update
    timestamps are clock readings in the uniform UTC representation, so
    both parse. *)
Theorem plants_keep_interval_and_timestamps
  (py_int : string -> option Z) (db : store) (r : Plants.row) :
  reachable py_int db -> In r (plants db) ->
  1 <= Plants.water_interval_days r
  /\ uniform_utc_text (Plants.created_at r)
  /\ uniform_utc_text (Plants.updated_at r)
  /\ parse_iso (Plants.created_at r) <> None
  /\ parse_iso (Plants.updated_at r) <> None.
Proof.
  intros Hreach Hr.
  pose proof (reachable_created_uniform py_int db Hreach r Hr) as Hc.
  pose proof (reachable_updated_uniform py_int db Hreach r Hr) as Hu.
  split; [exact (inv_interval db (reachable_inv py_int db Hreach) r Hr)|].
  split; [exact Hc|]. split; [exact Hu|].
  destruct Hc as [dc [Hc _]]. destruct Hu as [du [Hu _]].
  rewrite Hc, Hu. split; discriminate.
Qed.

Lemma plants_keep_interval_and_timestamps_witness :
  1 <= Plants.water_interval_days fern_row
  /\ uniform_utc_text (Plants.created_at fern_row)
  /\ uniform_utc_text (Plants.updated_at fern_row)
  /\ parse_iso (Plants.created_at fern_row) <> None
  /\ parse_iso (Plants.updated_at fern_row) <> None.
Proof.
  exact (plants_keep_interval_and_timestamps int_of_numeral mixed_store
           fern_row mixed_store_reachable (or_introl eq_refl)).
Defined.

(** X3: every watering event of a store reached through the handlers
    belongs to a plant of the store, which the lookup by identifier
    returns, and has a timestamp that is not empty, so its plant has a
    last watering. *)
Theorem events_belong_to_plants
  (py_int : string -> option Z) (db : store) (w : WaterLogs.row) :
  reachable py_int db -> In w (water_logs db) ->
  (exists r, In r (plants db)
             /\ Sql.select_plant db (WaterLogs.plant_id w) = Some r)
  /\ WaterLogs.watered_at w <> ""
  /\ get_last_watered db (WaterLogs.plant_id w) <> None.
Proof.
  intros Hreach Hw.
  pose proof (reachable_inv py_int db Hreach) as Hinv.
  pose proof (reachable_ids py_int db Hreach) as Hids.
  split; [|split].
  - destruct (inv_owner db Hinv w Hw) as [r [Hr E]].
    exists r. split; [exact Hr|]. rewrite <- E.
    now apply select_plant_member.
  - now apply (inv_timestamp db Hinv).
  - intros Hn. apply get_last_watered_none in Hn.
    assert (Hin : In (WaterLogs.watered_at w)
                    (event_texts db (WaterLogs.plant_id w))).
    { unfold event_texts. apply in_map. unfold Sql.logs_of.
      apply filter_In. split; [exact Hw|apply Z.eqb_refl]. }
    rewrite Hn in Hin. destruct Hin.
Qed.

Lemma events_belong_to_plants_witness :
  Sql.select_plant mixed_store 1 = Some fern_row
  /\ get_last_watered mixed_store 1 <> None.
Proof.
  destruct (events_belong_to_plants int_of_numeral mixed_store
              (WaterLogs.mkrow 1 1 "2024-01-05T00:00:00+00:00" "")
              mixed_store_reachable (or_introl eq_refl)) as [_ [_ H]].
  split; [reflexivity|exact H].
Defined.

(** ** Clock readings as text *)

(** X4: a clock reading is read back from the text [now_iso] writes for
    it: [parse_iso] returns the same datetime, so two clock readings with
    the same text are the same. *)
Theorem now_iso_round_trip (now other : datetime) :
  utc_clock now -> utc_clock other ->
  parse_iso (now_iso now) = Some now
  /\ (now_iso now = now_iso other -> now = other).
Proof.
  intros [V U] [V' U']. unfold now_iso.
  split; [now apply parse_isoformat_utc|].
  intros E.
  assert (P : parse_iso (isoformat now) = Some now)
    by now apply parse_isoformat_utc.
  rewrite E, parse_isoformat_utc in P by assumption. congruence.
Qed.

Lemma now_iso_round_trip_witness :
  parse_iso "2024-01-01T09:00:00+00:00" = Some clock0.
Proof.
  exact (proj1 (now_iso_round_trip clock0 clock0
                  (conj eq_refl eq_refl) (conj eq_refl eq_refl))).
Defined.

(** X5: the texts that [now_iso] writes sort as the clock readings do:
    one text is below or equal to another in the BINARY text order of
    SQLite exactly when its reading is not later. *)
Theorem now_iso_text_order_is_time_order (a b : datetime) :
  utc_clock a -> utc_clock b ->
  (Sql.text_le (now_iso a) (now_iso b) = true <-> naive_us a <= naive_us b).
Proof.
  intros [Va Ua] [Vb Ub]. unfold Sql.text_le, String.leb, now_iso.
  rewrite isoformat_utc_compare by assumption.
  destruct (Z.compare_spec (naive_us a) (naive_us b)); split;
    try reflexivity; try discriminate; lia.
Qed.

Lemma now_iso_text_order_is_time_order_witness :
  Sql.text_le (now_iso clock0)
    (now_iso (mkdatetime 2024 1 1 9 0 0 500000 (Some 0))) = true.
Proof.
  apply (proj2 (now_iso_text_order_is_time_order clock0
                  (mkdatetime 2024 1 1 9 0 0 500000 (Some 0))
                  (conj eq_refl eq_refl) (conj eq_refl eq_refl))).
  vm_compute. discriminate.
Defined.

(** ** Where the rows of the next store come from *)

Lemma insert_plant_rows (db : store) (now : datetime) (text : string)
  (species location : option string) (interval : Z) (notes : option string)
  (r : Plants.row) :
  strip text <> "" -> 1 <= interval ->
  In r (plants (snd (Sql.insert_plant db (strip text) species location
                       interval notes (now_iso now) (now_iso now)))) ->
  In r (plants db) \/ inserted_row db now r \/ rewritten_row db now r.
Proof.
  intros Hne Hint Hr. simpl in Hr. apply in_app_or in Hr.
  destruct Hr as [Hr|[<-|[]]]; [now left|right; left].
  exists text, species, location, interval, notes. auto.
Qed.

Lemma update_plant_rows (db : store) (now : datetime) (pid : Z)
  (text : string) (species location : option string) (interval : Z)
  (notes : option string) (r : Plants.row) :
  (1 <= interval
   \/ exists r1, In r1 (plants db)
                 /\ interval = Plants.water_interval_days r1) ->
  In r (plants (Sql.update_plant_row db pid (strip text) species location
                  interval notes (now_iso now))) ->
  In r (plants db) \/ inserted_row db now r \/ rewritten_row db now r.
Proof.
  intros Hint Hr. simpl in Hr. apply in_map_iff in Hr.
  destruct Hr as [r0 [E Hr0]].
  destruct (Z.eqb_spec (Plants.id r0) pid) as [Eid|Eid].
  - right. right. exists r0, text, species, location, interval, notes.
    split; [exact Hr0|]. split; [now rewrite Eid|exact Hint].
  - left. now subst r.
Qed.

Lemma json_interval_cases (py_int : string -> option Z) (x : jinterval)
  (d : Z) :
  1 <= try_except (json_interval py_int x d) (fun i => i) (fun _ => d)
  \/ try_except (json_interval py_int x d) (fun i => i) (fun _ => d) = d.
Proof.
  unfold json_interval. destruct x as [|s|n]; simpl; try (left; lia).
  - destruct (truthy s); simpl; [|left; lia].
    destruct (py_int s); simpl; [left; lia|now right].
  - destruct (n =? 0); simpl; left; lia.
Qed.

Lemma truthy_strip_not_empty (s : string) :
  negb (truthy s) = false -> s <> "".
Proof. destruct s; simpl; [discriminate|discriminate]. Qed.

(** A plant of the next store is a plant of the store, or the row a
    create handler inserted, or a row an update handler rewrote. *)
Lemma serve_plant_rows (py_int : string -> option Z) (now : datetime)
  (req : request) (db : store) (r : Plants.row) :
  In r (plants (serve py_int now req db)) ->
  In r (plants db) \/ inserted_row db now r \/ rewritten_row db now r.
Proof.
  destruct req as [form|pid form|pid|pid w n|pid d n|m data|m pid data
                  |pid w n|]; simpl; intros Hr.
  - unfold create_plant in Hr.
    destruct (negb (truthy (strip (or_else (form_name form) "")))) eqn:E;
      [now left|].
    eapply insert_plant_rows; [| |exact Hr].
    + now apply truthy_strip_not_empty.
    + apply form_interval_positive.
  - unfold update_plant in Hr.
    destruct (Sql.select_plant db pid); [|now left].
    eapply update_plant_rows; [|exact Hr].
    left. apply form_interval_positive.
  - left. simpl in Hr. apply filter_In in Hr. tauto.
  - left. unfold log_water in Hr.
    destruct (Sql.select_plant db pid); exact Hr.
  - left. unfold log_water_backdate in Hr.
    destruct (Sql.select_plant db pid); exact Hr.
  - unfold api_plants in Hr. destruct m;
      try (destruct (negb (truthy (strip (or_else (jget (json_name data)) ""))))
             eqn:E; [now left|];
           eapply insert_plant_rows; [| |exact Hr];
           [now apply truthy_strip_not_empty
           |apply json_interval_positive; lia]).
    left. destruct (api_plants_rows db); exact Hr.
  - unfold api_plant in Hr.
    destruct (Sql.select_plant db pid) as [row|] eqn:Hsel; [|now left].
    assert (Hint : 1 <= try_except
                          (json_interval py_int (json_water_interval_days data)
                             (Plants.water_interval_days row))
                          (fun i => i)
                          (fun _ => Plants.water_interval_days row)
                   \/ exists r1, In r1 (plants db)
                        /\ try_except
                             (json_interval py_int
                                (json_water_interval_days data)
                                (Plants.water_interval_days row))
                             (fun i => i)
                             (fun _ => Plants.water_interval_days row)
                           = Plants.water_interval_days r1).
    { destruct (json_interval_cases py_int (json_water_interval_days data)
                  (Plants.water_interval_days row)) as [H|H]; [now left|].
      right. exists row. split; [|exact H].
      now apply (select_plant_in db pid). }
    destruct m; try (eapply update_plant_rows; [exact Hint|exact Hr]).
    + left. destruct (compute_next_watering db row); exact Hr.
    + left. simpl in Hr. apply filter_In in Hr. tauto.
  - left. unfold api_log_water in Hr.
    destruct (Sql.select_plant db pid); exact Hr.
  - destruct Hr.
Qed.

(** ** Trimmed names *)

Lemma rstrip_idempotent (s : string) : rstrip (rstrip s) = rstrip s.
Proof.
  induction s as [|c r IH]; [reflexivity|].
  cbn [rstrip]. destruct (rstrip r) as [|c' r'] eqn:E.
  - destruct (is_space c) eqn:Ec; [reflexivity|].
    cbn [rstrip]. now rewrite Ec.
  - cbn [rstrip]. fold rstrip. cbn [rstrip] in IH. now rewrite IH.
Qed.

Lemma lstrip_keeps_rstrip (t : string) :
  rstrip t = t -> rstrip (lstrip t) = lstrip t.
Proof.
  induction t as [|c r IH]; [reflexivity|].
  intros H. cbn [lstrip]. destruct (is_space c) eqn:Ec; [|exact H].
  apply IH. cbn [rstrip] in H. destruct (rstrip r) as [|c' r'] eqn:E.
  - rewrite Ec in H. discriminate.
  - now injection H.
Qed.

Lemma lstrip_idempotent (s : string) : lstrip (lstrip s) = lstrip s.
Proof.
  induction s as [|c r IH]; [reflexivity|].
  cbn [lstrip]. destruct (is_space c) eqn:Ec; [exact IH|].
  cbn [lstrip]. now rewrite Ec.
Qed.

(** Trimming a trimmed string changes nothing. *)
Lemma strip_idempotent (s : string) : strip (strip s) = strip s.
Proof.
  unfold strip.
  rewrite (lstrip_keeps_rstrip (rstrip s)) by apply rstrip_idempotent.
  apply lstrip_idempotent.
Qed.

Lemma reachable_names_stripped (py_int : string -> option Z) (db : store) :
  reachable py_int db ->
  forall r, In r (plants db) -> strip (Plants.name r) = Plants.name r.
Proof.
  induction 1 as [|db now req _ IH _]; [intros r []|].
  intros r Hr. apply serve_plant_rows in Hr.
  destruct Hr as [Hr|[Hr|Hr]]; [now apply IH| |].
  - destruct Hr as [text [sp [lo [iv [no [-> _]]]]]]. apply strip_idempotent.
  - destruct Hr as [r0 [text [sp [lo [iv [no [_ [-> _]]]]]]]].
    apply strip_idempotent.
Qed.

(** ** Watering events are only appended or deleted *)

Lemma insert_log_events (db : store) (pid : Z) (t note : string)
  (w : WaterLogs.row) :
  (In w (water_logs (Sql.insert_log db pid t note)) ->
   In w (water_logs db) \/ WaterLogs.id w = water_logs_seq db + 1)
  /\ (In w (water_logs db) -> In w (water_logs (Sql.insert_log db pid t note))).
Proof.
  simpl. split.
  - intros H. apply in_app_or in H. destruct H as [H|[<-|[]]]; auto.
  - intros H. apply in_or_app. now left.
Qed.

(** X6: no request changes a stored watering event.  An event of the next
    store is an event of the store or the one event just inserted, with
    the next rowid; and an event of the store is still there afterwards
    unless the request deletes its plant or clears the store. *)
Theorem events_are_never_modified
  (py_int : string -> option Z) (now : datetime) (req : request) (db : store)
  (w : WaterLogs.row) :
  (In w (water_logs (serve py_int now req db)) ->
   In w (water_logs db) \/ WaterLogs.id w = water_logs_seq db + 1)
  /\ (In w (water_logs db) ->
      In w (water_logs (serve py_int now req db))
      \/ removes_events_of req (WaterLogs.plant_id w)).
Proof.
  assert (Hdel : forall pid,
             (In w (water_logs (Sql.delete_logs_where_plant
                                  (Sql.delete_plants_where_id db pid) pid)) ->
              In w (water_logs db) \/ WaterLogs.id w = water_logs_seq db + 1)
             /\ (In w (water_logs db) ->
                 In w (water_logs (Sql.delete_logs_where_plant
                                     (Sql.delete_plants_where_id db pid) pid))
                 \/ pid = WaterLogs.plant_id w)).
  { intros pid. simpl. split.
    - intros H. apply filter_In in H. tauto.
    - intros H. destruct (Z.eqb_spec (WaterLogs.plant_id w) pid) as [E|E];
        [now right|left].
      apply filter_In. split; [exact H|].
      apply negb_true_iff, Z.eqb_neq. exact E. }
  assert (Hsame : (In w (water_logs db) ->
                   In w (water_logs db) \/ WaterLogs.id w = water_logs_seq db + 1)
                  /\ (In w (water_logs db) ->
                      In w (water_logs db)
                      \/ removes_events_of req (WaterLogs.plant_id w)))
    by tauto.
  assert (Hins : forall pid t note,
             (In w (water_logs (Sql.insert_log db pid t note)) ->
              In w (water_logs db) \/ WaterLogs.id w = water_logs_seq db + 1)
             /\ (In w (water_logs db) ->
                 In w (water_logs (Sql.insert_log db pid t note))
                 \/ removes_events_of req (WaterLogs.plant_id w))).
  { intros pid t note.
    destruct (insert_log_events db pid t note w) as [H1 H2]. tauto. }
  destruct req as [form|pid form|pid|pid x n|pid d n|m data|m pid data
                  |pid x n|]; simpl.
  - unfold create_plant.
    destruct (negb (truthy (strip (or_else (form_name form) ""))));
      exact Hsame.
  - unfold update_plant. destruct (Sql.select_plant db pid); exact Hsame.
  - apply Hdel.
  - unfold log_water. destruct (Sql.select_plant db pid);
      [apply Hins|exact Hsame].
  - unfold log_water_backdate. destruct (Sql.select_plant db pid);
      [apply Hins|exact Hsame].
  - unfold api_plants. destruct m;
      try (destruct (negb (truthy (strip (or_else (jget (json_name data)) ""))));
           exact Hsame).
    destruct (api_plants_rows db); exact Hsame.
  - unfold api_plant.
    destruct (Sql.select_plant db pid) as [row|]; [|destruct m; tauto].
    destruct m; simpl; try tauto.
    + destruct (compute_next_watering db row); simpl; tauto.
    + apply Hdel.
  - unfold api_log_water. destruct (Sql.select_plant db pid);
      [apply Hins|exact Hsame].
  - tauto.
Qed.

(** ** What an update touches *)

Lemma update_plant_row_frame (db : store) (pid : Z) (name : string)
  (species location : option string) (interval : Z) (notes : option string)
  (u : string) :
  let db' :=
    Sql.update_plant_row db pid name species location interval notes u in
  water_logs db' = water_logs db
  /\ plants_seq db' = plants_seq db
  /\ water_logs_seq db' = water_logs_seq db
  /\ map Plants.id (plants db') = map Plants.id (plants db)
  /\ map Plants.created_at (plants db') = map Plants.created_at (plants db)
  /\ (forall r, In r (plants db') -> Plants.id r <> pid -> In r (plants db))
  /\ (forall r, In r (plants db') -> Plants.id r = pid ->
        Plants.name r = name /\ Plants.species r = species
        /\ Plants.location r = location
        /\ Plants.water_interval_days r = interval
        /\ Plants.notes r = notes /\ Plants.updated_at r = u).
Proof.
  cbn zeta. simpl.
  assert (Hid : forall r,
             Plants.id
               (if Plants.id r =? pid
                then Plants.mkrow pid name species location interval notes
                       (Plants.created_at r) u
                else r) = Plants.id r).
  { intros r. destruct (Z.eqb_spec (Plants.id r) pid); simpl; congruence. }
  repeat split.
  - rewrite map_map. apply map_ext. exact Hid.
  - rewrite map_map. apply map_ext. intros r.
    now destruct (Plants.id r =? pid).
  - intros r Hr Hne. apply in_map_iff in Hr. destruct Hr as [r0 [E Hr0]].
    destruct (Z.eqb_spec (Plants.id r0) pid) as [Eid|Eid].
    + subst r. simpl in Hne. congruence.
    + now subst r.
  - apply in_map_iff in H. destruct H as [r0 [E Hr0]].
    destruct (Z.eqb_spec (Plants.id r0) pid); subst r; simpl; congruence.
  - apply in_map_iff in H. destruct H as [r0 [E Hr0]].
    destruct (Z.eqb_spec (Plants.id r0) pid); subst r; simpl; congruence.
  - apply in_map_iff in H. destruct H as [r0 [E Hr0]].
    destruct (Z.eqb_spec (Plants.id r0) pid); subst r; simpl; congruence.
  - apply in_map_iff in H. destruct H as [r0 [E Hr0]].
    destruct (Z.eqb_spec (Plants.id r0) pid); subst r; simpl; congruence.
  - apply in_map_iff in H. destruct H as [r0 [E Hr0]].
    destruct (Z.eqb_spec (Plants.id r0) pid); subst r; simpl; congruence.
  - apply in_map_iff in H. destruct H as [r0 [E Hr0]].
    destruct (Z.eqb_spec (Plants.id r0) pid); subst r; simpl; congruence.
Qed.

(** X8: an update of an existing plant, by the page or by the API,
    touches that plant's row only.  The watering events and the counters
    stay as they are, the rows keep their order, identifiers and creation
    timestamps, every other row is unchanged, and the updated row carries
    the clock reading as its update timestamp.  The page handler stores
    the trimmed form fields and nothing of the former row: a field that
    the form does not send becomes the empty string, and the interval
    becomes 7. *)
Theorem update_touches_one_row
  (py_int : string -> option Z) (now : datetime) (db : store) (pid : Z)
  (row : Plants.row) (form : plant_form) (data : plant_json) (db' : store) :
  Sql.select_plant db pid = Some row ->
  (update_plant py_int now pid form db = (Redirect "index" (Some pid), db')
   \/ api_plant py_int now PUT pid data db
      = Ok (Jsonify (JDict [("ok", JBool true)]) 200, db')) ->
  (water_logs db' = water_logs db
   /\ plants_seq db' = plants_seq db
   /\ water_logs_seq db' = water_logs_seq db
   /\ map Plants.id (plants db') = map Plants.id (plants db)
   /\ map Plants.created_at (plants db') = map Plants.created_at (plants db)
   /\ (forall r, In r (plants db') -> Plants.id r <> pid -> In r (plants db))
   /\ (forall r, In r (plants db') -> Plants.id r = pid ->
         Plants.updated_at r = now_iso now))
  /\ (update_plant py_int now pid (mkplant_form (form_name form) None None
                                      None None) db
      = (Redirect "index" (Some pid),
         Sql.update_plant_row db pid (strip (or_else (form_name form) ""))
           (Some "") (Some "") 7 (Some "") (now_iso now))).
Proof.
  intros Hsel H. split.
  - assert (E : exists name species location interval notes,
               db' = Sql.update_plant_row db pid name species location
                       interval notes (now_iso now)).
    { destruct H as [H|H].
      - unfold update_plant in H. rewrite Hsel in H.
        injection H as <-. repeat eexists.
      - unfold api_plant in H. rewrite Hsel in H.
        injection H as <-. repeat eexists. }
    destruct E as [name [species [location [interval [notes ->]]]]].
    pose proof (update_plant_row_frame db pid name species location interval
                  notes (now_iso now)) as F.
    cbn zeta in F. destruct F as [F1 [F2 [F3 [F4 [F5 [F6 F7]]]]]].
    repeat split; try assumption.
    intros r Hr Hid. now apply F7.
  - unfold update_plant. rewrite Hsel. reflexivity.
Qed.

Lemma update_touches_one_row_witness :
  map Plants.created_at
    (plants (snd (update_plant int_of_numeral clock0 1 (form_named "Ivy")
                    mixed_store)))
  = map Plants.created_at (plants mixed_store)
  /\ water_logs (snd (update_plant int_of_numeral clock0 1 (form_named "Ivy")
                        mixed_store))
     = water_logs mixed_store.
Proof.
  destruct (update_touches_one_row int_of_numeral clock0 mixed_store 1
              fern_row (form_named "Ivy") (json_named "")
              (snd (update_plant int_of_numeral clock0 1 (form_named "Ivy")
                      mixed_store))
              eq_refl (or_introl eq_refl)) as [[H1 [_ [_ [_ [H2 _]]]]] _].
  split; assumption.
Defined.

(** X9: on a store reached through the handlers, an API update whose body
    has no member at all changes nothing but the update timestamp of the
    plant: name, species, location, interval and notes are the stored
    ones. *)
Theorem empty_api_update_keeps_the_row
  (py_int : string -> option Z) (now : datetime) (db : store)
  (row : Plants.row) :
  reachable py_int db -> In row (plants db) ->
  api_plant py_int now PUT (Plants.id row)
    (mkplant_json Absent Absent Absent NoInterval Absent) db
  = Ok (Jsonify (JDict [("ok", JBool true)]) 200,
        Sql.update_plant_row db (Plants.id row) (Plants.name row)
          (Plants.species row) (Plants.location row)
          (Plants.water_interval_days row) (Plants.notes row) (now_iso now)).
Proof.
  intros Hreach Hrow.
  pose proof (select_plant_member db row (reachable_ids py_int db Hreach) Hrow)
    as Hsel.
  pose proof (reachable_names_stripped py_int db Hreach row Hrow) as Hname.
  pose proof (inv_interval db (reachable_inv py_int db Hreach) row Hrow)
    as Hint.
  unfold api_plant. rewrite Hsel. simpl.
  rewrite Hname. rewrite Z.max_r by exact Hint. reflexivity.
Qed.

Lemma empty_api_update_keeps_the_row_witness :
  api_plant int_of_numeral clock0 PUT 1
    (mkplant_json Absent Absent Absent NoInterval Absent) mixed_store
  = Ok (Jsonify (JDict [("ok", JBool true)]) 200,
        Sql.update_plant_row mixed_store 1 "Fern" (Some "") (Some "") 7
          (Some "") "2024-01-01T09:00:00+00:00").
Proof.
  exact (empty_api_update_keeps_the_row int_of_numeral clock0 mixed_store
           fern_row mixed_store_reachable (or_introl eq_refl)).
Defined.

(** ** The last row of a table *)

Lemma find_last_row (l : list Plants.row) (r : Plants.row) :
  (forall x, In x l -> Plants.id x <> Plants.id r) ->
  find (fun x => Plants.id x =? Plants.id r) (l ++ [r]) = Some r.
Proof.
  induction l as [|h t IH]; intros H; simpl.
  - now rewrite Z.eqb_refl.
  - destruct (Z.eqb_spec (Plants.id h) (Plants.id r)) as [E|E].
    + exfalso. apply (H h); [now left|exact E].
    + apply IH. intros x Hx. apply H. now right.
Qed.

(** ** Logging a watering and looking it up *)

Lemma event_texts_insert_log (db : store) (pid q : Z) (t note : string) :
  event_texts (Sql.insert_log db pid t note) q
  = if q =? pid then (event_texts db q ++ [t])%list else event_texts db q.
Proof.
  unfold event_texts, Sql.logs_of. simpl.
  rewrite filter_app, map_app. simpl.
  rewrite (Z.eqb_sym pid q).
  destruct (q =? pid); simpl; [reflexivity|apply app_nil_r].
Qed.

Lemma get_last_watered_ext (db db' : store) (q : Z) :
  Sql.logs_of db' q = Sql.logs_of db q ->
  get_last_watered db' q = get_last_watered db q.
Proof. unfold get_last_watered. now intros ->. Qed.

Lemma last_watered_after_insert (db : store) (pid : Z) (t note : string) :
  get_last_watered (Sql.insert_log db pid t note) pid
  = Some (match get_last_watered db pid with
          | Some s => if String.leb t s then s else t
          | None => t
          end).
Proof.
  apply greatest_event_text_is_last.
  unfold greatest_event_text.
  rewrite event_texts_insert_log, Z.eqb_refl.
  destruct (get_last_watered db pid) as [s|] eqn:E.
  - apply get_last_watered_greatest in E. destruct E as [Hin Hmax].
    destruct (String.leb t s) eqn:L.
    + split; [apply in_or_app; now left|].
      intros e He. apply in_app_or in He.
      destruct He as [He|[<-|[]]]; [now apply Hmax|exact L].
    + assert (L' : String.leb s t = true)
        by (destruct (String.leb_total s t); congruence).
      split; [apply in_or_app; right; now left|].
      intros e He. apply in_app_or in He.
      destruct He as [He|[<-|[]]]; [|apply string_leb_refl].
      apply string_leb_trans with s; [now apply Hmax|exact L'].
  - apply get_last_watered_none in E. rewrite E. simpl.
    split; [now left|]. intros e [<-|[]]. apply string_leb_refl.
Qed.

(** X11: after a log-now request on an existing plant, by the page or by
    the API, the last watering of that plant is the greater, in text
    order, of its former last watering and the stored timestamp (the
    text sent, or the clock reading when none or an empty one is sent);
    the last watering of every other plant and the plants themselves are
    unchanged. *)
Theorem logged_event_and_last_watering
  (now : datetime) (db : store) (pid : Z) (row : Plants.row)
  (x n : option string) :
  Sql.select_plant db pid = Some row ->
  let t := or_else x (now_iso now) in
  let db' := snd (log_water now pid x n db) in
  snd (api_log_water now pid x n db) = db'
  /\ plants db' = plants db
  /\ event_texts db' pid = (event_texts db pid ++ [t])%list
  /\ get_last_watered db' pid
     = Some (match get_last_watered db pid with
             | Some s => if String.leb t s then s else t
             | None => t
             end)
  /\ forall q, q <> pid -> get_last_watered db' q = get_last_watered db q.
Proof.
  intros Hsel t db'.
  destruct (log_water_stored now db pid row x n Hsel) as [H1 H2].
  subst db'. rewrite H1, H2. fold t.
  split; [reflexivity|]. split; [reflexivity|].
  split; [now rewrite event_texts_insert_log, Z.eqb_refl|].
  split; [apply last_watered_after_insert|].
  intros q Hq. apply get_last_watered_ext.
  unfold Sql.logs_of. simpl. rewrite filter_app. simpl.
  replace (pid =? q) with false by (symmetry; apply Z.eqb_neq; congruence).
  apply app_nil_r.
Qed.

Lemma logged_event_and_last_watering_witness :
  get_last_watered
    (snd (log_water clock0 1 (Some "2024-01-03T00:00:00+00:00") None
            mixed_store)) 1
  = Some "2024-01-05T00:00:00+00:00".
Proof.
  exact (proj1 (proj2 (proj2 (proj2
           (logged_event_and_last_watering clock0 mixed_store 1 fern_row
              (Some "2024-01-03T00:00:00+00:00") None eq_refl))))).
Defined.

(** ** Backdated timestamps are uniform *)

Lemma valid_replace_tzinfo_utc (d : datetime) :
  valid d = true -> valid (replace_tzinfo_utc d) = true.
Proof.
  unfold valid. simpl. intros H.
  apply andb_true_iff in H. destruct H as [H _]. now rewrite H.
Qed.

Lemma backdate_stamp_uniform (now : datetime) (date : option string) :
  utc_clock now ->
  uniform_utc_text
    (try_except (fromisoformat_arg date)
       (fun dt => isoformat (replace_tzinfo_utc dt))
       (fun _ => now_iso now)).
Proof.
  intros Hclock. unfold fromisoformat_arg.
  destruct date as [s|]; simpl; [|now apply now_iso_uniform].
  destruct (fromisoformat s) as [d|] eqn:E; simpl;
    [|now apply now_iso_uniform].
  exists (replace_tzinfo_utc d).
  split; [|split; reflexivity].
  apply parse_isoformat_utc; [|reflexivity].
  apply valid_replace_tzinfo_utc. now apply fromisoformat_valid with s.
Qed.

(** ** Stores whose events were all stamped by the server *)

Lemma stamped_is_reachable (py_int : string -> option Z) (db : store) :
  reachable_stamped py_int db -> reachable py_int db.
Proof.
  induction 1 as [|db now req _ IH Hclock _]; [constructor|].
  now apply reach_serve.
Qed.

Lemma or_else_empty (x : option string) (d : string) :
  or_else x "" = "" -> or_else x d = d.
Proof.
  destruct x as [[|c s]|]; simpl; try reflexivity. discriminate.
Qed.

Lemma stamped_serve_events (py_int : string -> option Z) (now : datetime)
  (req : request) (db : store) (w : WaterLogs.row) :
  utc_clock now -> server_stamped req ->
  In w (water_logs (serve py_int now req db)) ->
  In w (water_logs db) \/ uniform_utc_text (WaterLogs.watered_at w).
Proof.
  intros Hclock Hst.
  assert (Hdel : forall pid,
             In w (water_logs (Sql.delete_logs_where_plant
                                 (Sql.delete_plants_where_id db pid) pid)) ->
             In w (water_logs db) \/ uniform_utc_text (WaterLogs.watered_at w)).
  { intros pid H. simpl in H. apply filter_In in H. tauto. }
  assert (Hins : forall pid t note,
             uniform_utc_text t ->
             In w (water_logs (Sql.insert_log db pid t note)) ->
             In w (water_logs db) \/ uniform_utc_text (WaterLogs.watered_at w)).
  { intros pid t note Ht H. simpl in H. apply in_app_or in H.
    destruct H as [H|[<-|[]]]; [now left|now right]. }
  destruct req as [form|pid form|pid|pid x n|pid d n|m data|m pid data
                  |pid x n|]; simpl.
  - unfold create_plant.
    destruct (negb (truthy (strip (or_else (form_name form) ""))));
      simpl; tauto.
  - unfold update_plant. destruct (Sql.select_plant db pid); simpl; tauto.
  - apply Hdel.
  - unfold log_water. destruct (Sql.select_plant db pid); [|simpl; tauto].
    apply Hins. simpl in Hst. simpl. rewrite (or_else_empty x _ Hst).
    now apply now_iso_uniform.
  - unfold log_water_backdate. destruct (Sql.select_plant db pid);
      [|simpl; tauto].
    apply Hins. now apply backdate_stamp_uniform.
  - unfold api_plants. destruct m;
      try (destruct (negb (truthy (strip (or_else (jget (json_name data)) ""))));
           simpl; tauto).
    destruct (api_plants_rows db); simpl; tauto.
  - unfold api_plant.
    destruct (Sql.select_plant db pid) as [row|]; [|destruct m; simpl; tauto].
    destruct m; simpl; try tauto.
    + destruct (compute_next_watering db row); simpl; tauto.
    + apply Hdel.
  - unfold api_log_water. destruct (Sql.select_plant db pid); [|simpl; tauto].
    apply Hins. simpl in Hst. simpl. rewrite (or_else_empty x _ Hst).
    now apply now_iso_uniform.
  - simpl. tauto.
Qed.

Lemma stamped_events_uniform (py_int : string -> option Z) (db : store) :
  reachable_stamped py_int db ->
  forall w, In w (water_logs db) -> uniform_utc_text (WaterLogs.watered_at w).
Proof.
  induction 1 as [|db now req _ IH Hclock Hst]; intros w Hw; [destruct Hw|].
  destruct (stamped_serve_events py_int now req db w Hclock Hst Hw) as [H|H];
    [now apply IH|exact H].
Qed.

(** X13: when no log-now request ever carried a timestamp of its own,
    every stored event timestamp is in the uniform UTC representation,
    the last-watered lookup returns exactly the most recent event, and
    the next watering of a stored plant with events is its most recent
    event moved forward by the interval. *)
Theorem server_stamped_last_watering_is_most_recent
  (py_int : string -> option Z) (db : store) :
  reachable_stamped py_int db ->
  (forall w, In w (water_logs db) ->
             uniform_utc_text (WaterLogs.watered_at w))
  /\ (forall pid s,
        get_last_watered db pid = Some s <-> most_recent_event db pid s)
  /\ (forall row s,
        In row (plants db) -> most_recent_event db (Plants.id row) s ->
        compute_next_watering db row
        = plus_days s (Plants.water_interval_days row)).
Proof.
  intros Hst.
  pose proof (stamped_events_uniform py_int db Hst) as Hu.
  pose proof (reachable_inv py_int db (stamped_is_reachable py_int db Hst))
    as Hinv.
  assert (Hue : forall pid e, In e (event_texts db pid) -> uniform_utc_text e).
  { intros pid e He. unfold event_texts in He. apply in_map_iff in He.
    destruct He as [w [<- Hw]]. apply Hu.
    unfold Sql.logs_of in Hw. apply filter_In in Hw. tauto. }
  split; [exact Hu|]. split.
  - intros pid s. split.
    + intros H. apply greatest_uniform_is_most_recent; [apply Hue|].
      now apply get_last_watered_greatest.
    + intros H. apply greatest_event_text_is_last.
      apply most_recent_uniform_is_greatest; [apply Hue|exact H].
  - intros row s Hrow Hs.
    apply next_watering_with_events; [exact Hinv| |].
    + now apply (inv_interval db Hinv).
    + apply most_recent_uniform_is_greatest; [apply Hue|exact Hs].
Qed.

Lemma server_stamped_last_watering_is_most_recent_witness :
  most_recent_event watered_store 1 "2024-01-01T09:00:00+00:00".
Proof.
  refine (proj1 (proj1 (proj2 (server_stamped_last_watering_is_most_recent
                                 int_of_numeral watered_store _))
                   1 "2024-01-01T09:00:00+00:00") eq_refl).
  apply (stamped_serve int_of_numeral _ clock0
           (ReqLogWaterBackdate 1 (Some "2023-12-24") None));
    [|split; reflexivity|exact I].
  apply (stamped_serve int_of_numeral _ clock0 (ReqLogWater 1 None None));
    [|split; reflexivity|reflexivity].
  apply (stamped_serve int_of_numeral empty_store clock0
           (ReqCreatePlant (form_named "Fern")));
    [constructor|split; reflexivity|exact I].
Defined.

(** ** The dashboard *)

Lemma forall2_in_l {A B : Type} (P : A -> B -> Prop) (l : list A)
  (l' : list B) (x : A) :
  Forall2 P l l' -> In x l -> exists y, In y l' /\ P x y.
Proof.
  induction 1 as [|a b l l' Hab _ IH]; intros Hx; [destruct Hx|].
  destruct Hx as [<-|Hx].
  - exists b. split; [now left|exact Hab].
  - destruct (IH Hx) as [y [Hy Py]]. exists y. split; [now right|exact Py].
Qed.

Lemma forall2_in_r {A B : Type} (P : A -> B -> Prop) (l : list A)
  (l' : list B) (y : B) :
  Forall2 P l l' -> In y l' -> exists x, In x l /\ P x y.
Proof.
  induction 1 as [|a b l l' Hab _ IH]; intros Hy; [destruct Hy|].
  destruct Hy as [<-|Hy].
  - exists a. split; [now left|exact Hab].
  - destruct (IH Hy) as [x [Hx Px]]. exists x. split; [now right|exact Px].
Qed.

Lemma filter_result_raise {A : Type} (f : A -> result bool) (l : list A)
  (x : A) (e : exn) :
  In x l -> f x = Raise e -> exists e', filter_result f l = Raise e'.
Proof.
  induction l as [|a l IH]; intros Hx Hf; [destruct Hx|].
  simpl. destruct Hx as [->|Hx].
  - rewrite Hf. simpl. now exists e.
  - destruct (f a) as [b|e0]; simpl; [|now exists e0].
    destruct (IH Hx Hf) as [e' ->]. simpl. now exists e'.
Qed.

(** What a dashboard entry is made of. *)
Lemma decorate_inv (strftime_local : string -> datetime -> result string)
  (now : datetime) (db : store) (r : Plants.row) (p : dashboard_plant) :
  decorate strftime_local now db r = Ok p ->
  exists created next,
    (if truthy (Plants.created_at r)
     then exists d, parse_iso (Plants.created_at r) = Some d
                    /\ strftime_local "%b %d, %Y" d = Ok created
     else created = "")
    /\ compute_next_watering db (displayed_row r created) = Ok next
    /\ dp_row p = displayed_row r created
    /\ dp_next_watering p = next
    /\ dp_next_watering_dt p = parse_if_set next
    /\ dp_next_due_human p
       = match parse_if_set next with
         | Some d => human_delta now d
         | None => ""
         end.
Proof.
  unfold decorate, bind. intros H.
  match type of H with
  | match ?x with Ok _ => _ | Raise _ => _ end = _ =>
      destruct x as [disp|]; [|discriminate]
  end.
  match type of H with
  | match ?x with Ok _ => _ | Raise _ => _ end = _ =>
      destruct x as [created|] eqn:Ec; [|discriminate]
  end.
  fold (displayed_row r created) in H.
  destruct (compute_next_watering db (displayed_row r created))
    as [next|] eqn:En; [|discriminate].
  injection H as <-. exists created, next. simpl.
  split; [|split; [exact En|repeat split; reflexivity]].
  destruct (truthy (Plants.created_at r)); [|congruence].
  destruct (parse_iso (Plants.created_at r)) as [d|]; [|discriminate].
  now exists d.
Qed.

(** X14: when the dashboard renders, it hands the template the plants
    in the NOCASE order of their names; [total] counts every plant of
    the store and [plant_count] the listed ones; the listed entries are
    exactly the decorated rows of the store that the filter accepts;
    and without a text query and outside the due view every plant is
    listed. *)
Theorem dashboard_lists_the_matching_plants
  (strftime_local : string -> datetime -> result string) (now : datetime)
  (q show : option string) (db : store) (page : dashboard) :
  index strftime_local now q show db = Ok (Render page) ->
  StronglySorted (fun a b => Sql.nocase_le a b = true)
    (map (fun p => Plants.name (dp_row p)) (ctx_plants page))
  /\ ctx_total page = List.length (plants db)
  /\ ctx_plant_count page = List.length (ctx_plants page)
  /\ (forall p,
        In p (ctx_plants page)
        <-> exists r, In r (plants db)
                      /\ decorate strftime_local now db r = Ok p
                      /\ matches now (strip (or_else q "")) (or_else show "all") p
                         = Ok true)
  /\ (strip (or_else q "") = "" -> or_else show "all" <> "due" ->
      ctx_plant_count page = ctx_total page).
Proof.
  intros H.
  destruct (dashboard_in_nocase_order strftime_local now q show db page H)
    as [Hsorted Htotal].
  split; [exact Hsorted|]. split; [exact Htotal|].
  revert H. unfold index.
  set (le := fun a b => Sql.nocase_le (Plants.name a) (Plants.name b)).
  set (f := matches now (strip (or_else q "")) (or_else show "all")).
  destruct (map_result (decorate strftime_local now db)
              (Sql.order_by le (plants db))) as [all|] eqn:Eall;
    simpl; [|discriminate].
  destruct (filter_result f all) as [filtered|] eqn:Ef; simpl; [|discriminate].
  intros [= <-]. simpl.
  apply map_result_ok in Eall. apply filter_result_ok in Ef.
  split; [reflexivity|]. split.
  - intros p. rewrite Ef, filter_In. split.
    + intros [Hp Hm].
      destruct (forall2_in_r _ _ _ p Eall Hp) as [r [Hr Hd]].
      exists r. split; [exact (proj1 (order_by_in le r (plants db)) Hr)|].
      split; [exact Hd|].
      destruct (f p) as [[|]|]; congruence.
    + intros [r [Hr [Hd Hm]]]. split; [|now rewrite Hm].
      apply (proj2 (order_by_in le r (plants db))) in Hr.
      destruct (forall2_in_l _ _ _ r Eall Hr) as [p' [Hp' Hd']].
      congruence.
  - intros Hq Hshow. rewrite Ef. f_equal. apply filter_all.
    intros p _. subst f. unfold matches. rewrite Hq. simpl.
    destruct (String.eqb_spec (or_else show "all") "due"); [contradiction|].
    reflexivity.
Qed.

Lemma dashboard_lists_the_matching_plants_witness :
  exists page,
    index strftime_utc_host clock0 (Some "fe") None fern_store
    = Ok (Render page)
    /\ ctx_total page = 1%nat /\ ctx_plant_count page = 1%nat.
Proof.
  eexists. split; [vm_compute; reflexivity|].
  match goal with
  | |- ctx_total ?p = _ /\ _ =>
      assert (E : index strftime_utc_host clock0 (Some "fe") None
                    fern_store = Ok (Render p))
        by (vm_compute; reflexivity);
      destruct (dashboard_lists_the_matching_plants strftime_utc_host clock0
                  (Some "fe") None fern_store p E) as [_ [H1 [H2 _]]]
  end.
  split; [exact H1|exact H2].
Defined.

(** ** Dashboard entries without a next watering *)

(** X15: a dashboard entry of a plant without watering events has no
    next watering, no next-watering date and an empty due label, and
    the due view never lists it, whenever the display text that
    replaced its creation timestamp is not itself an ISO timestamp: the
    next watering is computed from the entry after the replacement.
    The API computes it from the stored row, where on a store reached
    through the handlers it is never absent. *)
Theorem unwatered_plant_has_no_next_watering_on_dashboard
  (py_int : string -> option Z)
  (strftime_local : string -> datetime -> result string) (now : datetime)
  (db : store) (r : Plants.row) (p : dashboard_plant) :
  reachable py_int db -> In r (plants db) ->
  get_last_watered db (Plants.id r) = None ->
  decorate strftime_local now db r = Ok p ->
  parse_iso (Plants.created_at (dp_row p)) = None ->
  dp_next_watering p = None
  /\ dp_next_watering_dt p = None
  /\ dp_next_due_human p = ""
  /\ (forall q, matches now q "due" p = Ok false)
  /\ compute_next_watering db r
     = plus_days (Plants.created_at r) (Plants.water_interval_days r)
  /\ compute_next_watering db r <> Ok None.
Proof.
  intros Hreach Hr Hlast Hdec Hdisp.
  destruct (decorate_inv strftime_local now db r p Hdec)
    as [created [next [_ [Hn [Hrow [H1 [H2 H3]]]]]]].
  rewrite Hrow in Hdisp. simpl in Hdisp.
  assert (Hnone : next = None).
  { unfold compute_next_watering in Hn. simpl in Hn.
    rewrite Hlast, Hdisp in Hn. congruence. }
  rewrite Hnone in H1, H2, H3. simpl in H2, H3.
  assert (Hapi : compute_next_watering db r
                 = plus_days (Plants.created_at r)
                     (Plants.water_interval_days r)).
  { apply next_watering_without_events.
    - apply (inv_interval db (reachable_inv py_int db Hreach) r Hr).
    - now apply get_last_watered_none. }
  split; [exact H1|]. split; [exact H2|]. split; [exact H3|].
  split; [|split; [exact Hapi|]].
  - intros q. unfold matches. rewrite H2.
    destruct (negb _); reflexivity.
  - rewrite Hapi. intros E. apply plus_days_absent in E.
    destruct (reachable_created_uniform py_int db Hreach r Hr)
      as [d [Hd _]].
    congruence.
Qed.

Lemma unwatered_plant_has_no_next_watering_on_dashboard_witness :
  exists p,
    decorate strftime_utc_host clock0 fern_store fern_row = Ok p
    /\ dp_next_watering p = None
    /\ compute_next_watering fern_store fern_row
       = Ok (Some "2024-01-08T09:00:00+00:00").
Proof.
  eexists. split; [vm_compute; reflexivity|].
  match goal with
  | |- dp_next_watering ?p = _ /\ _ =>
      assert (E : decorate strftime_utc_host clock0 fern_store fern_row = Ok p)
        by (vm_compute; reflexivity);
      destruct (unwatered_plant_has_no_next_watering_on_dashboard
                  int_of_numeral strftime_utc_host clock0 fern_store fern_row
                  p fern_store_reachable (or_introl eq_refl) eq_refl E
                  ltac:(vm_compute; reflexivity))
        as [H1 [_ [_ [_ [H2 _]]]]]
  end.
  split; [exact H1|]. rewrite H2. vm_compute. reflexivity.
Defined.

(** ** The due view and timestamps without an offset *)

Lemma break_at_no_sign (s : string) :
  no_sign s = true -> break_at is_sign s = None.
Proof.
  induction s as [|c s IH]; [reflexivity|].
  cbn [no_sign break_at]. intros H.
  apply andb_true_iff in H. destruct H as [Hc Hs].
  apply negb_true_iff in Hc. now rewrite Hc, IH.
Qed.

Lemma isoformat_naive_parts (d : datetime) :
  tzinfo d = None ->
  isoformat d
  = date_text (year d) (month d) (day d) ++ String "T" (clock_text d).
Proof.
  intros H. unfold isoformat, format_time. rewrite H.
  change (format_offset None) with "".
  fold (fraction_text (microsecond d)).
  unfold date_text, clock_text.
  now rewrite !append_assoc, !append_nil_r.
Qed.

(** A valid value without an offset is read back from its text. *)
Lemma parse_isoformat_naive (d : datetime) :
  valid d = true -> tzinfo d = None ->
  parse_iso (isoformat d) = Some d.
Proof.
  intros V U.
  destruct (valid_fields d V) as [D [T O]].
  pose proof (days_in_month_le_31 (year d) (month d)).
  pose proof (check_date_fields_bounds _ _ _ D) as [Hy [Hm Hd]].
  unfold parse_iso, fromisoformat.
  rewrite isoformat_naive_parts, split_date_text by exact U.
  rewrite parse_date_text by lia.
  unfold parse_isoformat_time.
  rewrite break_at_no_sign by apply no_sign_clock_text.
  rewrite parse_clock_text by exact T.
  unfold new_datetime. rewrite <- U. cbv zeta.
  replace (mkdatetime (year d) (month d) (day d) (hour d) (minute d)
             (second d) (microsecond d) (tzinfo d)) with d by now destruct d.
  now rewrite V.
Qed.

(** X16: on a store reached through the handlers, when the last watering
    of some plant is a timestamp without a UTC offset, the due view of
    the dashboard without a text query does not render: it ends in an
    exception, since an offset-naive next watering cannot be compared
    with the clock. *)
Theorem due_view_fails_on_timestamp_without_offset
  (py_int : string -> option Z)
  (strftime_local : string -> datetime -> result string) (now : datetime)
  (q : option string) (db : store) (r : Plants.row) (s : string)
  (d : datetime) :
  reachable py_int db -> utc_clock now -> In r (plants db) ->
  get_last_watered db (Plants.id r) = Some s ->
  parse_iso s = Some d -> tzinfo d = None ->
  strip (or_else q "") = "" ->
  exists e, index strftime_local now q (Some "due") db = Raise e.
Proof.
  intros Hreach [Vn Un] Hr Hlast Hp Hnaive Hq.
  pose proof (reachable_inv py_int db Hreach) as Hinv.
  unfold index. rewrite Hq.
  set (le := fun a b => Sql.nocase_le (Plants.name a) (Plants.name b)).
  destruct (map_result (decorate strftime_local now db)
              (Sql.order_by le (plants db))) as [all|e] eqn:Eall;
    simpl; [|now exists e].
  apply map_result_ok in Eall.
  apply (proj2 (order_by_in le r (plants db))) in Hr as Hrow.
  destruct (forall2_in_l _ _ _ r Eall Hrow) as [p [Hin Hdec]].
  destruct (decorate_inv strftime_local now db r p Hdec)
    as [created [next [_ [Hn [_ [_ [Hdt _]]]]]]].
  assert (Hnext : compute_next_watering db (displayed_row r created)
                  = plus_days s (Plants.water_interval_days r)).
  { apply (next_watering_with_events db (displayed_row r created) s Hinv).
    - apply (inv_interval db Hinv r Hr).
    - now apply get_last_watered_greatest. }
  rewrite Hnext in Hn.
  assert (Hd' : exists d', dp_next_watering_dt p = Some d' /\ tzinfo d' = None).
  { destruct (Z_le_gt_dec (toordinal d + Plants.water_interval_days r)
                MAXORDINAL) as [Hle|Hgt].
    - destruct (plus_days_value s _ d Hp (inv_interval db Hinv r Hr) Hle)
        as [d' [Hv [V' [Tz _]]]].
      exists d'. rewrite Hv in Hn. injection Hn as <-.
      rewrite Hdt. unfold parse_if_set.
      rewrite (truthy_not_empty _ (isoformat_not_empty d')).
      split; [|congruence].
      apply parse_isoformat_naive; [exact V'|congruence].
    - rewrite (plus_days_overflow s _ d Hp (inv_interval db Hinv r Hr))
        in Hn by lia.
      discriminate. }
  destruct Hd' as [d' [Hd' Tz']].
  assert (Hm : matches now "" "due" p = Raise TypeError).
  { unfold matches. simpl. rewrite Hd'. unfold datetime_gt.
    now rewrite Tz', Un. }
  destruct (filter_result_raise (matches now "" "due") all p TypeError Hin Hm)
    as [e' He'].
  change (or_else (Some "due") "all") with "due".
  rewrite He'. simpl. now exists e'.
Qed.

Lemma due_view_fails_on_timestamp_without_offset_witness :
  exists e,
    index strftime_utc_host clock0 None (Some "due") naive_store
    = Raise e.
Proof.
  apply (due_view_fails_on_timestamp_without_offset int_of_numeral
           strftime_utc_host clock0 None naive_store fern_row
           "2024-01-05T00:00:00" (mkdatetime 2024 1 5 0 0 0 0 None)).
  - unfold naive_store. apply reach_serve; [apply fern_store_reachable|].
    split; reflexivity.
  - split; reflexivity.
  - left. reflexivity.
  - reflexivity.
  - reflexivity.
  - reflexivity.
  - reflexivity.
Defined.

(** ** The API list and the single reads *)

(** X17: on a store reached through the handlers, when the API list
    is computed it holds every plant of the store once, in the BINARY
    order of the names, and each entry is what the single read of the
    API answers for the identifier of that plant; neither changes the
    store. *)
Theorem api_list_agrees_with_single_reads
  (py_int : string -> option Z) (now : datetime) (db : store)
  (l : list (Plants.row * option string * option string)) :
  reachable py_int db -> api_plants_rows db = Ok l ->
  (forall data,
     api_plants py_int now GET data db
     = Ok (Jsonify
             (JList (map (fun '(r, last, next) => plant_dict r last next) l))
             200, db))
  /\ map (fun x => fst (fst x)) l
     = Sql.order_by (fun a b => Sql.text_le (Plants.name a) (Plants.name b))
         (plants db)
  /\ StronglySorted (fun a b => Sql.text_le a b = true) (row_names l)
  /\ List.length l = List.length (plants db)
  /\ (forall r last next data,
        In (r, last, next) l ->
        api_plant py_int now GET (Plants.id r) data db
        = Ok (Jsonify (plant_dict r last next) 200, db)).
Proof.
  intros Hreach Hl.
  destruct (api_list_in_text_order db l Hl) as [Hmap [Hsorted [Hin Hentry]]].
  split; [|split; [exact Hmap|split; [exact Hsorted|split]]].
  - intros data. unfold api_plants. now rewrite Hl.
  - rewrite <- (length_map (fun x => fst (fst x)) l), Hmap.
    apply order_by_length.
  - intros r last next data Hr.
    destruct (Hentry r last next Hr) as [-> Hnext].
    assert (Hrow : In r (plants db)).
    { apply Hin. apply in_map_iff. exists (r, get_last_watered db (Plants.id r), next).
      split; [reflexivity|exact Hr]. }
    unfold api_plant.
    rewrite (select_plant_member db r (reachable_ids py_int db Hreach) Hrow).
    now rewrite Hnext.
Qed.

Lemma api_list_agrees_with_single_reads_witness :
  api_plant int_of_numeral clock0 GET 1 (json_named "") fruit_store
  = Ok (Jsonify
          (plant_dict
             (Plants.mkrow 1 "apple" (Some "") (Some "") 7 (Some "")
                "2024-01-01T09:00:00+00:00" "2024-01-01T09:00:00+00:00")
             None (Some "2024-01-08T09:00:00+00:00")) 200, fruit_store).
Proof.
  assert (R : reachable int_of_numeral fruit_store).
  { unfold fruit_store.
    apply reach_serve; [apply reach_serve; [apply reach_empty|]|];
      split; reflexivity. }
  assert (E : api_plants_rows fruit_store
              = Ok [(Plants.mkrow 2 "Banana" (Some "") (Some "") 7 (Some "")
                       "2024-01-01T09:00:00+00:00" "2024-01-01T09:00:00+00:00",
                     None, Some "2024-01-08T09:00:00+00:00");
                    (Plants.mkrow 1 "apple" (Some "") (Some "") 7 (Some "")
                       "2024-01-01T09:00:00+00:00" "2024-01-01T09:00:00+00:00",
                     None, Some "2024-01-08T09:00:00+00:00")])
    by (vm_compute; reflexivity).
  exact (proj2 (proj2 (proj2 (proj2
           (api_list_agrees_with_single_reads int_of_numeral clock0
              fruit_store _ R E))))
           _ _ _ (json_named "") (or_intror (or_introl eq_refl))).
Defined.

(** ** The CSV export *)

Lemma map_result_map {A B C : Type} (g : A -> result B) (h : B -> C)
  (l : list A) :
  map_result (fun x => y <- g x ;; Ok (h y)) l
  = (ys <- map_result g l ;; Ok (map h ys)).
Proof.
  induction l as [|a l IH]; simpl; [reflexivity|].
  destruct (g a) as [b|e]; simpl; [|reflexivity].
  rewrite IH.
  destruct (map_result g l) as [ys|e]; reflexivity.
Qed.

Lemma map_result_ext {A B : Type} (f g : A -> result B) (l : list A) :
  (forall x, f x = g x) -> map_result f l = map_result g l.
Proof.
  intros H. induction l as [|a l IH]; simpl; [reflexivity|].
  now rewrite H, IH.
Qed.

Lemma export_csv_rows (db : store) :
  export_csv db
  = (l <- api_plants_rows db ;; Ok (CSV_HEADER :: map csv_line l)).
Proof.
  unfold export_csv, api_plants_rows.
  set (rows := Sql.order_by _ (plants db)).
  rewrite (map_result_ext _
             (fun p => y <- (let last := get_last_watered db (Plants.id p) in
                             next <- compute_next_watering db p ;;
                             Ok (p, last, next)) ;;
                       Ok (csv_line y))).
  - rewrite map_result_map.
    destruct (map_result _ rows); reflexivity.
  - intros p. simpl. destruct (compute_next_watering db p); reflexivity.
Qed.

(** X18: the CSV export writes the header and then one line for each
    entry of the API list, in the order of that list, with the same
    last and next watering, an absent one written as the empty text;
    it fails exactly when the API list fails, with the same exception,
    and a written file has one line more than the store has plants. *)
Theorem export_csv_follows_the_api_list (db : store) :
  export_csv db
  = (l <- api_plants_rows db ;; Ok (CSV_HEADER :: map csv_line l))
  /\ (forall e, export_csv db = Raise e <-> api_plants_rows db = Raise e)
  /\ (forall lines, export_csv db = Ok lines ->
        List.length lines = S (List.length (plants db))).
Proof.
  pose proof (export_csv_rows db) as E.
  split; [exact E|]. split.
  - intros e. rewrite E.
    destruct (api_plants_rows db); simpl; split; congruence.
  - intros lines H. rewrite E in H.
    destruct (api_plants_rows db) as [l|] eqn:El; simpl in H; [|discriminate].
    injection H as <-. simpl. f_equal. rewrite length_map.
    destruct (api_list_in_text_order db l El) as [Hmap _].
    rewrite <- (length_map (fun x => fst (fst x)) l), Hmap.
    apply order_by_length.
Qed.

(** ** The edit page *)

(** X20: on a store reached through the handlers the edit page of an
    existing plant never fails on the creation timestamp: the stored
    text parses to a UTC value, and the page shows the stored row with
    that value formatted for display; the plant page redirects to the
    dashboard with the plant as detail. *)
Theorem edit_page_shows_the_stored_row
  (py_int : string -> option Z)
  (strftime_local : string -> datetime -> result string)
  (db : store) (pid : Z) (row : Plants.row) :
  reachable py_int db -> Sql.select_plant db pid = Some row ->
  view_plant pid db = Redirect "index" (Some pid)
  /\ exists d,
       parse_iso (Plants.created_at row) = Some d
       /\ tzinfo d = Some 0
       /\ edit_plant strftime_local pid db
          = (created <- strftime_local "%b %d, %Y %H:%M" d ;;
             Ok (EditPage (displayed_row row created))).
Proof.
  intros Hreach Hsel.
  destruct (select_plant_in db pid row Hsel) as [Hrow _].
  destruct (reachable_created_uniform py_int db Hreach row Hrow)
    as [d [Hd [Hz _]]].
  unfold view_plant, edit_plant. rewrite Hsel.
  split; [reflexivity|].
  exists d. rewrite Hd. split; [reflexivity|]. split; [exact Hz|reflexivity].
Qed.

Lemma edit_page_shows_the_stored_row_witness :
  edit_plant strftime_utc_host 1 fern_store
  = Ok (EditPage (displayed_row fern_row "Jan 01, 2024 09:00")).
Proof.
  destruct (edit_page_shows_the_stored_row int_of_numeral strftime_utc_host
              fern_store 1 fern_row fern_store_reachable eq_refl)
    as [_ [d [Hd [_ He]]]].
  rewrite He.
  assert (E : d = clock0)
    by (vm_compute in Hd; injection Hd as <-; reflexivity).
  rewrite E. vm_compute. reflexivity.
Defined.

(** ** Stored names *)

(** X21: on a store reached through the handlers every stored plant
    name is free of leading and trailing white space: trimming it
    again changes nothing. *)
Theorem stored_names_are_trimmed
  (py_int : string -> option Z) (db : store) (r : Plants.row) :
  reachable py_int db -> In r (plants db) ->
  strip (Plants.name r) = Plants.name r.
Proof.
  intros Hreach Hr. now apply (reachable_names_stripped py_int db Hreach).
Qed.

Lemma stored_names_are_trimmed_witness :
  strip (Plants.name fern_row) = Plants.name fern_row.
Proof.
  exact (stored_names_are_trimmed int_of_numeral fern_store fern_row
           fern_store_reachable (or_introl eq_refl)).
Defined.

(** ** A next watering past the end of the calendar *)

Lemma timedelta_days_raises (n : Z) (e : exn) :
  timedelta_days n = Raise e -> e = OverflowError.
Proof.
  unfold timedelta_days.
  destruct (Z.abs n <=? 999999999); [discriminate|congruence].
Qed.

Lemma datetime_add_raises (d : datetime) (td : timedelta) (e : exn) :
  datetime_add d td = Raise e -> e = OverflowError.
Proof.
  unfold datetime_add.
  set (total := naive_us d + td).
  destruct ((0 <? total / US_PER_DAY) && (total / US_PER_DAY <=? MAXORDINAL));
    [|congruence].
  destruct (ord2ymd (total / US_PER_DAY)) as [[y m] dd]. discriminate.
Qed.

Lemma bind_raise {A B : Type} (r : result A) (k : A -> result B) (e : exn) :
  bind r k = Raise e ->
  r = Raise e \/ exists a, r = Ok a /\ k a = Raise e.
Proof.
  destruct r as [a|e0]; simpl; intros H.
  - right. exists a. split; [reflexivity|exact H].
  - left. congruence.
Qed.

Lemma compute_next_watering_raises (db : store) (r : Plants.row) (e : exn) :
  compute_next_watering db r = Raise e -> e = OverflowError.
Proof.
  unfold compute_next_watering. intros H.
  match type of H with
  | match ?x with Some _ => _ | None => _ end = _ =>
      destruct x as [last|]; [|discriminate]
  end.
  apply bind_raise in H. destruct H as [H|[td [_ H]]].
  - now apply timedelta_days_raises in H.
  - apply bind_raise in H. destruct H as [H|[d' [_ H]]]; [|discriminate].
    now apply datetime_add_raises in H.
Qed.

Lemma map_result_raise_some {A B : Type} (f : A -> result B) (l : list A)
  (x : A) (e : exn) :
  In x l -> f x = Raise e -> exists e', map_result f l = Raise e'.
Proof.
  induction l as [|a l IH]; intros Hx Hf; [destruct Hx|].
  simpl. destruct Hx as [->|Hx].
  - rewrite Hf. simpl. now exists e.
  - destruct (f a) as [b|e0]; simpl; [|now exists e0].
    destruct (IH Hx Hf) as [e' ->]. simpl. now exists e'.
Qed.

Lemma map_result_raise_all {A B : Type} (f : A -> result B) (l : list A)
  (x : A) (e : exn) :
  (forall y e', f y = Raise e' -> e' = e) ->
  In x l -> f x = Raise e -> map_result f l = Raise e.
Proof.
  intros Hall Hx Hf.
  destruct (map_result_raise_some f l x e Hx Hf) as [e' He'].
  rewrite He'. f_equal.
  clear x Hx Hf. revert He'.
  induction l as [|a l IH]; simpl; [discriminate|].
  destruct (f a) as [b|e0] eqn:Ea; simpl.
  - destruct (map_result f l) as [ys|e1]; simpl; [discriminate|].
    intros [= <-]. now apply IH.
  - intros [= <-]. now apply (Hall a).
Qed.

(** X22: the only exception the next-watering computation raises is
    OverflowError, and on a store reached through the handlers one
    plant for which it is raised makes the API list, the CSV export and
    the single read of that plant end in OverflowError; when the plant
    has a watering event the dashboard does not render either. *)
Theorem overflowing_plant_fails_the_lists
  (py_int : string -> option Z) (now : datetime) (db : store)
  (r : Plants.row) (e : exn) :
  reachable py_int db -> In r (plants db) ->
  compute_next_watering db r = Raise e ->
  e = OverflowError
  /\ api_plants_rows db = Raise OverflowError
  /\ (forall data, api_plants py_int now GET data db = Raise OverflowError)
  /\ export_csv db = Raise OverflowError
  /\ (forall data,
        api_plant py_int now GET (Plants.id r) data db = Raise OverflowError)
  /\ (forall strftime_local q show s,
        get_last_watered db (Plants.id r) = Some s ->
        exists e', index strftime_local now q show db = Raise e').
Proof.
  intros Hreach Hr He.
  pose proof (compute_next_watering_raises db r e He) as ->.
  pose proof (reachable_inv py_int db Hreach) as Hinv.
  assert (Hrows : api_plants_rows db = Raise OverflowError).
  { unfold api_plants_rows.
    apply map_result_raise_all with r.
    - intros y e'. simpl.
      destruct (compute_next_watering db y) as [n|e0] eqn:E; simpl;
        [discriminate|].
      intros [= <-]. now apply (compute_next_watering_raises db y).
    - now apply order_by_in.
    - simpl. now rewrite He. }
  split; [reflexivity|]. split; [exact Hrows|].
  split; [intros data; unfold api_plants; now rewrite Hrows|].
  split.
  { rewrite export_csv_rows, Hrows. reflexivity. }
  split.
  { intros data. unfold api_plant.
    rewrite (select_plant_member db r (reachable_ids py_int db Hreach) Hr).
    now rewrite He. }
  intros strftime_local q show s Hs.
  assert (Hdec : exists e', decorate strftime_local now db r = Raise e').
  { destruct (decorate strftime_local now db r) as [p|e'] eqn:Ed;
      [|now exists e'].
    destruct (decorate_inv strftime_local now db r p Ed)
      as [created [next [_ [Hn _]]]].
    pose proof (get_last_watered_greatest db (Plants.id r) s Hs) as Hg.
    rewrite (next_watering_with_events db (displayed_row r created) s Hinv
               (inv_interval db Hinv r Hr) Hg) in Hn.
    rewrite (next_watering_with_events db r s Hinv
               (inv_interval db Hinv r Hr) Hg) in He.
    simpl in Hn. congruence. }
  destruct Hdec as [e' Hdec].
  unfold index.
  set (le := fun a b => Sql.nocase_le (Plants.name a) (Plants.name b)).
  destruct (map_result_raise_some (decorate strftime_local now db)
              (Sql.order_by le (plants db)) r e'
              (proj2 (order_by_in le r (plants db)) Hr) Hdec) as [e2 ->].
  simpl. now exists e2.
Qed.

Lemma overflowing_plant_fails_the_lists_witness :
  api_plants_rows oak_store = Raise OverflowError
  /\ export_csv oak_store = Raise OverflowError.
Proof.
  assert (R : reachable int_of_numeral oak_store).
  { unfold oak_store. apply reach_serve; [apply reach_empty|].
    split; reflexivity. }
  destruct (overflowing_plant_fails_the_lists int_of_numeral clock0 oak_store
              (Plants.mkrow 1 "Oak" None None 3000000 (Some "")
                 "2024-01-01T09:00:00+00:00" "2024-01-01T09:00:00+00:00")
              OverflowError R ltac:(vm_compute; left; reflexivity)
              ltac:(vm_compute; reflexivity))
    as [_ [H1 [_ [H2 _]]]].
  split; [exact H1|exact H2].
Defined.

(** * Properties of the handlers behind their routes *)

(** ** SQLite's integers *)

Lemma fits_int64_spec (n : Z) :
  fits_int64 n = true <-> INT64_MIN <= n <= INT64_MAX.
Proof. unfold fits_int64. rewrite andb_true_iff, !Z.leb_le. tauto. Qed.

Lemma fits_int64_upper (n : Z) : fits_int64 n = true -> n <= INT64_MAX.
Proof. intros H. now apply fits_int64_spec in H. Qed.

Lemma fits_int64_between (n : Z) :
  0 <= n -> n <= INT64_MAX -> fits_int64 n = true.
Proof. intros H1 H2. apply fits_int64_spec. unfold INT64_MIN. lia. Qed.

Lemma bind_int_fits (n : Z) :
  fits_int64 n = true -> Sqlite3.bind_int n = Ok n.
Proof. unfold Sqlite3.bind_int. now intros ->. Qed.

Lemma bind_int_overflow (n : Z) :
  fits_int64 n = false -> Sqlite3.bind_int n = Raise OverflowError.
Proof. unfold Sqlite3.bind_int. now intros ->. Qed.

Lemma next_rowid_below (seq : Z) :
  seq < INT64_MAX -> Sqlite3.next_rowid seq = Ok (seq + 1).
Proof.
  intros H. unfold Sqlite3.next_rowid.
  now replace (seq <? INT64_MAX) with true by (symmetry; now apply Z.ltb_lt).
Qed.

Lemma next_rowid_full (seq : Z) :
  INT64_MAX <= seq -> Sqlite3.next_rowid seq = Raise OperationalError.
Proof.
  intros H. unfold Sqlite3.next_rowid.
  now replace (seq <? INT64_MAX) with false by (symmetry; now apply Z.ltb_ge).
Qed.

Lemma select_plant_fits (db : store) (pid : Z) :
  fits_int64 pid = true ->
  Sqlite3.select_plant db pid = Ok (Sql.select_plant db pid).
Proof. intros H. unfold Sqlite3.select_plant. now rewrite bind_int_fits. Qed.

Lemma select_plant_overflow (db : store) (pid : Z) :
  fits_int64 pid = false ->
  Sqlite3.select_plant db pid = Raise OverflowError.
Proof. intros H. unfold Sqlite3.select_plant. now rewrite bind_int_overflow. Qed.

Lemma select_plant_ok (db : store) (pid : Z) (r : option Plants.row) :
  Sqlite3.select_plant db pid = Ok r ->
  fits_int64 pid = true /\ Sql.select_plant db pid = r.
Proof.
  unfold Sqlite3.select_plant, Sqlite3.bind_int.
  destruct (fits_int64 pid); simpl; [|discriminate].
  intros [= <-]. split; reflexivity.
Qed.

Lemma insert_plant_fits (db : store) (name : string)
  (species location : option string) (interval : Z) (notes : option string)
  (created updated : string) :
  fits_int64 interval = true -> plants_seq db < INT64_MAX ->
  Sqlite3.insert_plant db name species location interval notes created updated
  = Ok (Sql.insert_plant db name species location interval notes created
          updated).
Proof.
  intros Hi Hs. unfold Sqlite3.insert_plant.
  now rewrite bind_int_fits, next_rowid_below.
Qed.

Lemma insert_plant_ok (db : store) (name : string)
  (species location : option string) (interval : Z) (notes : option string)
  (created updated : string) (r : Z * store) :
  Sqlite3.insert_plant db name species location interval notes created updated
  = Ok r ->
  fits_int64 interval = true /\ plants_seq db < INT64_MAX
  /\ r = Sql.insert_plant db name species location interval notes created
           updated.
Proof.
  unfold Sqlite3.insert_plant, Sqlite3.bind_int, Sqlite3.next_rowid.
  destruct (fits_int64 interval); simpl; [|discriminate].
  destruct (Z.ltb_spec (plants_seq db) INT64_MAX); simpl; [|discriminate].
  intros [= <-]. auto.
Qed.

Lemma update_plant_row_fits (db : store) (pid : Z) (name : string)
  (species location : option string) (interval : Z) (notes : option string)
  (updated : string) :
  fits_int64 interval = true -> fits_int64 pid = true ->
  Sqlite3.update_plant_row db pid name species location interval notes updated
  = Ok (Sql.update_plant_row db pid name species location interval notes
          updated).
Proof.
  intros Hi Hp. unfold Sqlite3.update_plant_row.
  now rewrite !bind_int_fits.
Qed.

Lemma update_plant_row_ok (db : store) (pid : Z) (name : string)
  (species location : option string) (interval : Z) (notes : option string)
  (updated : string) (db' : store) :
  Sqlite3.update_plant_row db pid name species location interval notes updated
  = Ok db' ->
  fits_int64 interval = true /\ fits_int64 pid = true
  /\ db' = Sql.update_plant_row db pid name species location interval notes
             updated.
Proof.
  unfold Sqlite3.update_plant_row, Sqlite3.bind_int.
  destruct (fits_int64 interval); simpl; [|discriminate].
  destruct (fits_int64 pid); simpl; [|discriminate].
  intros [= <-]. auto.
Qed.

Lemma insert_log_fits (db : store) (pid : Z) (t note : string) :
  fits_int64 pid = true -> water_logs_seq db < INT64_MAX ->
  Sqlite3.insert_log db pid t note = Ok (Sql.insert_log db pid t note).
Proof.
  intros Hp Hs. unfold Sqlite3.insert_log.
  now rewrite bind_int_fits, next_rowid_below.
Qed.

Lemma insert_log_ok (db : store) (pid : Z) (t note : string) (db' : store) :
  Sqlite3.insert_log db pid t note = Ok db' ->
  fits_int64 pid = true /\ water_logs_seq db < INT64_MAX
  /\ db' = Sql.insert_log db pid t note.
Proof.
  unfold Sqlite3.insert_log, Sqlite3.bind_int, Sqlite3.next_rowid.
  destruct (fits_int64 pid); simpl; [|discriminate].
  destruct (Z.ltb_spec (water_logs_seq db) INT64_MAX); simpl; [|discriminate].
  intros [= <-]. auto.
Qed.

(** ** The routes refine the handlers *)

Lemma route_create_plant_refines (py_int : string -> option Z)
  (now : datetime) (form : plant_form) (db : store) (r : response * store) :
  Route.create_plant py_int now form db = Ok r ->
  create_plant py_int now form db = r.
Proof.
  unfold Route.create_plant, create_plant.
  destruct (negb (truthy (strip (or_else (form_name form) "")))); simpl;
    [congruence|].
  match goal with
  | |- bind ?x _ = _ -> _ => destruct x as [r0|] eqn:E; simpl; [|discriminate]
  end.
  apply insert_plant_ok in E. destruct E as [_ [_ ->]].
  intros [= <-]. reflexivity.
Qed.

Lemma route_view_plant_refines (pid : Z) (db : store) (r : response) :
  Route.view_plant pid db = Ok r -> view_plant pid db = r.
Proof.
  unfold Route.view_plant, view_plant.
  destruct (Sqlite3.select_plant db pid) as [row|] eqn:E; simpl;
    [|discriminate].
  apply select_plant_ok in E. destruct E as [_ ->].
  destruct row; congruence.
Qed.

Lemma route_edit_plant_refines
  (strftime_local : string -> datetime -> result string) (pid : Z)
  (db : store) (r : edit_response) :
  Route.edit_plant strftime_local pid db = Ok r ->
  edit_plant strftime_local pid db = Ok r.
Proof.
  unfold Route.edit_plant, edit_plant.
  destruct (Sqlite3.select_plant db pid) as [row|] eqn:E; simpl;
    [|discriminate].
  apply select_plant_ok in E. destruct E as [_ ->].
  destruct row; intros H; exact H.
Qed.

Lemma route_update_plant_refines (py_int : string -> option Z)
  (now : datetime) (pid : Z) (form : plant_form) (db : store)
  (r : response * store) :
  Route.update_plant py_int now pid form db = Ok r ->
  update_plant py_int now pid form db = r.
Proof.
  unfold Route.update_plant, update_plant.
  destruct (Sqlite3.select_plant db pid) as [row|] eqn:E; simpl;
    [|discriminate].
  apply select_plant_ok in E. destruct E as [_ ->].
  destruct row as [row|]; [|congruence].
  match goal with
  | |- bind ?x _ = _ -> _ => destruct x as [db'|] eqn:E; simpl; [|discriminate]
  end.
  apply update_plant_row_ok in E. destruct E as [_ [_ ->]].
  congruence.
Qed.

Lemma route_delete_plant_fits (pid : Z) (db : store) :
  fits_int64 pid = true ->
  Route.delete_plant pid db = Ok (delete_plant pid db).
Proof.
  intros H. unfold Route.delete_plant, Sqlite3.delete_plants_where_id,
    Sqlite3.delete_logs_where_plant.
  now rewrite bind_int_fits.
Qed.

Lemma route_delete_plant_overflow (pid : Z) (db : store) :
  fits_int64 pid = false -> Route.delete_plant pid db = Raise OverflowError.
Proof.
  intros H. unfold Route.delete_plant, Sqlite3.delete_plants_where_id.
  now rewrite bind_int_overflow.
Qed.

Lemma route_delete_plant_refines (pid : Z) (db : store)
  (r : response * store) :
  Route.delete_plant pid db = Ok r -> delete_plant pid db = r.
Proof.
  destruct (fits_int64 pid) eqn:F.
  - rewrite route_delete_plant_fits by exact F. congruence.
  - rewrite route_delete_plant_overflow by exact F. discriminate.
Qed.

Lemma route_log_water_refines (now : datetime) (pid : Z)
  (w n : option string) (db : store) (r : response * store) :
  Route.log_water now pid w n db = Ok r -> log_water now pid w n db = r.
Proof.
  unfold Route.log_water, log_water.
  destruct (Sqlite3.select_plant db pid) as [row|] eqn:E; simpl;
    [|discriminate].
  apply select_plant_ok in E. destruct E as [_ ->].
  destruct row as [row|]; [|congruence].
  match goal with
  | |- bind ?x _ = _ -> _ => destruct x as [db'|] eqn:E; simpl; [|discriminate]
  end.
  apply insert_log_ok in E. destruct E as [_ [_ ->]].
  congruence.
Qed.

Lemma route_log_water_backdate_refines (now : datetime) (pid : Z)
  (d n : option string) (db : store) (r : response * store) :
  Route.log_water_backdate now pid d n db = Ok r ->
  log_water_backdate now pid d n db = r.
Proof.
  unfold Route.log_water_backdate, log_water_backdate.
  destruct (Sqlite3.select_plant db pid) as [row|] eqn:E; simpl;
    [|discriminate].
  apply select_plant_ok in E. destruct E as [_ ->].
  destruct row as [row|]; [|congruence].
  match goal with
  | |- bind ?x _ = _ -> _ => destruct x as [db'|] eqn:E; simpl; [|discriminate]
  end.
  apply insert_log_ok in E. destruct E as [_ [_ ->]].
  congruence.
Qed.

Lemma route_api_log_water_refines (now : datetime) (pid : Z)
  (w n : option string) (db : store) (r : response * store) :
  Route.api_log_water now pid w n db = Ok r ->
  api_log_water now pid w n db = r.
Proof.
  unfold Route.api_log_water, api_log_water.
  destruct (Sqlite3.select_plant db pid) as [row|] eqn:E; simpl;
    [|discriminate].
  apply select_plant_ok in E. destruct E as [_ ->].
  destruct row as [row|]; [|congruence].
  match goal with
  | |- bind ?x _ = _ -> _ => destruct x as [db'|] eqn:E; simpl; [|discriminate]
  end.
  apply insert_log_ok in E. destruct E as [_ [_ ->]].
  congruence.
Qed.

Lemma route_api_plants_refines (py_int : string -> option Z)
  (now : datetime) (m : method) (data : plant_json) (db : store)
  (r : response * store) :
  Route.api_plants py_int now m data db = Ok r ->
  api_plants py_int now m data db = Ok r \/ r = (Abort 405, db).
Proof.
  unfold Route.api_plants, api_plants.
  destruct m; try (intros [= <-]; now right).
  - intros H. now left.
  - destruct (negb (truthy (strip (or_else (jget (json_name data)) ""))));
      [intros H; now left|].
    match goal with
    | |- bind ?x _ = _ -> _ =>
        destruct x as [r0|] eqn:E; simpl; [|discriminate]
    end.
    apply insert_plant_ok in E. destruct E as [_ [_ ->]].
    intros [= <-]. now left.
Qed.

Lemma route_api_plant_refines (py_int : string -> option Z)
  (now : datetime) (m : method) (pid : Z) (data : plant_json) (db : store)
  (r : response * store) :
  Route.api_plant py_int now m pid data db = Ok r ->
  api_plant py_int now m pid data db = Ok r \/ r = (Abort 405, db).
Proof.
  unfold Route.api_plant, api_plant.
  destruct m; try (intros [= <-]; now right);
    (destruct (Sqlite3.select_plant db pid) as [sel|] eqn:E; simpl;
       [|discriminate];
     apply select_plant_ok in E; destruct E as [F <-];
     destruct (Sql.select_plant db pid) as [row|]; [|intros H; now left]).
  - intros H. now left.
  - match goal with
    | |- bind ?x _ = _ -> _ =>
        destruct x as [db'|] eqn:E; simpl; [|discriminate]
    end.
    apply update_plant_row_ok in E. destruct E as [_ [_ ->]].
    intros H. now left.
  - unfold Sqlite3.delete_plants_where_id, Sqlite3.delete_logs_where_plant.
    rewrite bind_int_fits by exact F. simpl. intros H. now left.
Qed.

Lemma route_serve_cases (py_int : string -> option Z) (now : datetime)
  (req : request) (db : store) :
  Route.serve py_int now req db = db
  \/ Route.serve py_int now req db = serve py_int now req db.
Proof.
  destruct req as [form|pid form|pid|pid w n|pid d n|m data|m pid data
                  |pid w n|]; cbv beta iota delta [Route.serve serve].
  - destruct (Route.create_plant py_int now form db) as [r|] eqn:E;
      [right|now left].
    apply route_create_plant_refines in E. rewrite E. now destruct r.
  - destruct (Route.update_plant py_int now pid form db) as [r|] eqn:E;
      [right|now left].
    apply route_update_plant_refines in E. rewrite E. now destruct r.
  - destruct (Route.delete_plant pid db) as [r|] eqn:E; [right|now left].
    apply route_delete_plant_refines in E. rewrite E. now destruct r.
  - destruct (Route.log_water now pid w n db) as [r|] eqn:E; [right|now left].
    apply route_log_water_refines in E. rewrite E. now destruct r.
  - destruct (Route.log_water_backdate now pid d n db) as [r|] eqn:E;
      [right|now left].
    apply route_log_water_backdate_refines in E. rewrite E. now destruct r.
  - destruct (Route.api_plants py_int now m data db) as [r|] eqn:E;
      [|now left].
    apply route_api_plants_refines in E. destruct E as [E| ->];
      [right; now rewrite E|now left].
  - destruct (Route.api_plant py_int now m pid data db) as [r|] eqn:E;
      [|now left].
    apply route_api_plant_refines in E. destruct E as [E| ->];
      [right; now rewrite E|now left].
  - destruct (Route.api_log_water now pid w n db) as [r|] eqn:E;
      [right|now left].
    apply route_api_log_water_refines in E. rewrite E. now destruct r.
  - right. reflexivity.
Qed.

Lemma route_reachable_is_reachable (py_int : string -> option Z) (db : store) :
  Route.reachable py_int db -> reachable py_int db.
Proof.
  induction 1 as [|db now req _ IH Hclock]; [constructor|].
  destruct (route_serve_cases py_int now req db) as [-> | ->];
    [exact IH|now apply reach_serve].
Qed.

(** ** What the routes store fits SQLite's integers *)

Lemma fits_empty : fits_inv empty_store.
Proof.
  split; simpl; [intros r []|intros w []|].
  unfold INT64_MAX. lia.
Qed.

Lemma fits_insert_plant (db : store) (name : string)
  (species location : option string) (interval : Z) (notes : option string)
  (created updated : string) (r : Z * store) :
  fits_inv db ->
  Sqlite3.insert_plant db name species location interval notes created updated
  = Ok r ->
  fits_inv (snd r).
Proof.
  intros [Hp Hl [Hc1 Hc2]] H. apply insert_plant_ok in H.
  destruct H as [Hi [Hs ->]]. apply fits_int64_upper in Hi.
  split; simpl.
  - intros x Hx. apply in_app_or in Hx. destruct Hx as [Hx|[<-|[]]];
      [now apply Hp|]. simpl. lia.
  - exact Hl.
  - lia.
Qed.

Lemma fits_update_plant_row (db : store) (pid : Z) (name : string)
  (species location : option string) (interval : Z) (notes : option string)
  (updated : string) (db' : store) :
  fits_inv db ->
  Sqlite3.update_plant_row db pid name species location interval notes updated
  = Ok db' ->
  fits_inv db'.
Proof.
  intros [Hp Hl Hc] H. apply update_plant_row_ok in H.
  destruct H as [Hi [Hpid ->]].
  apply fits_int64_upper in Hi. apply fits_int64_upper in Hpid.
  split; simpl; [|exact Hl|exact Hc].
  intros x Hx. apply in_map_iff in Hx. destruct Hx as [r0 [<- Hr0]].
  destruct (Plants.id r0 =? pid); [simpl; lia|now apply Hp].
Qed.

Lemma fits_delete (db : store) (pid : Z) :
  fits_inv db ->
  fits_inv (Sql.delete_logs_where_plant (Sql.delete_plants_where_id db pid) pid).
Proof.
  intros [Hp Hl Hc]. split; simpl; [| |exact Hc].
  - intros x Hx. apply filter_In in Hx. now apply Hp.
  - intros w Hw. apply filter_In in Hw. now apply Hl.
Qed.

Lemma fits_insert_log (db : store) (pid : Z) (t note : string) (db' : store) :
  fits_inv db -> Sqlite3.insert_log db pid t note = Ok db' -> fits_inv db'.
Proof.
  intros [Hp Hl [Hc1 Hc2]] H. apply insert_log_ok in H.
  destruct H as [Hpid [Hs ->]]. apply fits_int64_upper in Hpid.
  split; simpl.
  - exact Hp.
  - intros w Hw. apply in_app_or in Hw. destruct Hw as [Hw|[<-|[]]];
      [now apply Hl|]. simpl. lia.
  - lia.
Qed.

Ltac fits_after_select :=
  match goal with
  | |- context [Sqlite3.select_plant ?db ?pid] =>
      destruct (Sqlite3.select_plant db pid) as [[row|]|];
      cbn [bind committed]; try assumption
  end.

Ltac fits_after_statement lem :=
  match goal with
  | |- context [bind ?x _] =>
      let E := fresh "E" in
      destruct x as [r|] eqn:E; cbn [bind committed snd]; [|assumption];
      eapply lem; eassumption
  end.

Lemma fits_serve (py_int : string -> option Z) (now : datetime)
  (req : request) (db : store) :
  fits_inv db -> fits_inv (Route.serve py_int now req db).
Proof.
  intros Hfits.
  destruct req as [form|pid form|pid|pid w n|pid d n|m data|m pid data
                  |pid w n|]; cbv beta iota delta [Route.serve].
  - unfold Route.create_plant.
    destruct (negb (truthy (strip (or_else (form_name form) ""))));
      cbn [committed]; [assumption|].
    fits_after_statement fits_insert_plant.
  - unfold Route.update_plant. fits_after_select.
    fits_after_statement fits_update_plant_row.
  - destruct (fits_int64 pid) eqn:F.
    + rewrite route_delete_plant_fits by exact F. simpl.
      now apply (fits_delete db pid).
    + now rewrite route_delete_plant_overflow by exact F.
  - unfold Route.log_water. fits_after_select.
    fits_after_statement fits_insert_log.
  - unfold Route.log_water_backdate. fits_after_select.
    fits_after_statement fits_insert_log.
  - unfold Route.api_plants. destruct m; cbn [committed]; try assumption.
    + destruct (api_plants_rows db); cbn [bind committed]; assumption.
    + destruct (negb (truthy (strip (or_else (jget (json_name data)) ""))));
        cbn [committed]; [assumption|].
      fits_after_statement fits_insert_plant.
  - unfold Route.api_plant. destruct m; cbn [committed]; try assumption;
      fits_after_select.
    + destruct (compute_next_watering db row); cbn [bind committed];
        assumption.
    + fits_after_statement fits_update_plant_row.
    + destruct (fits_int64 pid) eqn:F;
        unfold Sqlite3.delete_plants_where_id, Sqlite3.delete_logs_where_plant.
      * rewrite bind_int_fits by exact F. cbn [bind committed].
        now apply (fits_delete db pid).
      * rewrite bind_int_overflow by exact F. cbn [bind committed].
        assumption.
  - unfold Route.api_log_water. fits_after_select.
    fits_after_statement fits_insert_log.
  - destruct Hfits as [_ _ Hc]. split; simpl; [intros r []|intros w []|].
    exact Hc.
Qed.

Lemma route_reachable_fits (py_int : string -> option Z) (db : store) :
  Route.reachable py_int db -> fits_inv db.
Proof.
  induction 1 as [|db now req _ IH _]; [apply fits_empty|].
  now apply fits_serve.
Qed.

Lemma served_fern_store_reachable :
  Route.reachable int_of_numeral served_fern_store.
Proof.
  unfold served_fern_store.
  apply Route.reach_serve; [apply Route.reach_empty|]. split; reflexivity.
Qed.

(** X25: the routes reach only stores that the handlers reach, and
    every identifier, every watering interval and both rowid counters
    of such a store fit a 64-bit integer: a request either ends as the
    handler over unbounded integers does, or it commits nothing. *)
Theorem served_stores_are_reachable_and_fit
  (py_int : string -> option Z) (db : store) :
  Route.reachable py_int db ->
  reachable py_int db
  /\ (forall r, In r (plants db) ->
        fits_int64 (Plants.id r) = true
        /\ fits_int64 (Plants.water_interval_days r) = true)
  /\ (forall w, In w (water_logs db) ->
        fits_int64 (WaterLogs.id w) = true
        /\ fits_int64 (WaterLogs.plant_id w) = true)
  /\ 0 <= plants_seq db <= INT64_MAX
  /\ 0 <= water_logs_seq db <= INT64_MAX
  /\ forall now req,
       Route.serve py_int now req db = db
       \/ Route.serve py_int now req db = serve py_int now req db.
Proof.
  intros H.
  pose proof (route_reachable_is_reachable py_int db H) as Hreach.
  pose proof (route_reachable_fits py_int db H) as [Hp Hl [Hc1 Hc2]].
  pose proof (reachable_inv py_int db Hreach) as Hinv.
  pose proof (reachable_ids py_int db Hreach) as Hids.
  split; [exact Hreach|]. split; [|split; [|split; [|split]]].
  - intros r Hr. destruct (Hp r Hr) as [H1 H2].
    pose proof (ids_plants_bound db Hids r Hr).
    pose proof (inv_interval db Hinv r Hr).
    split; apply fits_int64_between; lia.
  - intros w Hw. destruct (Hl w Hw) as [H1 H2].
    pose proof (ids_logs_bound db Hids w Hw).
    destruct (inv_owner db Hinv w Hw) as [r [Hr E]].
    pose proof (ids_plants_bound db Hids r Hr).
    split; apply fits_int64_between; lia.
  - destruct (ids_counters db Hids). lia.
  - destruct (ids_counters db Hids). lia.
  - intros now req. apply route_serve_cases.
Qed.

Lemma served_stores_are_reachable_and_fit_witness :
  reachable int_of_numeral served_fern_store
  /\ 0 <= plants_seq served_fern_store <= INT64_MAX.
Proof.
  destruct (served_stores_are_reachable_and_fit int_of_numeral
              served_fern_store served_fern_store_reachable)
    as [H1 [_ [_ [H2 _]]]].
  split; [exact H1|exact H2].
Defined.

(** ** Logging a backdated watering event *)

Lemma insert_log_appends (db : store) (pid : Z) (t note : string) :
  appends_event db (Sql.insert_log db pid t note)
    (WaterLogs.mkrow (water_logs_seq db + 1) pid t note).
Proof. repeat split. Qed.

Lemma route_log_water_backdate_stored (now : datetime) (db : store) (pid : Z)
  (row : Plants.row) (date note : option string) :
  Sqlite3.select_plant db pid = Ok (Some row) ->
  water_logs_seq db < INT64_MAX ->
  Route.log_water_backdate now pid date note db
  = Ok (Redirect "index" (Some pid),
        Sql.insert_log db pid
          (try_except (fromisoformat_arg date)
             (fun dt => isoformat (replace_tzinfo_utc dt))
             (fun _ => now_iso now))
          (or_else note "backdated")).
Proof.
  intros Hsel Hseq. unfold Route.log_water_backdate. rewrite Hsel.
  apply select_plant_ok in Hsel. destruct Hsel as [F _].
  cbn [bind]. now rewrite insert_log_fits.
Qed.




(** X12: the backdate handler appends one event whose timestamp is
    always in the uniform UTC representation.  A date field that
    [fromisoformat] reads, with or without a time of day and an offset,
    is stored with its wall-clock fields unchanged and labelled UTC: an
    offset in the input is dropped, not converted, so the stored instant
    is the wall-clock reading of the input. *)
Theorem backdated_timestamp_is_uniform
  (now : datetime) (db : store) (pid : Z) (row : Plants.row)
  (date note : option string) :
  utc_clock now -> Sqlite3.select_plant db pid = Ok (Some row) ->
  water_logs_seq db < INT64_MAX ->
  exists t db',
    Route.log_water_backdate now pid date note db
    = Ok (Redirect "index" (Some pid), db')
    /\ appends_event db db'
         (WaterLogs.mkrow (water_logs_seq db + 1) pid t
            (or_else note "backdated"))
    /\ In t (event_texts db' pid)
    /\ uniform_utc_text t
    /\ (forall s d, date = Some s -> fromisoformat s = Some d ->
          parse_iso t = Some (replace_tzinfo_utc d)
          /\ instant_of_text t = Some (naive_us d)).
Proof.
  intros Hclock Hsel Hseq.
  eexists. eexists.
  split; [apply (route_log_water_backdate_stored now db pid row); assumption|].
  split; [apply insert_log_appends|].
  split.
  { rewrite event_texts_insert_log, Z.eqb_refl.
    apply in_or_app. right. now left. }
  split; [now apply backdate_stamp_uniform|].
  intros s d -> Hd. unfold fromisoformat_arg. rewrite Hd. simpl.
  assert (P : parse_iso (isoformat (replace_tzinfo_utc d))
              = Some (replace_tzinfo_utc d)).
  { apply parse_isoformat_utc; [|reflexivity].
    apply valid_replace_tzinfo_utc. now apply fromisoformat_valid with s. }
  split; [exact P|].
  unfold instant_of_text. rewrite P. unfold instant. simpl.
  f_equal. unfold naive_us, toordinal. simpl. lia.
Qed.

Lemma backdated_timestamp_is_uniform_witness :
  exists db',
    Route.log_water_backdate clock0 1 (Some "2024-01-01T10:00:00+05:00") None
      served_fern_store
    = Ok (Redirect "index" (Some 1), db')
    /\ water_logs db'
       = [WaterLogs.mkrow 1 1 "2024-01-01T10:00:00+00:00" "backdated"].
Proof.
  destruct (backdated_timestamp_is_uniform clock0 served_fern_store 1 fern_row
              (Some "2024-01-01T10:00:00+05:00") None
              (conj eq_refl eq_refl) ltac:(vm_compute; reflexivity)
              ltac:(vm_compute; reflexivity))
    as [t [db' [H1 [[_ [H2 _]] _]]]].
  exists db'. split; [exact H1|].
  assert (E : Route.log_water_backdate clock0 1
                (Some "2024-01-01T10:00:00+05:00") None served_fern_store
              = Ok (Redirect "index" (Some 1),
                    mkstore (plants served_fern_store)
                      [WaterLogs.mkrow 1 1 "2024-01-01T10:00:00+00:00"
                         "backdated"] 1 1))
    by (vm_compute; reflexivity).
  rewrite E in H1. injection H1 as <-. reflexivity.
Defined.

(** ** Deleting behind the routes *)

Lemma route_api_plant_fits (py_int : string -> option Z) (now : datetime)
  (m : method) (pid : Z) (data : plant_json) (db : store) :
  fits_int64 pid = true -> (m = GET \/ m = DELETE) ->
  Route.api_plant py_int now m pid data db = api_plant py_int now m pid data db.
Proof.
  intros F Hm. unfold Route.api_plant, api_plant.
  rewrite select_plant_fits by exact F. cbn [bind].
  destruct Hm as [-> | ->];
    (destruct (Sql.select_plant db pid) as [row|]; [|reflexivity]);
    [reflexivity|].
  unfold Sqlite3.delete_plants_where_id, Sqlite3.delete_logs_where_plant.
  now rewrite bind_int_fits.
Qed.

Lemma route_api_plant_overflow (py_int : string -> option Z) (now : datetime)
  (m : method) (pid : Z) (data : plant_json) (db : store) :
  fits_int64 pid = false -> m <> POST ->
  Route.api_plant py_int now m pid data db = Raise OverflowError.
Proof.
  intros F Hm. unfold Route.api_plant.
  rewrite select_plant_overflow by exact F.
  destruct m; try reflexivity. contradiction.
Qed.

(** C8: on a store reached through the handlers and for an identifier
    that fits a 64-bit integer, the page handler deletes an identifier
    that names no plant without any error and without any change to the
    store, while the API handler answers 404 with
    [{"error": "not found"}]; for an identifier that names a plant, both
    handlers succeed and remove the plant.  For an identifier that does
    not fit, both handlers end in OverflowError. *)
Theorem delete_of_absent_and_present_plant
  (py_int : string -> option Z) (now : datetime) (db : store) (pid : Z)
  (data : plant_json) :
  reachable py_int db ->
  (fits_int64 pid = true ->
   (Sql.select_plant db pid = None ->
    Route.delete_plant pid db = Ok (Redirect "index" None, db)
    /\ Route.api_plant py_int now DELETE pid data db = Ok (NOT_FOUND, db))
   /\ (forall row, Sql.select_plant db pid = Some row ->
       exists db',
         Route.delete_plant pid db = Ok (Redirect "index" None, db')
         /\ Route.api_plant py_int now DELETE pid data db
            = Ok (Jsonify (JDict [("ok", JBool true)]) 200, db')
         /\ plants db'
            = filter (fun r => negb (Plants.id r =? pid)) (plants db)
         /\ ~ In row (plants db')
         /\ Sql.select_plant db' pid = None))
  /\ (fits_int64 pid = false ->
      Route.delete_plant pid db = Raise OverflowError
      /\ Route.api_plant py_int now DELETE pid data db = Raise OverflowError).
Proof.
  intros Hreach.
  destruct (delete_absent_and_present py_int now db pid data Hreach)
    as [Habsent Hpresent].
  split.
  - intros F.
    rewrite route_delete_plant_fits by exact F.
    rewrite route_api_plant_fits by (exact F || now right).
    split.
    + intros Hsel. destruct (Habsent Hsel) as [H1 H2].
      rewrite H1. split; [reflexivity|exact H2].
    + intros row Hsel. destruct (Hpresent row Hsel) as [db' [H1 [H2 H3]]].
      exists db'. rewrite H1. split; [reflexivity|]. split; [exact H2|].
      assert (E : db' = Sql.delete_logs_where_plant
                          (Sql.delete_plants_where_id db pid) pid)
        by (unfold delete_plant in H1; congruence).
      split; [now rewrite E|]. split; [|exact H3].
      rewrite E. simpl. intros Hin. apply filter_In in Hin.
      destruct Hin as [_ Hin].
      destruct (select_plant_in db pid row Hsel) as [_ Hid].
      rewrite Hid, Z.eqb_refl in Hin. discriminate.
  - intros F. split;
      [now apply route_delete_plant_overflow
      |apply route_api_plant_overflow; [exact F|discriminate]].
Qed.

Lemma delete_of_absent_and_present_plant_witness :
  Route.delete_plant 5 served_fern_store
  = Ok (Redirect "index" None, served_fern_store)
  /\ Route.api_plant int_of_numeral clock0 DELETE 5 (json_named "")
       served_fern_store
     = Ok (NOT_FOUND, served_fern_store).
Proof.
  exact (proj1 (proj1 (delete_of_absent_and_present_plant int_of_numeral
                         clock0 served_fern_store 5 (json_named "")
                         (route_reachable_is_reachable _ _
                            served_fern_store_reachable))
                  eq_refl)
           ltac:(vm_compute; reflexivity)).
Defined.

(** C8 fails for an identifier that SQLite cannot hold: the routes
    accept 9223372036854775808, which names no plant of the store that
    holds the one plant Fern, and both delete handlers end in
    OverflowError, where the claim has the page handler complete and the
    API handler answer NotFound. *)
Lemma delete_fails_on_unbindable_identifier :
  Route.reachable int_of_numeral served_fern_store
  /\ map Plants.id (plants served_fern_store) = [1]
  /\ Sql.select_plant served_fern_store HUGE_ID = None
  /\ Route.delete_plant HUGE_ID served_fern_store = Raise OverflowError
  /\ Route.delete_plant HUGE_ID served_fern_store
     <> Ok (Redirect "index" None, served_fern_store)
  /\ Route.api_plant int_of_numeral clock0 DELETE HUGE_ID (json_named "")
       served_fern_store
     = Raise OverflowError
  /\ Route.api_plant int_of_numeral clock0 DELETE HUGE_ID (json_named "")
       served_fern_store
     <> Ok (NOT_FOUND, served_fern_store).
Proof.
  split; [apply served_fern_store_reachable|].
  split; [vm_compute; reflexivity|].
  split; [vm_compute; reflexivity|].
  split; [vm_compute; reflexivity|].
  split; [vm_compute; discriminate|].
  split; [vm_compute; reflexivity|].
  vm_compute. discriminate.
Qed.

(** ** A plant that does not exist *)

(** X7: for an identifier that fits a 64-bit integer and names no
    plant, every handler that addresses a plant, other than the page
    delete, answers not-found and leaves the store as it is: the page
    handlers abort with 404 and the API handlers answer 404 with
    [{"error": "not found"}]; the method POST, which the route of the
    single plant does not list, is answered 405. *)
Theorem missing_plant_is_not_found
  (py_int : string -> option Z)
  (strftime_local : string -> datetime -> result string) (now : datetime)
  (db : store) (pid : Z) (form : plant_form) (data : plant_json)
  (x n : option string) (m : method) :
  Sqlite3.select_plant db pid = Ok None ->
  Route.view_plant pid db = Ok (Abort 404)
  /\ Route.edit_plant strftime_local pid db = Ok (EditAbort 404)
  /\ Route.update_plant py_int now pid form db = Ok (Abort 404, db)
  /\ Route.log_water now pid x n db = Ok (Abort 404, db)
  /\ Route.log_water_backdate now pid x n db = Ok (Abort 404, db)
  /\ Route.api_log_water now pid x n db = Ok (NOT_FOUND, db)
  /\ Route.api_plant py_int now m pid data db
     = Ok (match m with POST => Abort 405 | _ => NOT_FOUND end, db)
  /\ forall req, addresses req pid -> req <> ReqDeletePlant pid ->
       Route.serve py_int now req db = db.
Proof.
  intros H.
  unfold Route.view_plant, Route.edit_plant, Route.update_plant,
    Route.log_water, Route.log_water_backdate, Route.api_plant,
    Route.api_log_water.
  rewrite H. cbn [bind].
  repeat (split; [reflexivity|]).
  split; [destruct m; reflexivity|].
  intros req Ha Hd.
  destruct req as [form'|p form'|p|p w' n'|p d' n'|m' data'|m' p data'
                  |p w' n'|]; simpl in Ha; try contradiction;
    try (subst p); cbv beta iota delta [Route.serve].
  - unfold Route.update_plant. now rewrite H.
  - congruence.
  - unfold Route.log_water. now rewrite H.
  - unfold Route.log_water_backdate. now rewrite H.
  - destruct Ha as [-> Hm]. unfold Route.api_plant. rewrite H.
    destruct m'; reflexivity.
  - unfold Route.api_log_water. now rewrite H.
Qed.

Lemma missing_plant_is_not_found_witness :
  Route.update_plant int_of_numeral clock0 9 (form_named "Ivy")
    served_fern_store
  = Ok (Abort 404, served_fern_store)
  /\ Route.api_log_water clock0 9 None None served_fern_store
     = Ok (NOT_FOUND, served_fern_store).
Proof.
  destruct (missing_plant_is_not_found int_of_numeral strftime_utc_host clock0
              served_fern_store 9 (form_named "Ivy") (json_named "") None None
              GET ltac:(vm_compute; reflexivity))
    as [_ [_ [H1 [_ [_ [H2 _]]]]]].
  split; [exact H1|exact H2].
Defined.

(** ** Integers that SQLite cannot hold *)

(** X23: for an identifier that does not fit a 64-bit integer, which
    the routes accept, every handler that addresses a plant ends in
    OverflowError at its first statement, whether or not the method
    would change the store, and the store stays as it is. *)
Theorem unbindable_identifier_raises
  (py_int : string -> option Z)
  (strftime_local : string -> datetime -> result string) (now : datetime)
  (db : store) (pid : Z) (form : plant_form) (data : plant_json)
  (x n : option string) (m : method) :
  fits_int64 pid = false ->
  Route.view_plant pid db = Raise OverflowError
  /\ Route.edit_plant strftime_local pid db = Raise OverflowError
  /\ Route.update_plant py_int now pid form db = Raise OverflowError
  /\ Route.delete_plant pid db = Raise OverflowError
  /\ Route.log_water now pid x n db = Raise OverflowError
  /\ Route.log_water_backdate now pid x n db = Raise OverflowError
  /\ Route.api_log_water now pid x n db = Raise OverflowError
  /\ (m <> POST ->
      Route.api_plant py_int now m pid data db = Raise OverflowError)
  /\ forall req, addresses req pid -> Route.serve py_int now req db = db.
Proof.
  intros F.
  pose proof (select_plant_overflow db pid F) as H.
  pose proof (route_delete_plant_overflow pid db F) as Hd.
  unfold Route.view_plant, Route.edit_plant, Route.update_plant,
    Route.log_water, Route.log_water_backdate, Route.api_log_water.
  rewrite H, Hd. cbn [bind].
  repeat (split; [reflexivity|]).
  split; [now apply route_api_plant_overflow|].
  intros req Ha.
  destruct req as [form'|p form'|p|p w' n'|p d' n'|m' data'|m' p data'
                  |p w' n'|]; simpl in Ha; try contradiction;
    try (subst p); cbv beta iota delta [Route.serve].
  - unfold Route.update_plant. now rewrite H.
  - now rewrite Hd.
  - unfold Route.log_water. now rewrite H.
  - unfold Route.log_water_backdate. now rewrite H.
  - destruct Ha as [-> Hm].
    now rewrite route_api_plant_overflow.
  - unfold Route.api_log_water. now rewrite H.
Qed.

Lemma unbindable_identifier_raises_witness :
  Route.log_water clock0 HUGE_ID None None served_fern_store
  = Raise OverflowError
  /\ Route.api_plant int_of_numeral clock0 GET HUGE_ID (json_named "")
       served_fern_store
     = Raise OverflowError.
Proof.
  destruct (unbindable_identifier_raises int_of_numeral strftime_utc_host
              clock0 served_fern_store HUGE_ID (form_named "Ivy")
              (json_named "") None None GET eq_refl)
    as [_ [_ [_ [_ [H1 [_ [_ [H2 _]]]]]]]].
  split; [exact H1|apply H2; discriminate].
Defined.

(** X24: a watering interval above every 64-bit integer is not stored.
    With such a number as [water_interval_days], an API create whose
    name is not empty and an API update of an existing plant end in
    OverflowError; so do the page create and the page update when
    [int] reads such a number from the form field; the store stays as
    it is. *)
Theorem unbindable_interval_stores_nothing
  (py_int : string -> option Z) (now : datetime) (db : store)
  (data : plant_json) (n : Z) :
  INT64_MAX < n ->
  json_water_interval_days data = IntervalNum n ->
  (strip (or_else (jget (json_name data)) "") <> "" ->
   Route.api_plants py_int now POST data db = Raise OverflowError
   /\ Route.serve py_int now (ReqApiPlants POST data) db = db)
  /\ (forall pid row,
        Sqlite3.select_plant db pid = Ok (Some row) ->
        Route.api_plant py_int now PUT pid data db = Raise OverflowError
        /\ Route.serve py_int now (ReqApiPlant PUT pid data) db = db)
  /\ (forall form s,
        form_water_interval_days form = Some s -> s <> "" ->
        py_int s = Some n ->
        (strip (or_else (form_name form) "") <> "" ->
         Route.create_plant py_int now form db = Raise OverflowError)
        /\ (forall pid row,
              Sqlite3.select_plant db pid = Ok (Some row) ->
              Route.update_plant py_int now pid form db
              = Raise OverflowError)).
Proof.
  intros Hn Hdata.
  assert (Hmax : Z.max 1 n = n) by (unfold INT64_MAX in Hn; lia).
  assert (F : fits_int64 n = false).
  { destruct (fits_int64 n) eqn:E; [|reflexivity].
    apply fits_int64_upper in E. lia. }
  assert (Hz : (n =? 0) = false)
    by (apply Z.eqb_neq; unfold INT64_MAX in Hn; lia).
  split; [|split].
  - intros Hname.
    assert (E : Route.api_plants py_int now POST data db = Raise OverflowError).
    { unfold Route.api_plants.
      rewrite (truthy_not_empty _ Hname). cbn [negb].
      unfold Sqlite3.insert_plant. rewrite Hdata.
      unfold json_interval. rewrite Hz, Hmax. cbn [try_except].
      now rewrite bind_int_overflow. }
    split; [exact E|]. cbv beta iota delta [Route.serve]. now rewrite E.
  - intros pid row Hsel.
    assert (E : Route.api_plant py_int now PUT pid data db
                = Raise OverflowError).
    { unfold Route.api_plant. rewrite Hsel. cbn [bind].
      unfold Sqlite3.update_plant_row. rewrite Hdata.
      unfold json_interval. rewrite Hz, Hmax. cbn [try_except].
      now rewrite bind_int_overflow. }
    split; [exact E|]. cbv beta iota delta [Route.serve]. now rewrite E.
  - intros form s Hs Hne Hint.
    assert (Hi : try_except
                   (form_interval py_int (form_water_interval_days form))
                   (fun i => i) (fun _ => 7) = n).
    { rewrite Hs. unfold form_interval.
      rewrite (truthy_not_empty _ Hne), Hint, Hmax. reflexivity. }
    split.
    + intros Hname. unfold Route.create_plant.
      rewrite (truthy_not_empty _ Hname). cbn [negb].
      unfold Sqlite3.insert_plant. rewrite Hi.
      now rewrite bind_int_overflow.
    + intros pid row Hsel. unfold Route.update_plant.
      rewrite Hsel. cbn [bind].
      unfold Sqlite3.update_plant_row. rewrite Hi.
      now rewrite bind_int_overflow.
Qed.

Lemma unbindable_interval_stores_nothing_witness :
  Route.api_plants int_of_numeral clock0 POST
    (mkplant_json (Text "Oak") Absent Absent (IntervalNum HUGE_ID) Absent)
    served_fern_store
  = Raise OverflowError.
Proof.
  exact (proj1 (proj1 (unbindable_interval_stores_nothing int_of_numeral
                         clock0 served_fern_store
                         (mkplant_json (Text "Oak") Absent Absent
                            (IntervalNum HUGE_ID) Absent)
                         HUGE_ID eq_refl eq_refl)
                  ltac:(discriminate))).
Defined.

(** ** Creating a plant and reading it back *)

Lemma route_api_create (py_int : string -> option Z) (now : datetime)
  (db : store) (data : plant_json) :
  strip (or_else (jget (json_name data)) "") <> "" ->
  1 <= api_interval py_int data <= INT64_MAX ->
  plants_seq db < INT64_MAX ->
  Route.api_plants py_int now POST data db
  = Ok (Jsonify (JDict [("id", JNum (plants_seq db + 1))]) 201,
        snd (Sql.insert_plant db (strip (or_else (jget (json_name data)) ""))
               (jget (json_species data)) (jget (json_location data))
               (api_interval py_int data)
               (Some (or_else (jget (json_notes data)) ""))
               (now_iso now) (now_iso now))).
Proof.
  intros Hname Hint Hseq. unfold Route.api_plants.
  rewrite (truthy_not_empty _ Hname). cbn [negb].
  fold (api_interval py_int data).
  rewrite insert_plant_fits;
    [reflexivity|apply fits_int64_between; lia|exact Hseq].
Qed.

(** X10: on a store reached through the handlers whose rowid counter
    is below the largest rowid, an API create with a name that is not
    empty after trimming and an interval that fits a 64-bit integer
    answers 201 with the next rowid and appends one plant to the table,
    which is read back under that identifier: trimmed name, the
    interval, at least one day, the clock reading as creation timestamp,
    no last watering, and a next watering that is the clock reading
    moved forward by the interval. *)
Theorem created_plant_is_read_back
  (py_int : string -> option Z) (now : datetime) (db : store)
  (data : plant_json) :
  reachable py_int db -> utc_clock now ->
  strip (or_else (jget (json_name data)) "") <> "" ->
  api_interval py_int data <= INT64_MAX ->
  plants_seq db < INT64_MAX ->
  exists db' row,
    Route.api_plants py_int now POST data db
    = Ok (Jsonify (JDict [("id", JNum (plants_seq db + 1))]) 201, db')
    /\ appends_plant db db' row
    /\ Plants.id row = plants_seq db + 1
    /\ Plants.name row = strip (or_else (jget (json_name data)) "")
    /\ Plants.water_interval_days row = api_interval py_int data
    /\ 1 <= Plants.water_interval_days row
    /\ Plants.created_at row = now_iso now
    /\ Sqlite3.select_plant db' (plants_seq db + 1) = Ok (Some row)
    /\ get_last_watered db' (plants_seq db + 1) = None
    /\ (forall now2 data2,
          Route.api_plant py_int now2 GET (plants_seq db + 1) data2 db'
          = (next <- compute_next_watering db' row ;;
             Ok (Jsonify (plant_dict row None next) 200, db')))
    /\ (toordinal now + Plants.water_interval_days row <= MAXORDINAL ->
        exists d',
          compute_next_watering db' row = Ok (Some (isoformat d'))
          /\ tzinfo d' = Some 0
          /\ naive_us d'
             = naive_us now + Plants.water_interval_days row * US_PER_DAY).
Proof.
  intros Hreach Hclock Hname Hfit Hseq.
  pose proof (reachable_inv py_int db Hreach) as Hinv.
  pose proof (reachable_ids py_int db Hreach) as Hids.
  set (name := strip (or_else (jget (json_name data)) "")) in *.
  assert (Hint : 1 <= api_interval py_int data)
    by (apply json_interval_positive; lia).
  set (row := Plants.mkrow (plants_seq db + 1) name (jget (json_species data))
                (jget (json_location data)) (api_interval py_int data)
                (Some (or_else (jget (json_notes data)) ""))
                (now_iso now) (now_iso now)).
  set (db' := mkstore (plants db ++ [row]) (water_logs db) (plants_seq db + 1)
                (water_logs_seq db)).
  assert (Hfits : fits_int64 (plants_seq db + 1) = true).
  { apply fits_int64_between; [|lia]. destruct (ids_counters db Hids). lia. }
  assert (Hsel : Sql.select_plant db' (plants_seq db + 1) = Some row).
  { unfold Sql.select_plant. simpl.
    apply (find_last_row (plants db) row).
    intros x Hx. simpl. pose proof (ids_plants_bound db Hids x Hx). lia. }
  assert (Hnone : event_texts db' (plants_seq db + 1) = []).
  { unfold event_texts, Sql.logs_of. simpl.
    rewrite filter_none; [reflexivity|].
    intros w Hw. apply Z.eqb_neq.
    destruct (inv_owner db Hinv w Hw) as [r [Hr E]].
    pose proof (ids_plants_bound db Hids r Hr). lia. }
  assert (Hlast : get_last_watered db' (plants_seq db + 1) = None)
    by now apply get_last_watered_none.
  exists db', row.
  split; [now apply route_api_create|].
  split; [repeat split|].
  split; [reflexivity|]. split; [reflexivity|]. split; [reflexivity|].
  split; [exact Hint|]. split; [reflexivity|].
  split; [now rewrite select_plant_fits, Hsel|].
  split; [exact Hlast|]. split.
  - intros now2 data2.
    rewrite route_api_plant_fits by (exact Hfits || now left).
    unfold api_plant. rewrite Hsel, Hlast. reflexivity.
  - intros Hr.
    rewrite (next_watering_without_events db' row Hint Hnone).
    destruct Hclock as [V U].
    destruct (plus_days_value (now_iso now) (api_interval py_int data) now
                (parse_isoformat_utc now V U) Hint Hr)
      as [d' [H1 [_ [H2 H3]]]].
    exists d'. split; [exact H1|]. split; [congruence|exact H3].
Qed.

Lemma created_plant_is_read_back_witness :
  exists db' row,
    Route.api_plants int_of_numeral clock0 POST (json_named " Ivy ")
      served_fern_store
    = Ok (Jsonify (JDict [("id", JNum 2)]) 201, db')
    /\ plants db' = (plants served_fern_store ++ [row])%list
    /\ Plants.id row = 2
    /\ Plants.name row = "Ivy".
Proof.
  destruct (created_plant_is_read_back int_of_numeral clock0 served_fern_store
              (json_named " Ivy ")
              (route_reachable_is_reachable _ _ served_fern_store_reachable)
              (conj eq_refl eq_refl) ltac:(discriminate)
              ltac:(vm_compute; discriminate) ltac:(vm_compute; reflexivity))
    as [db' [row [H1 [[H2 _] [H3 [H4 _]]]]]].
  exists db', row.
  split; [exact H1|]. split; [exact H2|]. split; [exact H3|exact H4].
Defined.

(** ** Clearing the store *)

(** X19: on a store reached through the handlers, clearing answers
    with the numbers of plants and of events the store held and leaves
    a store without rows that the handlers reach as well, so the API
    list is empty and the export holds only its header.  The rowid
    counters are kept: the next plant created through the API gets the
    identifier after the counter, which is above the identifier of
    every plant the store held and above the plant identifier of every
    event it held. *)
Theorem clear_empties_the_store
  (py_int : string -> option Z) (now : datetime) (db : store)
  (data : plant_json) :
  reachable py_int db ->
  strip (or_else (jget (json_name data)) "") <> "" ->
  api_interval py_int data <= INT64_MAX ->
  plants_seq db < INT64_MAX ->
  exists db0 db2,
    Route.api_clear db
    = Ok (Jsonify
            (JDict [("status", JStr "ok");
                    ("deleted_plants",
                     JNum (Z.of_nat (List.length (plants db))));
                    ("deleted_logs",
                     JNum (Z.of_nat (List.length (water_logs db))))]) 200,
          db0)
    /\ plants db0 = [] /\ water_logs db0 = []
    /\ reachable py_int db0
    /\ api_plants_rows db0 = Ok []
    /\ export_csv db0 = Ok [CSV_HEADER]
    /\ Route.api_plants py_int now POST data db0
       = Ok (Jsonify (JDict [("id", JNum (plants_seq db + 1))]) 201, db2)
    /\ map Plants.id (plants db2) = [plants_seq db + 1]
    /\ (forall r, In r (plants db) -> Plants.id r < plants_seq db + 1)
    /\ (forall w, In w (water_logs db) ->
          WaterLogs.plant_id w < plants_seq db + 1).
Proof.
  intros Hreach Hname Hfit Hseq.
  pose proof (reachable_inv py_int db Hreach) as Hinv.
  pose proof (reachable_ids py_int db Hreach) as Hids.
  assert (Hint : 1 <= api_interval py_int data)
    by (apply json_interval_positive; lia).
  set (db0 := mkstore [] [] (plants_seq db) (water_logs_seq db)).
  eexists db0, _.
  split; [reflexivity|]. split; [reflexivity|]. split; [reflexivity|].
  split.
  { change db0 with (serve py_int clock0 ReqApiClear db).
    apply reach_serve; [exact Hreach|split; reflexivity]. }
  split; [reflexivity|]. split; [reflexivity|].
  split; [apply (route_api_create py_int now db0 data Hname);
          [lia|exact Hseq]|].
  split; [reflexivity|]. split.
  - intros r Hr. pose proof (ids_plants_bound db Hids r Hr). lia.
  - intros w Hw. destruct (inv_owner db Hinv w Hw) as [r [Hr <-]].
    pose proof (ids_plants_bound db Hids r Hr). lia.
Qed.

Lemma clear_empties_the_store_witness :
  exists db0 db2,
    Route.api_clear watered_store
    = Ok (Jsonify
            (JDict [("status", JStr "ok"); ("deleted_plants", JNum 1);
                    ("deleted_logs", JNum 2)]) 200, db0)
    /\ Route.api_plants int_of_numeral clock0 POST (json_named "Ivy") db0
       = Ok (Jsonify (JDict [("id", JNum 2)]) 201, db2).
Proof.
  assert (R : reachable int_of_numeral watered_store).
  { unfold watered_store.
    apply reach_serve; [apply reach_serve; [apply fern_store_reachable|]|];
      split; reflexivity. }
  destruct (clear_empties_the_store int_of_numeral clock0 watered_store
              (json_named "Ivy") R ltac:(discriminate)
              ltac:(vm_compute; discriminate) ltac:(vm_compute; reflexivity))
    as [db0 [db2 [H1 [_ [_ [_ [_ [_ [H2 _]]]]]]]]].
  exists db0, db2. split; [exact H1|exact H2].
Defined.
